(** * Title-suggestion routes: response normalization pipeline

    A shallow embedding of the two Next.js route handlers
    [src/app/api/public/titles/route.ts] (the public endpoint) and
    [src/app/api/suggest/route.ts] (the internal endpoint), together with
    the normalizer of [src/unnamed/part_001], a second copy of the
    public route, and the properties of their text extractor, fence
    stripper, JSON decoding step and title normalizer.

    JavaScript strings are sequences of UTF-16 code units; the values the
    handlers inspect are untyped, so they are embedded as one inductive
    type of JavaScript values.  IEEE-754 numbers are kept abstract: the
    development is parametric in a model of Number (class [NumberModel]),
    and every theorem holds for every such model. *)

From Stdlib Require Import String Ascii List NArith ZArith Bool Lia Arith.
Import ListNotations.

Set Warnings "-register-all".

(* ================================================================== *)
(** * Strings as sequences of UTF-16 code units *)
(* ================================================================== *)

Module JsString.

Definition code_unit := N.
Definition jsstring := list code_unit.

(** An ASCII literal as a JavaScript string. *)
Definition str (s : string) : jsstring :=
  map N_of_ascii (list_ascii_of_string s).

Definition LF : code_unit := 10%N.
Definition QUOTE : code_unit := 34%N.
Definition COMMA : code_unit := 44%N.
Definition BACKTICK : code_unit := 96%N.

Fixpoint eqb (a b : jsstring) : bool :=
  match a, b with
  | [], [] => true
  | x :: a', y :: b' => (x =? y)%N && eqb a' b'
  | _, _ => false
  end.

(** [WhiteSpace] and [LineTerminator] of ECMA-262: the characters
    removed by [String.prototype.trim] and matched by the regular
    expression class [\s]. *)
Definition is_whitespace (c : code_unit) : bool :=
  ((9 <=? c) && (c <=? 13) || (c =? 32) || (c =? 160) || (c =? 5760)
   || (8192 <=? c) && (c <=? 8202)
   || (c =? 8232) || (c =? 8233) || (c =? 8239) || (c =? 8287)
   || (c =? 12288) || (c =? 65279))%N.

Fixpoint trimStart (s : jsstring) : jsstring :=
  match s with
  | c :: r => if is_whitespace c then trimStart r else s
  | [] => []
  end.

Definition trimEnd (s : jsstring) : jsstring := rev (trimStart (rev s)).

(** [s.trim()] *)
Definition trim (s : jsstring) : jsstring := trimEnd (trimStart s).

(** [s.split(sep)] for a one-character separator: never the empty
    list, [[""]] on the empty string. *)
Fixpoint split (sep : code_unit) (s : jsstring) : list jsstring :=
  match s with
  | [] => [[]]
  | c :: r =>
      if (c =? sep)%N then [] :: split sep r
      else match split sep r with
           | seg :: segs => (c :: seg) :: segs
           | [] => [[c]]
           end
  end.

(** [s.slice(0, n)] *)
Definition slice0 (n : nat) (s : jsstring) : jsstring := firstn n s.

(** [parts.join(sep)] on an array of strings. *)
Fixpoint join (sep : jsstring) (parts : list jsstring) : jsstring :=
  match parts with
  | [] => []
  | [p] => p
  | p :: rest => p ++ sep ++ join sep rest
  end.

(** [s.startsWith(p)], and the remainder after the prefix. *)
Fixpoint strip_prefix (p s : jsstring) : option jsstring :=
  match p, s with
  | [], _ => Some s
  | a :: p', b :: s' => if (a =? b)%N then strip_prefix p' s' else None
  | _ :: _, [] => None
  end.

(** ASCII case folding, as the [i] flag of a non-unicode regular
    expression compares ASCII letters. *)
Definition to_lower_ascii (c : code_unit) : code_unit :=
  if ((65 <=? c) && (c <=? 90))%N then (c + 32)%N else c.

(** Prefix test modulo ASCII case; [p] is given in lower case. *)
Fixpoint strip_prefix_ci (p s : jsstring) : option jsstring :=
  match p, s with
  | [], _ => Some s
  | a :: p', b :: s' =>
      if (a =? to_lower_ascii b)%N then strip_prefix_ci p' s' else None
  | _ :: _, [] => None
  end.

(** Whether a string is blank, i.e. consists of white space only. *)
Definition all_whitespace (s : jsstring) : bool := forallb is_whitespace s.

(** A string has no leading and no trailing white space. *)
Definition trimmed (s : jsstring) : Prop :=
  (forall c r, s = c :: r -> is_whitespace c = false) /\
  (forall c r, s = r ++ [c] -> is_whitespace c = false).

End JsString.
Import JsString.

(* ================================================================== *)
(** * Numbers *)
(* ================================================================== *)

(** The Number type is IEEE-754 binary64; its arithmetic is not needed
    here, only the conversions the handlers reach. *)
Class NumberModel : Type := {
  number : Type;
  (** [StringToNumber] on a JSON number literal. *)
  number_of_literal : jsstring -> number;
  (** The Number of a length or count. *)
  number_of_nat : nat -> number;
  (** [ToBoolean] gives [false]: the number is [+0], [-0] or [NaN]. *)
  number_is_falsy : number -> bool;
  (** Neither [NaN] nor an infinity. *)
  number_is_finite : number -> bool;
  (** [Number::toString] in radix 10. *)
  number_to_string : number -> jsstring
}.

(** A model of the integer-valued numbers, to run the handlers on
    concrete inputs: a number is an integer, and a literal stands for
    its integer part.  It is exact on the literals without fraction and
    exponent, the only ones the examples below contain. *)
Module IntegerNumbers.

Definition is_digit (c : code_unit) : bool := ((48 <=? c) && (c <=? 57))%N.

Fixpoint digits_value (acc : N) (s : jsstring) : N :=
  match s with
  | c :: r => if is_digit c then digits_value (acc * 10 + (c - 48)) r else acc
  | [] => acc
  end.

Definition of_literal (s : jsstring) : Z :=
  match s with
  | 45%N :: r => Z.opp (Z.of_N (digits_value 0 r))
  | _ => Z.of_N (digits_value 0 s)
  end.

Fixpoint digits_of (fuel : nat) (n : N) (acc : jsstring) : jsstring :=
  match fuel with
  | O => acc
  | S fuel' =>
      let acc' := (48 + n mod 10)%N :: acc in
      if (n <? 10)%N then acc' else digits_of fuel' (n / 10) acc'
  end.

Definition to_string (z : Z) : jsstring :=
  let n := Z.abs_N z in
  let ds := digits_of (S (N.to_nat (N.log2 n))) n [] in
  if (z <? 0)%Z then 45%N :: ds else ds.

Definition model : NumberModel := {|
  number := Z;
  number_of_literal := of_literal;
  number_of_nat := Z.of_nat;
  number_is_falsy := fun z => (z =? 0)%Z;
  number_is_finite := fun _ => true;
  number_to_string := to_string
|}.

End IntegerNumbers.

(* ================================================================== *)
(** * Completions *)
(* ================================================================== *)

(** The outcome of evaluating an expression that may throw a value of
    type [E]. *)
Inductive completion (E A : Type) : Type :=
| Normal (a : A)
| Throw (e : E).
Arguments Normal {E A} a.
Arguments Throw {E A} e.

Definition bind {E A B : Type} (c : completion E A)
  (k : A -> completion E B) : completion E B :=
  match c with
  | Normal a => k a
  | Throw e => Throw e
  end.

Notation "x <- c ;; k" := (bind c (fun x => k))
  (at level 61, c at next level, right associativity).

(** [try { c } catch (e) { h e }] *)
Definition try_catch {E A : Type} (c : completion E A)
  (h : E -> completion E A) : completion E A :=
  match c with
  | Normal a => Normal a
  | Throw e => h e
  end.

(** [xs.map(f)] for a callback that may throw. *)
Fixpoint map_c {E A B : Type} (f : A -> completion E B) (l : list A)
  : completion E (list B) :=
  match l with
  | [] => Normal []
  | x :: r => y <- f x ;; ys <- map_c f r ;; Normal (y :: ys)
  end.

(* ================================================================== *)
(** * JavaScript values *)
(* ================================================================== *)

Section Values.

Context {NM : NumberModel}.

(** The values the handlers handle: what [JSON.parse] returns (null,
    booleans, numbers, strings, arrays and plain objects made of own
    data properties, in property order), [undefined], and functions,
    which the response object of the generation service may carry as
    methods.  A function is given by its source text and by what
    calling it, and awaiting the result, does: give [result], or throw
    it (a rejected promise throws at the [await]). *)
Inductive value : Type :=
| VUndefined
| VNull
| VBool (b : bool)
| VNumber (n : number)
| VString (s : jsstring)
| VArray (items : list value)
| VObject (props : list (jsstring * value))
| VFunction (source : jsstring) (throws : bool) (result : value).

Abbreviation comp := (completion value).

(** An [Error] instance as far as the handlers look at it: its
    [message].  The wording of the engine's own messages is V8's. *)
Definition error_object (message : jsstring) : value :=
  VObject [(str "message", VString message)].

Definition throw_type_error {A : Type} (message : string) : comp A :=
  Throw (error_object (str message)).

Inductive type_tag : Type :=
| TagUndefined | TagObject | TagBoolean | TagNumber | TagString | TagFunction.

(** [typeof v] *)
Definition typeof (v : value) : type_tag :=
  match v with
  | VUndefined => TagUndefined
  | VNull => TagObject
  | VBool _ => TagBoolean
  | VNumber _ => TagNumber
  | VString _ => TagString
  | VArray _ => TagObject
  | VObject _ => TagObject
  | VFunction _ _ _ => TagFunction
  end.

Definition is_string (v : value) : bool :=
  match v with VString _ => true | _ => false end.

Definition is_function (v : value) : bool :=
  match v with VFunction _ _ _ => true | _ => false end.

(** [typeof v === "object"] *)
Definition typeof_object (v : value) : bool :=
  match v with VNull | VArray _ | VObject _ => true | _ => false end.

(** [Array.isArray(v)] *)
Definition isArray (v : value) : bool :=
  match v with VArray _ => true | _ => false end.

(** [ToBoolean(v)] *)
Definition truthy (v : value) : bool :=
  match v with
  | VUndefined | VNull => false
  | VBool b => b
  | VNumber n => negb (number_is_falsy n)
  | VString s => match s with [] => false | _ => true end
  | VArray _ | VObject _ | VFunction _ _ _ => true
  end.

(** [v === undefined || v === null] *)
Definition nullish (v : value) : bool :=
  match v with VUndefined | VNull => true | _ => false end.

(** [a ?? b] and [a || b] on already evaluated operands. *)
Definition coalesce (a b : value) : value := if nullish a then b else a.
Definition or_else (a b : value) : value := if truthy a then a else b.

Fixpoint lookup (k : jsstring) (props : list (jsstring * value))
  : option value :=
  match props with
  | [] => None
  | (k', v) :: rest => if JsString.eqb k k' then Some v else lookup k rest
  end.

Definition has_own (k : jsstring) (props : list (jsstring * value)) : bool :=
  match lookup k props with Some _ => true | None => false end.

Definition is_digit (c : code_unit) : bool := ((48 <=? c) && (c <=? 57))%N.

Fixpoint digits_value (acc : N) (s : jsstring) : option N :=
  match s with
  | [] => Some acc
  | c :: r =>
      if is_digit c then digits_value (acc * 10 + (c - 48)) r else None
  end.

(** A property key that is an array index: the canonical decimal form
    of an integer below [2^32 - 1]. *)
Definition array_index (k : jsstring) : option N :=
  match k with
  | [] => None
  | c :: r =>
      if ((c =? 48) && negb (match r with [] => true | _ => false end))%N%bool
      then None
      else match digits_value 0 k with
           | Some n => if (n <? 4294967295)%N then Some n else None
           | None => None
           end
  end.

(** [v[k]] for a string key: own properties only.  Members inherited
    from the built-in prototypes are not modelled; the handlers read
    none of them through a computed key.  Reading a property of
    [undefined] or [null] throws. *)
Definition get (v : value) (k : jsstring) : comp value :=
  match v with
  | VUndefined | VNull =>
      throw_type_error "Cannot read properties of undefined or null"
  | VObject props =>
      Normal (match lookup k props with Some x => x | None => VUndefined end)
  | VArray items =>
      Normal (if JsString.eqb k (str "length")
              then VNumber (number_of_nat (length items))
              else match array_index k with
                   | Some i => nth (N.to_nat i) items VUndefined
                   | None => VUndefined
                   end)
  | VString s =>
      Normal (if JsString.eqb k (str "length")
              then VNumber (number_of_nat (length s))
              else match array_index k with
                   | Some i => match nth_error s (N.to_nat i) with
                               | Some c => VString [c]
                               | None => VUndefined
                               end
                   | None => VUndefined
                   end)
  | VBool _ | VNumber _ | VFunction _ _ _ => Normal VUndefined
  end.

(** [v?.[k]] *)
Definition get_opt (v : value) (k : jsstring) : comp value :=
  if nullish v then Normal VUndefined else get v k.

(** [f()] *)
Definition call (f : value) : comp value :=
  match f with
  | VFunction _ throws result => if throws then Throw result else Normal result
  | _ => throw_type_error "is not a function"
  end.

(* ------------------------------------------------------------------ *)
(** ** [String(v)] *)
(* ------------------------------------------------------------------ *)

Definition primitive_to_string (v : value) : option jsstring :=
  match v with
  | VUndefined => Some (str "undefined")
  | VNull => Some (str "null")
  | VBool b => Some (if b then str "true" else str "false")
  | VNumber n => Some (number_to_string n)
  | VString s => Some s
  | VArray _ | VObject _ | VFunction _ _ _ => None
  end.

(** One round of [OrdinaryToPrimitive] with an own property as the
    method: when it is callable, call it and keep a primitive result. *)
Definition own_method_to_primitive (m : value) : comp (option jsstring) :=
  match m with
  | VFunction _ throws result =>
      if throws then Throw result else Normal (primitive_to_string result)
  | _ => Normal None
  end.

(** [String(o)] of a plain object.  Without an own [toString] the
    inherited [Object.prototype.toString] answers.  An own [toString]
    hides it: the own one, then [valueOf], are tried, and when neither
    yields a primitive the conversion throws (the inherited [valueOf]
    returns the object itself). *)
Definition object_to_string (props : list (jsstring * value))
  : comp jsstring :=
  match lookup (str "toString") props with
  | None => Normal (str "[object Object]")
  | Some m =>
      r <- own_method_to_primitive m ;;
      match r with
      | Some s => Normal s
      | None =>
          match lookup (str "valueOf") props with
          | None =>
              throw_type_error "Cannot convert object to primitive value"
          | Some m' =>
              r' <- own_method_to_primitive m' ;;
              match r' with
              | Some s => Normal s
              | None =>
                  throw_type_error "Cannot convert object to primitive value"
              end
          end
      end
  end.

(** [String(v)].  An array converts through [join(",")], where
    [undefined] and [null] elements give the empty string. *)
Fixpoint to_string (v : value) : comp jsstring :=
  match v with
  | VUndefined => Normal (str "undefined")
  | VNull => Normal (str "null")
  | VBool b => Normal (if b then str "true" else str "false")
  | VNumber n => Normal (number_to_string n)
  | VString s => Normal s
  | VArray items =>
      parts <- (fix elements (l : list value) : comp (list jsstring) :=
                  match l with
                  | [] => Normal []
                  | x :: r =>
                      s <- (if nullish x then Normal [] else to_string x) ;;
                      ss <- elements r ;;
                      Normal (s :: ss)
                  end) items ;;
      Normal (join [COMMA] parts)
  | VObject props => object_to_string props
  | VFunction source _ _ => Normal source
  end.

(* ------------------------------------------------------------------ *)
(** ** [JSON.parse] *)
(* ------------------------------------------------------------------ *)

Inductive token : Type :=
| TLBrace | TRBrace | TLBracket | TRBracket | TColon | TComma
| TString (s : jsstring)
| TNumber (literal : jsstring)
| TTrue | TFalse | TNull.

Definition is_json_whitespace (c : code_unit) : bool :=
  ((c =? 9) || (c =? 10) || (c =? 13) || (c =? 32))%N.

Definition hex_value (c : code_unit) : option N :=
  if is_digit c then Some (c - 48)%N
  else if ((97 <=? c) && (c <=? 102))%N then Some (c - 87)%N
  else if ((65 <=? c) && (c <=? 70))%N then Some (c - 55)%N
  else None.

Definition hex4 (a b c d : code_unit) : option code_unit :=
  match hex_value a, hex_value b, hex_value c, hex_value d with
  | Some x, Some y, Some z, Some w =>
      Some (((x * 16 + y) * 16 + z) * 16 + w)%N
  | _, _, _, _ => None
  end.

(** The character a single-letter escape stands for. *)
Definition escape_char (e : code_unit) : option code_unit :=
  if (e =? 34)%N then Some 34%N            (* quotation mark *)
  else if (e =? 92)%N then Some 92%N       (* reverse solidus *)
  else if (e =? 47)%N then Some 47%N       (* solidus *)
  else if (e =? 98)%N then Some 8%N        (* b *)
  else if (e =? 102)%N then Some 12%N      (* f *)
  else if (e =? 110)%N then Some 10%N      (* n *)
  else if (e =? 114)%N then Some 13%N      (* r *)
  else if (e =? 116)%N then Some 9%N       (* t *)
  else None.

(** The rest of a string literal after its opening quotation mark: the
    decoded characters and the number of code units read, closing
    quotation mark included. *)
Fixpoint scan_string (s : jsstring) : option (jsstring * nat) :=
  match s with
  | [] => None
  | c :: r =>
      if (c =? 34)%N then Some ([], 1)
      else if (c =? 92)%N then
        match r with
        | [] => None
        | e :: r2 =>
            if (e =? 117)%N then
              match r2 with
              | a :: b :: c' :: d :: r3 =>
                  match hex4 a b c' d, scan_string r3 with
                  | Some u, Some (t, n) => Some (u :: t, 6 + n)
                  | _, _ => None
                  end
              | _ => None
              end
            else
              match escape_char e, scan_string r2 with
              | Some u, Some (t, n) => Some (u :: t, 2 + n)
              | _, _ => None
              end
        end
      else if (c <? 32)%N then None
      else match scan_string r with
           | Some (t, n) => Some (c :: t, 1 + n)
           | None => None
           end
  end.

Fixpoint count_digits (s : jsstring) : nat :=
  match s with
  | c :: r => if is_digit c then S (count_digits r) else 0
  | [] => 0
  end.

Definition scan_int (s : jsstring) : option nat :=
  match s with
  | c :: r =>
      if (c =? 48)%N then Some 1
      else if is_digit c then Some (S (count_digits r))
      else None
  | [] => None
  end.

Definition scan_frac (s : jsstring) : nat :=
  match s with
  | c :: r =>
      if (c =? 46)%N
      then match count_digits r with O => 0 | S n => 2 + n end
      else 0
  | [] => 0
  end.

Definition scan_exp (s : jsstring) : nat :=
  match s with
  | c :: r =>
      if ((c =? 101) || (c =? 69))%N then
        match r with
        | sign :: r' =>
            if ((sign =? 43) || (sign =? 45))%N
            then match count_digits r' with O => 0 | S n => 3 + n end
            else match count_digits r with O => 0 | S n => 2 + n end
        | [] => 0
        end
      else 0
  | [] => 0
  end.

(** The length of the number literal a text starts with. *)
Definition scan_number (s : jsstring) : option nat :=
  let '(sign, rest) :=
    match s with
    | c :: r => if (c =? 45)%N then (1, r) else (0, s)
    | [] => (0, s)
    end in
  match scan_int rest with
  | None => None
  | Some i =>
      let f := scan_frac (skipn i rest) in
      let e := scan_exp (skipn (i + f) rest) in
      Some (sign + i + f + e)
  end.

Definition cons_token (t : token) (rest : option (list token))
  : option (list token) :=
  match rest with Some ts => Some (t :: ts) | None => None end.

(** The tokens of a JSON text.  The text is read code unit by code
    unit; [skip] counts the code units still belonging to the token
    just recognised. *)
Fixpoint lex (skip : nat) (s : jsstring) : option (list token) :=
  match s with
  | [] => Some []
  | c :: r =>
      match skip with
      | S k => lex k r
      | O =>
          if is_json_whitespace c then lex 0 r
          else if (c =? 123)%N then cons_token TLBrace (lex 0 r)
          else if (c =? 125)%N then cons_token TRBrace (lex 0 r)
          else if (c =? 91)%N then cons_token TLBracket (lex 0 r)
          else if (c =? 93)%N then cons_token TRBracket (lex 0 r)
          else if (c =? 58)%N then cons_token TColon (lex 0 r)
          else if (c =? 44)%N then cons_token TComma (lex 0 r)
          else if (c =? 34)%N then
            match scan_string r with
            | Some (t, n) => cons_token (TString t) (lex n r)
            | None => None
            end
          else if ((c =? 45)%N || is_digit c)%bool then
            match scan_number s with
            | Some n => cons_token (TNumber (firstn n s)) (lex (n - 1) r)
            | None => None
            end
          else if (c =? 116)%N then
            match strip_prefix (str "rue") r with
            | Some _ => cons_token TTrue (lex 3 r)
            | None => None
            end
          else if (c =? 102)%N then
            match strip_prefix (str "alse") r with
            | Some _ => cons_token TFalse (lex 4 r)
            | None => None
            end
          else if (c =? 110)%N then
            match strip_prefix (str "ull") r with
            | Some _ => cons_token TNull (lex 3 r)
            | None => None
            end
          else None
      end
  end.

Fixpoint replace_property (k : jsstring) (v : value)
  (props : list (jsstring * value)) : list (jsstring * value) :=
  match props with
  | [] => []
  | (k', x) :: r =>
      if JsString.eqb k k' then (k', v) :: r
      else (k', x) :: replace_property k v r
  end.

Fixpoint insert_index (i : N) (k : jsstring) (v : value)
  (props : list (jsstring * value)) : list (jsstring * value) :=
  match props with
  | [] => [(k, v)]
  | (k', x) :: r =>
      match array_index k' with
      | Some j =>
          if (j <? i)%N then (k', x) :: insert_index i k v r
          else (k, v) :: props
      | None => (k, v) :: props
      end
  end.

(** [CreateDataProperty]: a key already present keeps its place and
    takes the new value; a new key goes after the others, except that
    array-index keys come first, in ascending order. *)
Definition define_property (k : jsstring) (v : value)
  (props : list (jsstring * value)) : list (jsstring * value) :=
  if has_own k props then replace_property k v props
  else match array_index k with
       | Some i => insert_index i k v props
       | None => props ++ [(k, v)]
       end.

(** The containers under construction. *)
Inductive frame : Type :=
| FArray (items : list value)
| FObject (props : list (jsstring * value))
| FMember (props : list (jsstring * value)) (key : jsstring).

(** What the grammar allows next. *)
Inductive expect : Type :=
| EValue          (* a value *)
| EFirstElement   (* after a left bracket: a value or the right bracket *)
| EFirstKey       (* after a left brace: a key or the right brace *)
| EKey            (* after a comma in an object: a key *)
| EColon          (* after a key *)
| ENext           (* after a value in a container: comma or closer *)
| EEnd (v : value). (* the text's value is complete *)

Definition complete (v : value) (stack : list frame)
  : option (list frame * expect) :=
  match stack with
  | [] => Some ([], EEnd v)
  | FArray items :: st => Some (FArray (items ++ [v]) :: st, ENext)
  | FMember props key :: st =>
      Some (FObject (define_property key v props) :: st, ENext)
  | FObject _ :: _ => None
  end.

Definition start_value (t : token) (stack : list frame)
  : option (list frame * expect) :=
  match t with
  | TNull => complete VNull stack
  | TTrue => complete (VBool true) stack
  | TFalse => complete (VBool false) stack
  | TNumber lit => complete (VNumber (number_of_literal lit)) stack
  | TString s => complete (VString s) stack
  | TLBracket => Some (FArray [] :: stack, EFirstElement)
  | TLBrace => Some (FObject [] :: stack, EFirstKey)
  | TRBrace | TRBracket | TColon | TComma => None
  end.

Definition parse_step (t : token) (st : list frame * expect)
  : option (list frame * expect) :=
  let '(stack, e) := st in
  match e with
  | EValue => start_value t stack
  | EFirstElement =>
      match t, stack with
      | TRBracket, FArray items :: rest => complete (VArray items) rest
      | _, _ => start_value t stack
      end
  | EFirstKey =>
      match t, stack with
      | TRBrace, FObject props :: rest => complete (VObject props) rest
      | TString k, FObject props :: rest => Some (FMember props k :: rest, EColon)
      | _, _ => None
      end
  | EKey =>
      match t, stack with
      | TString k, FObject props :: rest => Some (FMember props k :: rest, EColon)
      | _, _ => None
      end
  | EColon =>
      match t with
      | TColon => Some (stack, EValue)
      | _ => None
      end
  | ENext =>
      match t, stack with
      | TComma, FArray _ :: _ => Some (stack, EValue)
      | TRBracket, FArray items :: rest => complete (VArray items) rest
      | TComma, FObject _ :: _ => Some (stack, EKey)
      | TRBrace, FObject props :: rest => complete (VObject props) rest
      | _, _ => None
      end
  | EEnd _ => None
  end.

Fixpoint parse_tokens (ts : list token) (st : list frame * expect)
  : option value :=
  match ts with
  | [] => match st with
          | (_, EEnd v) => Some v
          | _ => None
          end
  | t :: rest =>
      match parse_step t st with
      | Some st' => parse_tokens rest st'
      | None => None
      end
  end.

(** [JSON.parse(text)] without reviver: [None] when it throws a
    [SyntaxError]. *)
Definition JSON_parse (text : jsstring) : option value :=
  match lex 0 text with
  | Some ts => parse_tokens ts ([], EValue)
  | None => None
  end.

(* ------------------------------------------------------------------ *)
(** ** [JSON.stringify] *)
(* ------------------------------------------------------------------ *)

Definition hex_digit (n : N) : code_unit :=
  if (n <? 10)%N then (48 + n)%N else (87 + n)%N.

(** The six-character escape of a code unit, with lower-case digits. *)
Definition unicode_escape (c : code_unit) : jsstring :=
  [92; 117; hex_digit (c / 4096 mod 16); hex_digit (c / 256 mod 16);
   hex_digit (c / 16 mod 16); hex_digit (c mod 16)]%N.

Definition is_lead_surrogate (c : code_unit) : bool :=
  ((55296 <=? c) && (c <=? 56319))%N.
Definition is_trail_surrogate (c : code_unit) : bool :=
  ((56320 <=? c) && (c <=? 57343))%N.

Definition quote_char (c : code_unit) : jsstring :=
  if (c =? 8)%N then str "\b"
  else if (c =? 9)%N then str "\t"
  else if (c =? 10)%N then str "\n"
  else if (c =? 12)%N then str "\f"
  else if (c =? 13)%N then str "\r"
  else if (c =? 34)%N then [92; 34]%N
  else if (c =? 92)%N then [92; 92]%N
  else if (c <? 32)%N then unicode_escape c
  else [c].

(** The body of [QuoteJSONString]: control characters, the quotation
    mark, the reverse solidus and unpaired surrogates are escaped. *)
Fixpoint quote_body (s : jsstring) : jsstring :=
  match s with
  | [] => []
  | c :: r =>
      if is_lead_surrogate c then
        match r with
        | d :: r' =>
            if is_trail_surrogate d then c :: d :: quote_body r'
            else unicode_escape c ++ quote_body r
        | [] => unicode_escape c
        end
      else if is_trail_surrogate c then unicode_escape c ++ quote_body r
      else quote_char c ++ quote_body r
  end.

Definition quote_json_string (s : jsstring) : jsstring :=
  QUOTE :: quote_body s ++ [QUOTE].

(** [SerializeJSONProperty]: [None] stands for [undefined].  With
    [consult] set, an object's own [toJSON] method is called first and
    its result serialized in the object's place. *)
Fixpoint serialize (consult : bool) (v : value)
  : comp (option jsstring) :=
  match v with
  | VUndefined => Normal None
  | VFunction _ _ _ => Normal None
  | VNull => Normal (Some (str "null"))
  | VBool b => Normal (Some (if b then str "true" else str "false"))
  | VNumber n =>
      Normal (Some (if number_is_finite n then number_to_string n
                    else str "null"))
  | VString s => Normal (Some (quote_json_string s))
  | VArray items =>
      parts <- (fix elements (l : list value) : comp (list jsstring) :=
                  match l with
                  | [] => Normal []
                  | x :: r =>
                      s <- serialize true x ;;
                      ss <- elements r ;;
                      Normal (match s with
                              | Some t => t
                              | None => str "null"
                              end :: ss)
                  end) items ;;
      Normal (Some (str "[" ++ join [COMMA] parts ++ str "]"))
  | VObject props =>
      let members :=
        (fix members (l : list (jsstring * value))
           : comp (list jsstring) :=
           match l with
           | [] => Normal []
           | (k, x) :: r =>
               s <- serialize true x ;;
               ms <- members r ;;
               Normal (match s with
                       | Some t => (quote_json_string k ++ str ":" ++ t) :: ms
                       | None => ms
                       end)
           end) in
      let plain :=
        ms <- members props ;;
        Normal (Some (str "{" ++ join [COMMA] ms ++ str "}")) in
      if consult then
        (fix find (l : list (jsstring * value))
           : comp (option jsstring) :=
           match l with
           | [] => plain
           | (k, x) :: r =>
               if JsString.eqb (str "toJSON") k then
                 match x with
                 | VFunction _ throws result =>
                     if throws then Throw result else serialize false result
                 | _ => plain
                 end
               else find r
           end) props
      else plain
  end.

(** [JSON.stringify(v)]: a string, or [undefined]. *)
Definition JSON_stringify (v : value) : comp value :=
  r <- serialize true v ;;
  Normal (match r with Some s => VString s | None => VUndefined end).

End Values.

Abbreviation comp := (completion value).

(** Induction on values, through arrays, objects and function results. *)
Section ValueInduction.

Context {NM : NumberModel}.
Variable P : value -> Prop.
Hypothesis Hundefined : P VUndefined.
Hypothesis Hnull : P VNull.
Hypothesis Hbool : forall b, P (VBool b).
Hypothesis Hnumber : forall n, P (VNumber n).
Hypothesis Hstring : forall s, P (VString s).
Hypothesis Harray : forall items, Forall P items -> P (VArray items).
Hypothesis Hobject :
  forall props, Forall (fun kv => P (snd kv)) props -> P (VObject props).
Hypothesis Hfunction :
  forall source throws result, P result -> P (VFunction source throws result).

(** Induction on values, through arrays and objects. *)
Fixpoint value_induction (v : value) : P v :=
  match v with
  | VUndefined => Hundefined
  | VNull => Hnull
  | VBool b => Hbool b
  | VNumber n => Hnumber n
  | VString s => Hstring s
  | VArray items =>
      Harray items
        ((fix all (l : list value) : Forall P l :=
            match l with
            | [] => Forall_nil P
            | x :: r => Forall_cons x (value_induction x) (all r)
            end) items)
  | VObject props =>
      Hobject props
        ((fix all (l : list (jsstring * value))
            : Forall (fun kv => P (snd kv)) l :=
            match l with
            | [] => Forall_nil _
            | kv :: r =>
                Forall_cons kv (value_induction (snd kv)) (all r)
            end) props)
  | VFunction source throws result =>
      Hfunction source throws result (value_induction result)
  end.

End ValueInduction.

(* ================================================================== *)
(** * What the three route files share *)
(* ================================================================== *)

Section Shared.

Context {NM : NumberModel}.

(** [a ?? b] and [a || b], the right operand evaluated on demand. *)
Definition coalesce_lazy (a b : comp value) : comp value :=
  v <- a ;; if nullish v then b else Normal v.

Definition or_lazy (a b : comp value) : comp value :=
  v <- a ;; if truthy v then Normal v else b.

Definition non_empty (s : jsstring) : bool :=
  match s with [] => false | _ => true end.

(** [Object.values(v)] *)
Definition Object_values (v : value) : list value :=
  match v with
  | VObject props => map snd props
  | VArray items => items
  | VString s => map (fun c => VString [c]) s
  | _ => []
  end.

(** [Array.from(new Set(titles))]: a Set keeps the first occurrence of
    each member, in insertion order. *)
Definition set_add (seen : list jsstring) (t : jsstring) : list jsstring :=
  if existsb (JsString.eqb t) seen then seen else seen ++ [t].

Definition array_from_set (titles : list jsstring) : list jsstring :=
  fold_left set_add titles [].

Definition option_list {A : Type} (o : option A) : list A :=
  match o with Some x => [x] | None => [] end.

Definition MAX_TITLE : nat := 45.

(** [t.length > 45 ? t.slice(0, 45).trim() : t] *)
Definition clip (t : jsstring) : jsstring :=
  if MAX_TITLE <? length t then trim (slice0 MAX_TITLE t) else t.

(** [items.join(sep)] on arbitrary values. *)
Definition join_values (sep : jsstring) (items : list value) : comp jsstring :=
  parts <- map_c (fun x => if nullish x then Normal [] else to_string x)
                 items ;;
  Normal (join sep parts).

(** [buildUserPrompt]: the same text in the three files.  Its fields
    arrive as whatever the caller destructured. *)
Definition buildUserPrompt (description keywords niche language : value)
  : comp jsstring :=
  l1 <- (if truthy description
         then d <- to_string description ;;
              Normal [str "Description: " ++ d]
         else Normal []) ;;
  len <- get_opt keywords (str "length") ;;
  l2 <- (if truthy len
         then
           joined <- match keywords with
                     | VArray items =>
                         j <- join_values (str ", ") items ;;
                         Normal (VString j)
                     | VObject props =>
                         match lookup (str "join") props with
                         | Some m => call m
                         | None => throw_type_error "join is not a function"
                         end
                     | _ => throw_type_error "join is not a function"
                     end ;;
           k <- to_string joined ;;
           Normal [str "Keywords: " ++ k]
         else Normal []) ;;
  l3 <- (if truthy niche
         then n <- to_string niche ;; Normal [str "Niche: " ++ n]
         else Normal []) ;;
  l4 <- (if truthy language
         then l <- to_string language ;; Normal [str "Language: " ++ l]
         else Normal []) ;;
  Normal (join [LF]
            (l1 ++ l2 ++ l3 ++ l4 ++
             [str "Respond in JSON only, no extra text.";
              str "All titles must be <= 45 characters each."])).

(** [s.replace(re, "")] where [strip] is what the replacement does to a
    string.  Only strings inherit [replace]; an object may carry a
    callable own property of that name. *)
Definition replace_method (strip : jsstring -> jsstring) (s : value)
  : comp value :=
  match s with
  | VString t => Normal (VString (strip t))
  | VUndefined | VNull =>
      throw_type_error "Cannot read properties of undefined or null"
  | VObject props =>
      match lookup (str "replace") props with
      | Some m => call m
      | None => throw_type_error "replace is not a function"
      end
  | VBool _ | VNumber _ | VArray _ | VFunction _ _ _ =>
      throw_type_error "replace is not a function"
  end.

Definition FENCE : jsstring := [BACKTICK; BACKTICK; BACKTICK].

Definition drop_newline (s : jsstring) : jsstring :=
  match s with
  | c :: r => if (c =? LF)%N then r else s
  | [] => s
  end.

(** The first replacement: a leading fence followed by the word json
    in any case and an optional line feed. *)
Definition strip_json_fence (s : jsstring) : jsstring :=
  match strip_prefix_ci (FENCE ++ str "json") s with
  | Some r => drop_newline r
  | None => s
  end.

(** The second replacement: a leading fence and an optional line
    feed. *)
Definition strip_open_fence (s : jsstring) : jsstring :=
  match strip_prefix FENCE s with
  | Some r => drop_newline r
  | None => s
  end.

(** The whole of [s] is an optional line feed, a fence and white space
    up to the end. *)
Definition closing_fence (s : jsstring) : bool :=
  match strip_prefix (LF :: FENCE) s with
  | Some r => all_whitespace r
  | None => false
  end
  || match strip_prefix FENCE s with
     | Some r => all_whitespace r
     | None => false
     end.

(** The third replacement: the leftmost place from which the text is a
    closing fence is where the text is cut. *)
Fixpoint strip_close_fence (s : jsstring) : jsstring :=
  if closing_fence s then []
  else match s with
       | [] => []
       | c :: r => c :: strip_close_fence r
       end.

(** The three replacements on a string, in order. *)
Definition strip_fences (s : jsstring) : jsstring :=
  strip_close_fence (strip_open_fence (strip_json_fence s)).

(** [stripCodeFences] *)
Definition stripCodeFences (s : value) : comp value :=
  s1 <- replace_method strip_json_fence s ;;
  s2 <- replace_method strip_open_fence s1 ;;
  replace_method strip_close_fence s2.

(** [tryParseJson]: [JSON.parse] converts its argument to a string;
    whatever is thrown becomes [null]. *)
Definition tryParseJson (s : value) : value :=
  match to_string s with
  | Normal text =>
      match JSON_parse text with
      | Some v => v
      | None => VNull
      end
  | Throw _ => VNull
  end.

(** [tryParseJson(stripped) ?? tryParseJson(rawText)] *)
Definition decode (stripped rawText : value) : value :=
  coalesce (tryParseJson stripped) (tryParseJson rawText).

(** [await req.json().catch(() => ({}))] for a request whose body is
    the text [body]. *)
Definition request_json (body : jsstring) : value :=
  match JSON_parse body with
  | Some v => v
  | None => VObject []
  end.

(** The environment and the generation service a handler runs against.
    [generateContent] receives the user prompt; the model name, the
    system instruction and the sampling configuration are constants of
    the call. *)
Record host : Type := {
  GEMINI_API_KEY : option jsstring;
  generateContent : jsstring -> comp value
}.

(** [!apiKey] *)
Definition api_key_missing (h : host) : bool :=
  match GEMINI_API_KEY h with
  | None => true
  | Some k => negb (non_empty k)
  end.

Inductive body : Type :=
| JsonBody (data : value)      (* [NextResponse.json(data, init)] *)
| TextBody (text : value)      (* [new NextResponse(text, init)] *)
| NoBody.

Record response : Type := {
  status : nat;
  headers : list (jsstring * jsstring);
  content : body
}.

Definition error_body (message : value) : body :=
  JsonBody (VObject [(str "error", message)]).

Definition error_raw_body (message : string) (raw : value) : body :=
  JsonBody (VObject [(str "error", VString (str message)); (str "raw", raw)]).

Definition MISSING_KEY : jsstring :=
  str "Missing GEMINI_API_KEY environment variable".

End Shared.

(* ================================================================== *)
(** * The public endpoint: [src/app/api/public/titles/route.ts] *)
(* ================================================================== *)

Module Public.
Section Route.

Context {NM : NumberModel}.

(** [corsHeaders()] *)
Definition corsHeaders : list (jsstring * jsstring) :=
  [(str "Access-Control-Allow-Origin", str "*");
   (str "Access-Control-Allow-Methods", str "POST, OPTIONS");
   (str "Access-Control-Allow-Headers", str "Content-Type, Authorization")].

(** [OPTIONS] *)
Definition OPTIONS : response :=
  {| status := 204; headers := corsHeaders; content := NoBody |}.

(** [r["title"] ?? r["text"] ?? r["suggestion"]] *)
Definition title_field (r : value) : comp value :=
  coalesce_lazy (coalesce_lazy (get r (str "title")) (get r (str "text")))
                (get r (str "suggestion")).

(** The callback of [src.map], lines 88-99. *)
Definition element_title (s : value) : comp jsstring :=
  match s with
  | VString t => Normal (trim t)
  | _ =>
      if truthy s && typeof_object s then
        val <- title_field s ;;
        match val with
        | VString t => Normal (trim t)
        | _ =>
            match find is_string (Object_values s) with
            | Some (VString t) => Normal (trim t)
            | _ => t <- to_string s ;; Normal (trim t)
            end
        end
      else
        t <- to_string s ;; Normal (trim t)
  end.

(** Lines 81-82: [obj["titles"] ?? obj["suggestions"]]. *)
Definition titles_source (json : value) : comp value :=
  let obj := if truthy json && typeof_object json then json else VObject [] in
  coalesce_lazy (get obj (str "titles")) (get obj (str "suggestions")).

(** The value of [titles] at line 105: the raw candidates, in source
    order. *)
Definition title_candidates (json : value) : comp (list jsstring) :=
  src <- titles_source json ;;
  match src with
  | VString s => Normal (filter non_empty (map trim (split COMMA s)))
  | VArray items =>
      ts <- map_c element_title items ;;
      Normal (filter non_empty ts)
  | _ =>
      if truthy src && typeof_object src then
        maybe <- title_field src ;;
        match maybe with
        | VString t => Normal [trim t]
        | _ => Normal []
        end
      else Normal []
  end.

(** What lines 107-109 make of one candidate: nothing when it is
    blank, else its trimmed and cut form. *)
Definition title_of (c : jsstring) : option jsstring :=
  let t := trim c in
  if non_empty t then Some (clip t) else None.

(** Lines 106-110: trim, drop the empty strings, cut to 45 code units,
    deduplicate. *)
Definition finish_titles (titles : list jsstring) : list jsstring :=
  array_from_set (map clip (filter non_empty (map trim titles))).

(** [normalizeTitlesFromJson] *)
Definition normalizeTitlesFromJson (json : value) : comp (list jsstring) :=
  titles <- title_candidates json ;;
  Normal (finish_titles titles).

(** The titles [L] follow the first occurrences among the candidates:
    when [a] comes before [b] in [L], the first candidate that becomes
    [a] comes before every candidate that becomes [b]. *)
Definition first_occurrence_order (cands L : list jsstring) : Prop :=
  forall l1 a l2 b l3,
    L = l1 ++ a :: l2 ++ b :: l3 ->
    exists c1 ca c2,
      cands = c1 ++ ca :: c2 /\ title_of ca = Some a /\
      (forall c, In c c1 -> title_of c <> Some a /\ title_of c <> Some b) /\
      (exists cb, In cb c2 /\ title_of cb = Some b).

(** No object reached through arrays carries an own [toString]
    property, so that [String] applies to the value without throwing. *)
Fixpoint printable (v : value) : bool :=
  match v with
  | VArray items => forallb printable items
  | VObject props => negb (has_own (str "toString") props)
  | _ => true
  end.

(** The payload [{"titles": L}]. *)
Definition titles_payload (L : list jsstring) : value :=
  VObject [(str "titles", VArray (map VString L))].

(** The elements of an array-valued titles source are all printable:
    then no conversion in the normalizer throws. *)
Definition printable_titles (json : value) : bool :=
  match titles_source json with
  | Normal (VArray items) => forallb printable items
  | _ => true
  end.

(** The callback of [parts.map], lines 186 and 198. *)
Definition part_text (p : value) : jsstring :=
  if truthy p && typeof_object p then
    match get p (str "text") with
    | Normal (VString t) => t
    | _ => []
    end
  else [].

(** [parts.map(...).filter(Boolean).join("\n")] *)
Definition joined_parts (parts : list value) : jsstring :=
  join [LF] (filter non_empty (map part_text parts)).

(** Lines 180-193: the [candidates] strategy.  [None]: the function
    goes on to the next strategy. *)
Definition from_candidates (candidates : value) : comp (option value) :=
  match candidates with
  | VArray (first :: _) =>
      content <- get_opt first (str "content") ;;
      parts <- get_opt content (str "parts") ;;
      let joined := match parts with
                    | VArray ps => joined_parts ps
                    | _ => []
                    end in
      if non_empty joined then Normal (Some (VString joined))
      else
        ct <- (if truthy content then get content (str "text")
               else Normal VUndefined) ;;
        textField <- match ct with
                     | VString t => Normal t
                     | _ =>
                         ft <- get first (str "text") ;;
                         Normal (match ft with VString t => t | _ => [] end)
                     end ;;
        if non_empty (trim textField) then Normal (Some (VString textField))
        else Normal None
  | _ => Normal None
  end.

(** The body of the [try] block of [extractText], lines 170-204. *)
Definition extractText_try (resp : value) : comp value :=
  let r := resp in
  let is_obj := truthy r && typeof_object r in
  text <- (if is_obj then get r (str "text") else Normal VUndefined) ;;
  if is_obj && is_function text then call text
  else
    responseObj <- (if is_obj then get r (str "response")
                    else Normal VUndefined) ;;
    rtext <- (if truthy responseObj then get responseObj (str "text")
              else Normal VUndefined) ;;
    if truthy responseObj && is_function rtext then call rtext
    else
      outputText <- get r (str "outputText") ;;
      if is_string outputText then Normal outputText
      else
        rr_response <- get_opt r (str "response") ;;
        nested <- get_opt rr_response (str "candidates") ;;
        candidates <- (if truthy nested then Normal nested
                       else get_opt r (str "candidates")) ;;
        found <- from_candidates candidates ;;
        match found with
        | Some v => Normal v
        | None =>
            contentObj <- (if is_obj then get r (str "content")
                           else Normal VUndefined) ;;
            parts2 <- get_opt contentObj (str "parts") ;;
            let joined := match parts2 with
                          | VArray ps => joined_parts ps
                          | _ => []
                          end in
            if non_empty joined then Normal (VString joined)
            else if is_string resp then Normal resp
            else JSON_stringify resp
        end.

(** [extractText]: whatever the [try] block throws is replaced by
    [String(resp)]. *)
Definition extractText (resp : value) : comp value :=
  try_catch (extractText_try resp)
            (fun _ => s <- to_string resp ;; Normal (VString s)).

Definition NON_JSON : string := "Model returned non-JSON output".
Definition NO_TITLES : string := "No titles produced".
Definition MODEL : string := "gemini-2.5-flash".

(** Lines 236-254: the payload goes through the normalizer. *)
Definition respond_titles (parsed : value) : comp response :=
  titles <- normalizeTitlesFromJson parsed ;;
  match titles with
  | [] =>
      Normal {| status := 502; headers := corsHeaders;
                content := error_raw_body NO_TITLES parsed |}
  | _ =>
      Normal {| status := 200; headers := corsHeaders;
                content :=
                  JsonBody
                    (VObject
                       [(str "titles", VArray (map VString titles));
                        (str "meta",
                         VObject
                           [(str "count",
                             VNumber (number_of_nat (length titles)));
                            (str "maxLength", VNumber (number_of_nat 45));
                            (str "model", VString (str MODEL))])]) |}
  end.

Definition non_json_response (rawText : value) : response :=
  {| status := 502; headers := corsHeaders;
     content := error_raw_body NON_JSON rawText |}.

(** Lines 225-254: from the service's response to the handler's. *)
Definition respond (resp : value) : comp response :=
  rawText <- extractText resp ;;
  stripped <- stripCodeFences rawText ;;
  let parsed := decode stripped rawText in
  if negb (truthy parsed) then Normal (non_json_response rawText)
  else respond_titles parsed.

(** The [catch] clause, lines 255-261. *)
Definition on_error (err : value) : comp response :=
  message <- (if truthy err && typeof_object err
                 && match err with
                    | VObject props => has_own (str "message") props
                    | _ => false
                    end
              then m <- get err (str "message") ;; to_string m
              else Normal (str "Unexpected error")) ;;
  Normal {| status := 500; headers := corsHeaders;
            content := error_body (VString message) |}.

(** The four request fields as lines 116-120 type them. *)
Definition string_field (raw : value) (k : string) : value :=
  match get raw (str k) with
  | Normal (VString s) => VString s
  | _ => VUndefined
  end.

Definition keywords_field (raw : value) : value :=
  match get raw (str "keywords") with
  | Normal (VArray items) => VArray (filter is_string items)
  | _ => VUndefined
  end.

Record fields : Type := {
  description : value;
  keywords : value;
  niche : value;
  language : value
}.

Definition request_fields (body : value) : fields :=
  let raw := if truthy body && typeof_object body then body else VObject [] in
  {| description := string_field raw "description";
     keywords := keywords_field raw;
     niche := string_field raw "niche";
     language := string_field raw "language" |}.

(** [POST]: the response, or what escapes the handler, and the prompts
    sent to the generation service. *)
Definition POST (h : host) (req_body : jsstring)
  : comp response * list jsstring :=
  let f := request_fields (request_json req_body) in
  if api_key_missing h then
    (Normal {| status := 500; headers := corsHeaders;
               content := error_body (VString MISSING_KEY) |}, [])
  else
    match buildUserPrompt (description f) (keywords f) (niche f) (language f)
    with
    | Throw e => (on_error e, [])
    | Normal prompt =>
        (try_catch (resp <- generateContent h prompt ;; respond resp)
                   on_error,
         [prompt])
    end.

(** The request gets as far as line 225 with [rawText] the string
    [raw]: the key is there, the service answers, and the extractor
    returns [raw]. *)
Definition reaches_decode (h : host) (req_body raw : jsstring) : Prop :=
  let f := request_fields (request_json req_body) in
  api_key_missing h = false /\
  exists prompt resp,
    buildUserPrompt (description f) (keywords f) (niche f) (language f)
      = Normal prompt /\
    generateContent h prompt = Normal resp /\
    extractText resp = Normal (VString raw).

End Route.
End Public.

(* ================================================================== *)
(** * The internal endpoint: [src/app/api/suggest/route.ts] *)
(* ================================================================== *)

Module Suggest.
Section Route.

Context {NM : NumberModel}.

(** [parts.map((p) => p?.text || "").filter(Boolean).join("\n")] *)
Definition joined_parts (parts : list value) : comp jsstring :=
  texts <- map_c (fun p => or_lazy (get_opt p (str "text"))
                                   (Normal (VString [])))
                 parts ;;
  join_values [LF] (filter truthy texts).

(** Lines 130-138: the [candidates] strategy.  [None]: the function
    goes on to the next strategy. *)
Definition from_candidates (candidates : value) : comp (option value) :=
  match candidates with
  | VArray (first :: _) =>
      content <- get_opt first (str "content") ;;
      parts <- get_opt content (str "parts") ;;
      joined <- match parts with
                | VArray ps => joined_parts ps
                | _ => Normal []
                end ;;
      if non_empty joined then Normal (Some (VString joined))
      else
        textField <- or_lazy (get_opt content (str "text"))
                             (get_opt first (str "text")) ;;
        match textField with
        | VString t =>
            if non_empty (trim t) then Normal (Some textField)
            else Normal None
        | _ => Normal None
        end
  | _ => Normal None
  end.

(** The body of the [try] block of [extractText], lines 119-146. *)
Definition extractText_try (resp : value) : comp value :=
  text <- (if truthy resp then get resp (str "text") else Normal VUndefined) ;;
  if truthy resp && is_function text then call text
  else
    response <- get_opt resp (str "response") ;;
    rtext <- (if truthy response then get response (str "text")
              else Normal VUndefined) ;;
    if truthy response && is_function rtext then call rtext
    else
      outputText <- get_opt resp (str "outputText") ;;
      if is_string outputText then Normal outputText
      else
        r1 <- get_opt resp (str "response") ;;
        nested <- get_opt r1 (str "candidates") ;;
        candidates <- (if truthy nested then Normal nested
                       else get_opt resp (str "candidates")) ;;
        found <- from_candidates candidates ;;
        match found with
        | Some v => Normal v
        | None =>
            content <- get_opt resp (str "content") ;;
            parts <- get_opt content (str "parts") ;;
            joined <- match parts with
                      | VArray ps => joined_parts ps
                      | _ => Normal []
                      end ;;
            if non_empty joined then Normal (VString joined)
            else if is_string resp then Normal resp
            else JSON_stringify resp
        end.

(** [extractText] *)
Definition extractText (resp : value) : comp value :=
  try_catch (extractText_try resp)
            (fun _ => s <- to_string resp ;; Normal (VString s)).

(** Lines 172-181.  [console.log] leaves no trace in the response. *)
Definition respond (resp : value) : comp response :=
  text <- extractText resp ;;
  stripped <- stripCodeFences text ;;
  let parsed := decode stripped text in
  match parsed with
  | VNull =>
      Normal {| status := 200;
                headers := [(str "Content-Type",
                             str "text/plain; charset=utf-8")];
                content := TextBody text |}
  | _ => Normal {| status := 200; headers := []; content := JsonBody parsed |}
  end.

(** The [catch] clause, line 183: [err?.message || "Unexpected error"]. *)
Definition on_error (err : value) : comp response :=
  message <- or_lazy (get_opt err (str "message"))
                     (Normal (VString (str "Unexpected error"))) ;;
  Normal {| status := 500; headers := []; content := error_body message |}.

(** [const { description, keywords, niche, language } = body || {}] *)
Definition field (body : value) (k : string) : value :=
  let src := if truthy body then body else VObject [] in
  match get src (str k) with
  | Normal v => v
  | Throw _ => VUndefined
  end.

(** [POST]: the response, or what escapes the handler, and the prompts
    sent to the generation service. *)
Definition POST (h : host) (req_body : jsstring)
  : comp response * list jsstring :=
  let body := request_json req_body in
  if api_key_missing h then
    (Normal {| status := 500; headers := [];
               content := error_body (VString MISSING_KEY) |}, [])
  else
    match buildUserPrompt (field body "description") (field body "keywords")
                          (field body "niche") (field body "language")
    with
    | Throw e => (on_error e, [])
    | Normal prompt =>
        (try_catch (resp <- generateContent h prompt ;; respond resp)
                   on_error,
         [prompt])
    end.

(** The request gets as far as line 172 with [text] a string. *)
Definition reaches_decode (h : host) (req_body text : jsstring) : Prop :=
  let body := request_json req_body in
  api_key_missing h = false /\
  exists prompt resp,
    buildUserPrompt (field body "description") (field body "keywords")
                    (field body "niche") (field body "language")
      = Normal prompt /\
    generateContent h prompt = Normal resp /\
    extractText resp = Normal (VString text).

End Route.
End Suggest.

(* ================================================================== *)
(** * The second copy of the public route: [src/unnamed/part_001] *)
(* ================================================================== *)

Module Part001.
Section Route.

Context {NM : NumberModel}.

(** [x.trim()] on an arbitrary value: only strings inherit the method;
    an object may carry a callable own property of that name. *)
Definition trim_method (x : value) : comp value :=
  match x with
  | VString t => Normal (VString (trim t))
  | VUndefined | VNull =>
      throw_type_error "Cannot read properties of undefined or null"
  | VObject props =>
      match lookup (str "trim") props with
      | Some m => call m
      | None => throw_type_error "trim is not a function"
      end
  | VBool _ | VNumber _ | VArray _ | VFunction _ _ _ =>
      throw_type_error "trim is not a function"
  end.

(** [s?.title || s?.text || s?.suggestion] *)
Definition title_field (s : value) : comp value :=
  or_lazy (or_lazy (get_opt s (str "title")) (get_opt s (str "text")))
          (get_opt s (str "suggestion")).

(** The callback of [src.map], line 86. *)
Definition element_title (s : value) : comp value :=
  match s with
  | VString t => Normal (VString (trim t))
  | _ =>
      x <- or_lazy (title_field s) (t <- to_string s ;; Normal (VString t)) ;;
      trim_method x
  end.

(** The value of [titles] at line 90. *)
Definition title_candidates (json : value) : comp (list value) :=
  src <- coalesce_lazy (get_opt json (str "titles"))
                       (get_opt json (str "suggestions")) ;;
  match src with
  | VString s =>
      Normal (map VString (filter non_empty (map trim (split COMMA s))))
  | VArray items => map_c element_title items
  | _ =>
      if truthy src && typeof_object src then
        maybe <- title_field src ;;
        match maybe with
        | VString t => Normal [VString (trim t)]
        | _ => Normal []
        end
      else Normal []
  end.

(** [String(t).trim()] *)
Definition string_trim (t : value) : comp jsstring :=
  s <- to_string t ;; Normal (trim s).

(** [normalizeTitlesFromJson] *)
Definition normalizeTitlesFromJson (json : value) : comp (list jsstring) :=
  titles <- title_candidates json ;;
  ts <- map_c string_trim titles ;;
  Normal (array_from_set (map clip (filter non_empty ts))).

End Route.
End Part001.

(* ================================================================== *)
(** * Where the two normalizers meet *)
(* ================================================================== *)

Section Agreement.

Context {NM : NumberModel}.

(** The object offers a title: the first of its [title], [text] and
    [suggestion] properties that is neither [undefined] nor [null] is a
    non-empty string. *)
Definition offers_title (s : value) : bool :=
  match Public.title_field s with
  | Normal (VString (_ :: _)) => true
  | _ => false
  end.

(** An array element on which both callbacks do the same: anything but
    an array, and among objects those that offer a title. *)
Definition agreeing_element (s : value) : bool :=
  match s with
  | VArray _ => false
  | VObject _ => offers_title s
  | _ => true
  end.

(** A titles source on which both normalizers do the same. *)
Definition agreeing_source (src : value) : bool :=
  match src with
  | VArray items => forallb agreeing_element items
  | VObject _ => offers_title src
  | _ => true
  end.

(** [v] is a plain object, what a JSON text in braces decodes to. *)
Definition is_plain_object (v : value) : bool :=
  match v with VObject _ => true | _ => false end.

End Agreement.

(* ================================================================== *)
(** * Payloads, texts and hosts for the examples *)
(* ================================================================== *)

Section Fixtures.

Context {NM : NumberModel}.

(** An ASCII literal between quotation marks. *)
Definition quoted (s : string) : jsstring := QUOTE :: str s ++ [QUOTE].

(** The JSON text of the payload whose titles are One and Two, and the
    same text in a Markdown fence. *)
Definition one_two_text : jsstring :=
  str "{" ++ quoted "titles" ++ str ":" ++ quoted "One, Two" ++ str "}".

Definition fenced_one_two_text : jsstring :=
  FENCE ++ str "json" ++ [LF] ++ one_two_text ++ [LF] ++ FENCE.

(** The payload [{"titles": "A, B, B, C"}], and a payload whose only
    title sits under a property that is none of [title], [text] and
    [suggestion]. *)
Definition abbc_payload : value :=
  VObject [(str "titles", VString (str "A, B, B, C"))].

Definition named_payload : value :=
  VObject [(str "titles", VArray [VObject [(str "name", VString (str "x"))]])].

(** A host without key. *)
Definition keyless_host : host :=
  {| GEMINI_API_KEY := None; generateContent := fun _ => Normal VNull |}.

(** A host with a key whose service always answers with the same
    value. *)
Definition constant_host (answer : value) : host :=
  {| GEMINI_API_KEY := Some (str "key");
     generateContent := fun _ => Normal answer |}.

(** The payload of the second shape scenario: strings and objects
    with a title-like property. *)
Definition mixed_payload : value :=
  VObject
    [(str "titles",
      VArray [VString (str "X");
              VObject [(str "title", VString (str "Y"))];
              VObject [(str "text", VString (str "Z"))]])].

(** Sixty times the letter x, as one title. *)
Definition long_payload : value :=
  VObject [(str "titles", VArray [VString (repeat 120%N 60)])].

End Fixtures.

(* ================================================================== *)
(** * Kinds of values and of completions *)
(* ================================================================== *)

Section Kinds.

Context {NM : NumberModel}.

(** A JSON value that is truthy and has no [trim] method. *)
Definition truthy_without_trim (x : value) : bool :=
  match x with
  | VBool b => b
  | VNumber n => negb (number_is_falsy n)
  | VArray _ => true
  | VObject props => negb (has_own (str "trim") props)
  | _ => false
  end.

(** A value on which [replace] cannot be called. *)
Definition lacks_replace (x : value) : bool :=
  match x with
  | VString _ | VObject _ => false
  | _ => true
  end.

(** A value without functions: data all the way down. *)
Fixpoint function_free (v : value) : bool :=
  match v with
  | VFunction _ _ _ => false
  | VArray items => forallb function_free items
  | VObject props => forallb (fun kv => function_free (snd kv)) props
  | _ => true
  end.

(** The completion returns a string, if it returns. *)
Definition string_result (c : comp value) : Prop :=
  match c with
  | Normal (VString _) => True
  | Normal _ => False
  | Throw _ => True
  end.

(** Parser states that hold no function. *)
Definition props_data (props : list (jsstring * value)) : bool :=
  forallb (fun kv => function_free (snd kv)) props.

Definition frame_data (f : frame) : bool :=
  match f with
  | FArray items => forallb function_free items
  | FObject props => props_data props
  | FMember props _ => props_data props
  end.

Definition state_data (st : list frame * expect) : bool :=
  forallb frame_data (fst st)
  && match snd st with
     | EEnd v => function_free v
     | _ => true
     end.

(** The completion throws nothing but error objects. *)
Definition benign {A : Type} (c : comp A) : Prop :=
  match c with
  | Normal _ => True
  | Throw e => exists m, e = error_object m
  end.

End Kinds.

(** One step through a [bind] in a goal about [string_result]. *)
Ltac bind_step :=
  match goal with
  | |- string_result (bind ?c _) =>
      let E := fresh "E" in
      destruct c eqn:E; cbn [bind]; [|exact I]
  end.

Section MoreFixtures.

Context {NM : NumberModel}.

(** A host with a key whose service rejects every call with the same
    value. *)
Definition failing_host (e : value) : host :=
  {| GEMINI_API_KEY := Some (str "key");
     generateContent := fun _ => Throw e |}.

End MoreFixtures.

(* ================================================================== *)
(** * The page: [src/unnamed/part_000] *)
(* ================================================================== *)

Module Page.
Section Home.

Context {NM : NumberModel}.

(** The text of the message of the [SyntaxError] that [res.json()]
    rejects with on a body that is no JSON text; the engine words it. *)
Variable syntax_message : jsstring -> jsstring.

(** The response of [fetch] as far as the page reads it: [res.ok],
    [res.headers.get("content-type")] and the text of the body. *)
Record fetched : Type := {
  ok : bool;
  content_type : option jsstring;
  payload : jsstring
}.

(** The four pieces of state that [onSubmit] sets. *)
Record state : Type := {
  loading : bool;
  error : value;             (* a string or [null] *)
  rawResponse : value;       (* anything, [null] for none *)
  titles : list value
}.

Definition setError (e : value) (s : state) : state :=
  {| loading := loading s; error := e;
     rawResponse := rawResponse s; titles := titles s |}.

Definition setLoading (b : bool) (s : state) : state :=
  {| loading := b; error := error s;
     rawResponse := rawResponse s; titles := titles s |}.

Definition setRawResponse (r : value) (s : state) : state :=
  {| loading := loading s; error := error s;
     rawResponse := r; titles := titles s |}.

Definition setTitles (t : list value) (s : state) : state :=
  {| loading := loading s; error := error s;
     rawResponse := rawResponse s; titles := t |}.

(** [hay.includes(needle)] *)
Fixpoint includes (needle hay : jsstring) {struct hay} : bool :=
  match strip_prefix needle hay with
  | Some _ => true
  | None =>
      match hay with
      | [] => false
      | _ :: r => includes needle r
      end
  end.

(** [keywords.split(",").map((k) => k.trim()).filter(Boolean)] *)
Definition keyword_list (keywords : jsstring) : list jsstring :=
  filter non_empty (map trim (split COMMA keywords)).

(** The argument of [JSON.stringify], lines 46-54. *)
Definition request_object (description keywords niche language : jsstring)
  : value :=
  VObject
    [(str "description", VString description);
     (str "keywords", VArray (map VString (keyword_list keywords)));
     (str "niche", or_else (VString niche) VUndefined);
     (str "language", or_else (VString language) VUndefined)].

(** [throw new Error(x)] for a defined [x]: the message is
    [String(x)]. *)
Definition throw_new_Error {A : Type} (x : value) : comp A :=
  m <- to_string x ;; Throw (error_object m).

(** The callback of [map] at line 70. *)
Definition element_title (s : value) : comp value :=
  match s with
  | VString t => Normal (VString (trim t))
  | _ =>
      x <- or_lazy (Part001.title_field s)
                   (t <- to_string s ;; Normal (VString t)) ;;
      Part001.trim_method x
  end.

(** Lines 61-75: one of the two setters is called, or something is
    thrown. *)
Definition show_json (data : value) (s : state) : comp state :=
  titlesField <- (if truthy data
                  then coalesce_lazy (get data (str "titles"))
                                     (get data (str "suggestions"))
                  else Normal data) ;;
  match titlesField with
  | VString t =>
      Normal (setTitles
                (map VString (filter non_empty (map trim (split COMMA t)))) s)
  | VArray items =>
      arr <- map_c element_title items ;;
      Normal (setTitles (filter truthy arr) s)
  | _ => Normal (setRawResponse data s)
  end.

(** Lines 56-80: the body of [try] from the response on. *)
Definition read_response (res : fetched) (s : state) : comp state :=
  let contentType := match content_type res with
                     | Some c => c
                     | None => []
                     end in
  if includes (str "application/json") contentType then
    match JSON_parse (payload res) with
    | None => Throw (error_object (syntax_message (payload res)))
    | Some data =>
        if negb (ok res) then
          x <- or_lazy (get_opt data (str "error"))
                       (Normal (VString (str "Request failed"))) ;;
          throw_new_Error x
        else show_json data s
    end
  else
    if negb (ok res) then
      throw_new_Error (or_else (VString (payload res))
                               (VString (str "Request failed")))
    else Normal (setRawResponse (VString (payload res)) s).

(** [onSubmit], lines 36-86, run from the state [s0] against a server:
    [fetch] maps the body of the request to the response, or throws
    what the promise rejects with. *)
Definition onSubmit (fetch : value -> comp fetched)
  (description keywords niche language : jsstring) (s0 : state)
  : comp state :=
  let s1 := setTitles [] (setRawResponse VNull
              (setLoading true (setError VNull s0))) in
  s2 <- try_catch
          (body <- JSON_stringify
                     (request_object description keywords niche language) ;;
           res <- fetch body ;;
           read_response res s1)
          (fun err =>
             m <- or_lazy (get_opt err (str "message"))
                          (Normal (VString (str "Unexpected error"))) ;;
             Normal (setError m s1)) ;;
  Normal (setLoading false s2).

(** What the page renders of the state, lines 151, 158 and 205: the
    error, the list of titles, the raw response. *)
Definition shows_error (s : state) : bool := truthy (error s).

Definition shows_titles (s : state) : bool :=
  match titles s with [] => false | _ => true end.

Definition shows_raw (s : state) : bool :=
  match titles s with
  | [] => negb (match rawResponse s with VNull => true | _ => false end)
  | _ => false
  end.

End Home.
End Page.

(* ================================================================== *)
(** * The page against the internal endpoint *)
(* ================================================================== *)

Section Served.

Context {NM : NumberModel}.

(** The conversion of a string to a sequence of scalar values, which a
    request or response body given as a string goes through: every
    unpaired surrogate becomes U+FFFD. *)
Fixpoint to_well_formed (s : jsstring) : jsstring :=
  match s with
  | [] => []
  | c :: r =>
      if is_lead_surrogate c then
        match r with
        | d :: r' =>
            if is_trail_surrogate d then c :: d :: to_well_formed r'
            else 65533%N :: to_well_formed r
        | [] => [65533%N]
        end
      else if is_trail_surrogate c then 65533%N :: to_well_formed r
      else c :: to_well_formed r
  end.

(** Reading a body as text ([res.text()], [res.json()], [req.json()])
    decodes it as UTF-8, which drops one leading byte order mark
    U+FEFF. *)
Definition without_bom (s : jsstring) : jsstring :=
  match s with
  | c :: r => if N.eqb c 65279 then r else s
  | [] => []
  end.

(** [headers.get(name)], [name] in lower case: header names compare
    modulo ASCII case, and the values of one name are joined. *)
Definition header_get (name : jsstring) (hs : list (jsstring * jsstring))
  : option jsstring :=
  match filter (fun kv => JsString.eqb (map to_lower_ascii (fst kv)) name) hs
  with
  | [] => None
  | found => Some (join (str ", ") (map snd found))
  end.

(** [res.ok] *)
Definition status_ok (n : nat) : bool := (200 <=? n) && (n <=? 299).

(** The response the client receives for what a handler returns, its
    body as the client decodes it.  [NextResponse.json] serializes its
    argument and, unless the headers say otherwise, declares it
    [application/json]; a body given as a string is sent as scalar
    values, declared [text/plain;charset=UTF-8] unless the headers say
    otherwise, and read without a leading byte order mark.  A
    serialization starts with no byte order mark. *)
Definition deliver (r : response) : comp Page.fetched :=
  let declared := header_get (str "content-type") (headers r) in
  match content r with
  | JsonBody data =>
      t <- JSON_stringify data ;;
      match t with
      | VString s =>
          Normal {| Page.ok := status_ok (status r);
                    Page.content_type :=
                      Some (match declared with
                            | Some c => c
                            | None => str "application/json"
                            end);
                    Page.payload := s |}
      | _ => throw_type_error "Value is not JSON serializable"
      end
  | TextBody text =>
      if nullish text then
        Normal {| Page.ok := status_ok (status r);
                  Page.content_type := declared;
                  Page.payload := [] |}
      else
        s <- to_string text ;;
        Normal {| Page.ok := status_ok (status r);
                  Page.content_type :=
                    Some (match declared with
                          | Some c => c
                          | None => str "text/plain;charset=UTF-8"
                          end);
                  Page.payload := without_bom (to_well_formed s) |}
  | NoBody =>
      Normal {| Page.ok := status_ok (status r);
                Page.content_type := declared;
                Page.payload := [] |}
  end.

(** [fetch("/api/suggest", { method: "POST", body })] against the
    internal endpoint on host [h], which reads the body as text. *)
Definition serve (h : host) (body : value) : comp Page.fetched :=
  text <- (if nullish body then Normal []
           else s <- to_string body ;;
                Normal (without_bom (to_well_formed s))) ;;
  r <- fst (Suggest.POST h text) ;;
  deliver r.

End Served.

(* ================================================================== *)
(** * JSON values without numbers *)
(* ================================================================== *)

Section PlainValues.

Context {NM : NumberModel}.

(** The JSON values in which no number occurs; the texts that
    [JSON.stringify] writes for them are followed through [JSON.parse]
    below. *)
Inductive plain : Type :=
| PNull
| PBool (b : bool)
| PString (s : jsstring)
| PArray (items : list plain)
| PObject (members : list (jsstring * plain)).

Fixpoint value_of (p : plain) : value :=
  match p with
  | PNull => VNull
  | PBool b => VBool b
  | PString s => VString s
  | PArray items => VArray (map value_of items)
  | PObject members =>
      VObject (map (fun kp => (fst kp, value_of (snd kp))) members)
  end.

(** The keys are pairwise different and none is an array index, so
    that the properties keep the order in which they were written. *)
Fixpoint simple_keys (ks : list jsstring) : bool :=
  match ks with
  | [] => true
  | k :: r =>
      negb (existsb (JsString.eqb k) r)
      && match array_index k with None => true | Some _ => false end
      && simple_keys r
  end.

Fixpoint simple (p : plain) : bool :=
  match p with
  | PArray items => forallb simple items
  | PObject members =>
      simple_keys (map fst members)
      && forallb (fun kp => simple (snd kp)) members
  | _ => true
  end.

(** The JSON text of a value, as [JSON.stringify] writes it without
    indentation, and its tokens. *)
Fixpoint text_of (p : plain) : jsstring :=
  match p with
  | PNull => str "null"
  | PBool b => if b then str "true" else str "false"
  | PString s => quote_json_string s
  | PArray items => str "[" ++ join [COMMA] (map text_of items) ++ str "]"
  | PObject members =>
      str "{"
      ++ join [COMMA]
           (map (fun kp => quote_json_string (fst kp) ++ str ":"
                           ++ text_of (snd kp)) members)
      ++ str "}"
  end.

Definition separated (groups : list (list token)) : list token :=
  match groups with
  | [] => []
  | g :: r => g ++ flat_map (fun g' => TComma :: g') r
  end.

Fixpoint tokens_of (p : plain) : list token :=
  match p with
  | PNull => [TNull]
  | PBool b => [if b then TTrue else TFalse]
  | PString s => [TString s]
  | PArray items =>
      TLBracket :: separated (map tokens_of items) ++ [TRBracket]
  | PObject members =>
      TLBrace
      :: separated (map (fun kp => TString (fst kp) :: TColon
                                   :: tokens_of (snd kp)) members)
      ++ [TRBrace]
  end.

(** What the parser does with the tokens of a value where a value may
    start. *)
Definition parses (p : plain) : Prop :=
  forall (stack : list frame) (rest : list token),
    parse_tokens (tokens_of p ++ rest) (stack, EValue)
    = match complete (value_of p) stack with
      | Some st' => parse_tokens rest st'
      | None => None
      end.

(** No code unit of the string is a surrogate. *)
Definition no_surrogate (s : jsstring) : bool :=
  forallb (fun c => negb (is_lead_surrogate c || is_trail_surrogate c)) s.

End PlainValues.

Section PlainInduction.

Variable P : plain -> Prop.
Hypothesis Hnull : P PNull.
Hypothesis Hbool : forall b, P (PBool b).
Hypothesis Hstring : forall s, P (PString s).
Hypothesis Harray : forall items, Forall P items -> P (PArray items).
Hypothesis Hobject :
  forall members, Forall (fun kp => P (snd kp)) members -> P (PObject members).

(** Induction on plain values, with the hypothesis for every element
    of an array and every member of an object. *)
Fixpoint plain_induction (p : plain) : P p :=
  match p with
  | PNull => Hnull
  | PBool b => Hbool b
  | PString s => Hstring s
  | PArray items =>
      Harray items
        ((fix all (l : list plain) : Forall P l :=
            match l with
            | [] => Forall_nil P
            | x :: r => Forall_cons x (plain_induction x) (all r)
            end) items)
  | PObject members =>
      Hobject members
        ((fix all (l : list (jsstring * plain))
            : Forall (fun kp => P (snd kp)) l :=
            match l with
            | [] => Forall_nil _
            | kp :: r =>
                Forall_cons kp (plain_induction (snd kp)) (all r)
            end) members)
  end.

End PlainInduction.

Section Exchange.

Context {NM : NumberModel}.

(** The request object without the members that [JSON.stringify]
    leaves out: an [undefined] niche or language. *)
Definition request_plain (description keywords niche language : jsstring)
  : plain :=
  PObject
    ([(str "description", PString description);
      (str "keywords", PArray (map PString (Page.keyword_list keywords)))]
     ++ (if non_empty niche then [(str "niche", PString niche)] else [])
     ++ (if non_empty language then [(str "language", PString language)]
         else [])).

(** The text of the request body. *)
Definition request_text (description keywords niche language : jsstring)
  : jsstring :=
  text_of (request_plain description keywords niche language).

(** The prompt for a description, a list of keywords, a niche and a
    language given as strings, line by line. *)
Definition form_prompt (description : jsstring) (keywords : list jsstring)
  (niche language : jsstring) : jsstring :=
  join [LF]
    ((if non_empty description
      then [str "Description: " ++ description] else [])
     ++ match keywords with
        | [] => []
        | _ => [str "Keywords: " ++ join (str ", ") keywords]
        end
     ++ (if non_empty niche then [str "Niche: " ++ niche] else [])
     ++ (if non_empty language then [str "Language: " ++ language] else [])
     ++ [str "Respond in JSON only, no extra text.";
         str "All titles must be <= 45 characters each."]).

(** The state in which [onSubmit] leaves the page. *)
Definition settled (error rawResponse : value) (titles : list value)
  : Page.state :=
  {| Page.loading := false; Page.error := error;
     Page.rawResponse := rawResponse; Page.titles := titles |}.

End Exchange.

(* ================================================================== *)
(** * The source of the titles and its order *)
(* ================================================================== *)

Section SourceOrder.

Context {NM : NumberModel}.

(** The field of the payload the titles are read from: [titles],
    falling back to [suggestions] when [titles] is absent or null.
    Only an object has fields. *)
Definition source_field (json : value) : option value :=
  match json with
  | VObject props =>
      match lookup (str "titles") props with
      | Some v =>
          if nullish v then lookup (str "suggestions") props else Some v
      | None => lookup (str "suggestions") props
      end
  | _ => None
  end.

(** The title a segment of a string source, or a string of an array
    source, becomes, and the title an element of an array source
    becomes: what the element offers, trimmed and cut. *)
Definition segment_becomes (seg t : jsstring) : Prop :=
  Public.title_of seg = Some t.

Definition element_becomes (x : value) (t : jsstring) : Prop :=
  exists c, Public.element_title x = Normal c /\ Public.title_of c = Some t.

(** [L] holds the titles that the positions of [source] become, and
    holds them in the order of their first occurrences in [source]:
    when [a] stands before [b] in [L], the first position that becomes
    [a] stands before every position that becomes [b]. *)
Definition first_occurrences {A : Type} (becomes : A -> jsstring -> Prop)
  (source : list A) (L : list jsstring) : Prop :=
  (forall t, In t L <-> exists x, In x source /\ becomes x t) /\
  forall l1 a l2 b l3,
    L = l1 ++ a :: l2 ++ b :: l3 ->
    exists s1 x s2,
      source = s1 ++ x :: s2 /\ becomes x a /\
      (forall y, In y s1 -> ~ becomes y a /\ ~ becomes y b) /\
      exists z, In z s2 /\ becomes z b.

(** The segments of a string source that are kept, in the spec's
    words: each segment is trimmed, and the blank ones are discarded.
    A segment that is kept is white space, then a non-empty string
    without white space at either end, then white space. *)
Inductive kept_segments : list jsstring -> list jsstring -> Prop :=
| kept_nil : kept_segments [] []
| kept_blank (seg : jsstring) (segs cs : list jsstring) :
    all_whitespace seg = true ->
    kept_segments segs cs ->
    kept_segments (seg :: segs) cs
| kept_title (before c after : jsstring) (segs cs : list jsstring) :
    all_whitespace before = true ->
    all_whitespace after = true ->
    c <> [] -> trimmed c ->
    kept_segments segs cs ->
    kept_segments ((before ++ c ++ after) :: segs) (c :: cs).

End SourceOrder.

(* ================================================================== *)
(** * Facts about strings *)
(* ================================================================== *)

Module StringFacts.

Lemma eqb_eq (a b : jsstring) : JsString.eqb a b = true <-> a = b.
Proof.
  revert b. induction a as [|x a IH]; intros [|y b]; simpl;
    try (split; [discriminate | discriminate]); try tauto.
  rewrite andb_true_iff, N.eqb_eq, IH. split.
  - intros [-> ->]. reflexivity.
  - intros E. injection E as -> ->. auto.
Qed.

Lemma eqb_refl (a : jsstring) : JsString.eqb a a = true.
Proof. now apply eqb_eq. Qed.

Lemma eqb_neq (a b : jsstring) : JsString.eqb a b = false <-> a <> b.
Proof.
  destruct (JsString.eqb a b) eqn:E.
  - apply eqb_eq in E. split; [discriminate | contradiction].
  - split; [|reflexivity]. intros _ ->. rewrite eqb_refl in E. discriminate.
Qed.

Lemma trimStart_head (s : jsstring) c r :
  trimStart s = c :: r -> is_whitespace c = false.
Proof.
  induction s as [|a s IH]; simpl; [discriminate|].
  destruct (is_whitespace a) eqn:E; [exact IH|].
  intros H. injection H as -> _. exact E.
Qed.

Lemma trimStart_fix (s : jsstring) :
  (forall c r, s = c :: r -> is_whitespace c = false) -> trimStart s = s.
Proof.
  destruct s as [|a s]; simpl; [reflexivity|].
  intros H. now rewrite (H a s eq_refl).
Qed.

Lemma trimStart_length (s : jsstring) : length (trimStart s) <= length s.
Proof.
  induction s as [|a s IH]; simpl; [lia|].
  destruct (is_whitespace a); simpl; lia.
Qed.

Lemma trimStart_snoc (s : jsstring) c :
  is_whitespace c = false -> trimStart (s ++ [c]) = trimStart s ++ [c].
Proof.
  intros Hc. induction s as [|a s IH]; simpl.
  - now rewrite Hc.
  - destruct (is_whitespace a); [exact IH | reflexivity].
Qed.

Lemma trimStart_idem (s : jsstring) : trimStart (trimStart s) = trimStart s.
Proof.
  apply trimStart_fix. intros c r H. exact (trimStart_head _ _ _ H).
Qed.

Lemma trimEnd_last (s : jsstring) c r :
  trimEnd s = r ++ [c] -> is_whitespace c = false.
Proof.
  unfold trimEnd. intros H.
  apply (f_equal (@rev _)) in H. rewrite rev_involutive, rev_app_distr in H.
  simpl in H. exact (trimStart_head _ _ _ H).
Qed.

Lemma trimEnd_cons (c : code_unit) (r : jsstring) :
  is_whitespace c = false -> trimEnd (c :: r) = c :: trimEnd r.
Proof.
  intros Hc. unfold trimEnd. simpl.
  rewrite trimStart_snoc by exact Hc.
  rewrite rev_app_distr. reflexivity.
Qed.

Lemma trimEnd_length (s : jsstring) : length (trimEnd s) <= length s.
Proof.
  unfold trimEnd. rewrite length_rev.
  pose proof (trimStart_length (rev s)) as H. now rewrite length_rev in H.
Qed.

Lemma trimEnd_fix (s : jsstring) :
  (forall c r, s = r ++ [c] -> is_whitespace c = false) -> trimEnd s = s.
Proof.
  intros H. unfold trimEnd. rewrite trimStart_fix.
  - apply rev_involutive.
  - intros c r E. apply (H c (rev r)).
    rewrite <- (rev_involutive s), E. reflexivity.
Qed.

(** [trim] leaves no white space at either end. *)
Lemma trim_trimmed (s : jsstring) : trimmed (trim s).
Proof.
  unfold trim. split.
  - intros c r H.
    destruct (trimStart s) as [|a t] eqn:E.
    + discriminate H.
    + pose proof (trimStart_head _ _ _ E) as Ha.
      rewrite (trimEnd_cons _ _ Ha) in H. injection H as <- _. exact Ha.
  - intros c r H. exact (trimEnd_last _ _ _ H).
Qed.

(** [trim] does nothing to a string that is already trimmed. *)
Lemma trim_fix (s : jsstring) : trimmed s -> trim s = s.
Proof.
  intros [H1 H2]. unfold trim. rewrite (trimStart_fix _ H1).
  exact (trimEnd_fix _ H2).
Qed.

Lemma trim_idem (s : jsstring) : trim (trim s) = trim s.
Proof. apply trim_fix, trim_trimmed. Qed.

Lemma trim_length (s : jsstring) : length (trim s) <= length s.
Proof.
  unfold trim. pose proof (trimEnd_length (trimStart s)).
  pose proof (trimStart_length s). lia.
Qed.

(** A string that starts with a character other than white space keeps
    it under [trim]. *)
Lemma trim_head (c : code_unit) (r : jsstring) :
  is_whitespace c = false -> exists r', trim (c :: r) = c :: r'.
Proof.
  intros Hc. unfold trim. simpl. rewrite Hc, (trimEnd_cons _ _ Hc).
  now exists (trimEnd r).
Qed.

Lemma trim_nil : trim [] = [].
Proof. reflexivity. Qed.

Lemma split_not_nil (sep : code_unit) (s : jsstring) :
  JsString.split sep s <> [].
Proof.
  destruct s as [|c s]; simpl; [discriminate|].
  destruct (c =? sep)%N; [discriminate|].
  destruct (JsString.split sep s); discriminate.
Qed.

Lemma join_cons (sep p : jsstring) (rest : list jsstring) :
  rest <> [] -> join sep (p :: rest) = p ++ sep ++ join sep rest.
Proof. destruct rest; [contradiction | reflexivity]. Qed.

(** [split] is inverted by [join], and no segment holds the separator. *)
Lemma split_join (sep : code_unit) (s : jsstring) :
  join [sep] (JsString.split sep s) = s.
Proof.
  induction s as [|c s IH]; [reflexivity|].
  pose proof (split_not_nil sep s) as Hne.
  cbn [JsString.split].
  destruct (N.eqb_spec c sep) as [->|Hc].
  - rewrite join_cons by assumption. rewrite IH. reflexivity.
  - destruct (JsString.split sep s) as [|seg segs] eqn:E; [contradiction|].
    destruct segs as [|seg' segs].
    + simpl in *. now rewrite IH.
    + rewrite join_cons by discriminate.
      rewrite join_cons in IH by discriminate.
      rewrite <- app_comm_cons, IH. reflexivity.
Qed.

Lemma split_no_separator (sep : code_unit) (s : jsstring) :
  forall seg, In seg (JsString.split sep s) -> ~ In sep seg.
Proof.
  induction s as [|c s IH]; simpl.
  - intros seg [<-|[]]. auto.
  - destruct (N.eqb_spec c sep) as [->|Hne].
    + intros seg [<-|H]; [auto | now apply IH].
    + destruct (JsString.split sep s) as [|seg0 segs] eqn:E.
      * intros seg [<-|[]]. intros [H|[]]. congruence.
      * intros seg [<-|H].
        -- intros [H|H]; [congruence|]. apply (IH seg0); simpl; auto.
        -- apply IH. simpl. auto.
Qed.

End StringFacts.
Import StringFacts.

Arguments JsString.trim : simpl never.

(* ================================================================== *)
(** * Facts about the last stage of the normalizer *)
(* ================================================================== *)

Module TitleFacts.

Lemma existsb_eqb_In (t : jsstring) (seen : list jsstring) :
  existsb (JsString.eqb t) seen = true <-> In t seen.
Proof.
  rewrite existsb_exists. split.
  - intros [x [Hx E]]. apply eqb_eq in E. now subst.
  - intros H. exists t. split; [exact H | apply eqb_refl].
Qed.

Lemma set_add_old (seen : list jsstring) (t : jsstring) :
  In t seen -> set_add seen t = seen.
Proof.
  intros H. unfold set_add.
  now rewrite (proj2 (existsb_eqb_In t seen) H).
Qed.

Lemma set_add_new (seen : list jsstring) (t : jsstring) :
  ~ In t seen -> set_add seen t = seen ++ [t].
Proof.
  intros H. unfold set_add.
  destruct (existsb (JsString.eqb t) seen) eqn:E; [|reflexivity].
  apply existsb_eqb_In in E. contradiction.
Qed.

Lemma array_from_set_snoc (l : list jsstring) (x : jsstring) :
  array_from_set (l ++ [x]) = set_add (array_from_set l) x.
Proof. unfold array_from_set. now rewrite fold_left_app. Qed.

Lemma array_from_set_In (l : list jsstring) (t : jsstring) :
  In t (array_from_set l) <-> In t l.
Proof.
  induction l as [|x l IH] using rev_ind; [reflexivity|].
  rewrite array_from_set_snoc, in_app_iff. simpl.
  destruct (in_dec (list_eq_dec N.eq_dec) x (array_from_set l)) as [Hin|Hout].
  - rewrite (set_add_old _ _ Hin). rewrite IH. split; [tauto|].
    intros [H|[<-|[]]]; [exact H | now apply IH].
  - rewrite (set_add_new _ _ Hout), in_app_iff. simpl. rewrite IH. tauto.
Qed.

Lemma array_from_set_NoDup (l : list jsstring) : NoDup (array_from_set l).
Proof.
  induction l as [|x l IH] using rev_ind; [constructor|].
  rewrite array_from_set_snoc.
  destruct (in_dec (list_eq_dec N.eq_dec) x (array_from_set l)) as [Hin|Hout].
  - now rewrite (set_add_old _ _ Hin).
  - rewrite (set_add_new _ _ Hout).
    apply NoDup_rev in IH. rewrite <- (rev_involutive (_ ++ _)).
    apply NoDup_rev. rewrite rev_app_distr. simpl. constructor; [|exact IH].
    now rewrite <- in_rev.
Qed.

(** A list without repetition goes through a Set unchanged. *)
Lemma array_from_set_fix (l : list jsstring) :
  NoDup l -> array_from_set l = l.
Proof.
  induction l as [|x l IH] using rev_ind; [reflexivity|].
  intros H. rewrite array_from_set_snoc.
  assert (NoDup l /\ ~ In x l) as [Hl Hx].
  { apply NoDup_rev in H. rewrite rev_app_distr in H. simpl in H.
    inversion H as [|? ? Hn Hd]; subst. split.
    - apply NoDup_rev in Hd. now rewrite rev_involutive in Hd.
    - now rewrite in_rev. }
  rewrite (IH Hl). now apply set_add_new.
Qed.

Lemma in_split_first (a : jsstring) (l : list jsstring) :
  In a l -> exists p1 p2, l = p1 ++ a :: p2 /\ ~ In a p1.
Proof.
  induction l as [|x l IH]; [intros []|].
  intros H. destruct (list_eq_dec N.eq_dec x a) as [->|Hne].
  - exists [], l. auto.
  - destruct H as [H|H]; [contradiction|].
    destruct (IH H) as (p1 & p2 & -> & Hn).
    exists (x :: p1), p2. split; [reflexivity|].
    intros [E|E]; [contradiction | now apply Hn].
Qed.

(** The members come out in the order of their first occurrences:
    when [a] comes before [b] in the result, the first [a] of the input
    comes before every [b]. *)
Lemma array_from_set_order (l l1 l2 l3 : list jsstring) (a b : jsstring) :
  array_from_set l = l1 ++ a :: l2 ++ b :: l3 ->
  exists p1 p2, l = p1 ++ a :: p2 /\ ~ In a p1 /\ ~ In b p1 /\ In b p2.
Proof.
  revert l1 l2 l3. induction l as [|x l IH] using rev_ind; intros l1 l2 l3 H.
  - destruct l1; discriminate H.
  - rewrite array_from_set_snoc in H.
    destruct (in_dec (list_eq_dec N.eq_dec) x (array_from_set l)) as [Hin|Hout].
    + rewrite (set_add_old _ _ Hin) in H.
      destruct (IH _ _ _ H) as (p1 & p2 & -> & Ha & Hb & Hp).
      exists p1, (p2 ++ [x]). rewrite <- app_assoc. simpl.
      repeat split; auto. apply in_app_iff. now left.
    + rewrite (set_add_new _ _ Hout) in H.
      destruct l3 as [|y l3 _] using rev_ind.
      * (* [b] is the new member *)
        replace (l1 ++ a :: l2 ++ [b]) with ((l1 ++ a :: l2) ++ [b]) in H
          by (rewrite <- app_assoc; reflexivity).
        apply app_inj_tail in H. destruct H as [H ->].
        assert (Hb : ~ In b l) by (now rewrite <- array_from_set_In).
        assert (Ha : In a l).
        { apply array_from_set_In. rewrite H. apply in_app_iff.
          right. now left. }
        destruct (in_split_first a l Ha) as (p1 & p2 & -> & Hn).
        exists p1, (p2 ++ [b]). rewrite <- app_assoc. simpl.
        repeat split; auto.
        -- intros Hc. apply Hb. apply in_app_iff. now left.
        -- apply in_app_iff. right. now left.
      * replace (l1 ++ a :: l2 ++ b :: l3 ++ [y])
          with ((l1 ++ a :: l2 ++ b :: l3) ++ [y]) in H
          by (rewrite <- !app_assoc; simpl; rewrite <- !app_assoc; reflexivity).
        apply app_inj_tail in H. destruct H as [H ->].
        destruct (IH _ _ _ H) as (p1 & p2 & -> & Ha & Hb & Hp).
        exists p1, (p2 ++ [y]). rewrite <- app_assoc. simpl.
        repeat split; auto. apply in_app_iff. now left.
Qed.

Lemma clip_fix (t : jsstring) : length t <= MAX_TITLE -> clip t = t.
Proof.
  intros H. unfold clip.
  destruct (Nat.ltb_spec MAX_TITLE (length t)); [lia | reflexivity].
Qed.

Lemma clip_length (t : jsstring) : length (clip t) <= MAX_TITLE.
Proof.
  unfold clip. destruct (Nat.ltb_spec MAX_TITLE (length t)); [|assumption].
  pose proof (trim_length (slice0 MAX_TITLE t)).
  pose proof (length_firstn MAX_TITLE t). unfold slice0 in *. lia.
Qed.

Lemma clip_trimmed (t : jsstring) : trimmed t -> trimmed (clip t).
Proof.
  intros H. unfold clip. destruct (MAX_TITLE <? length t); [|exact H].
  apply trim_trimmed.
Qed.

Lemma clip_non_empty (t : jsstring) :
  trimmed t -> t <> [] -> clip t <> [].
Proof.
  intros [Hhead _] Hne. unfold clip.
  destruct (MAX_TITLE <? length t); [|exact Hne].
  destruct t as [|c r]; [contradiction|].
  change (slice0 MAX_TITLE (c :: r)) with (c :: firstn 44 r).
  destruct (trim_head c (firstn 44 r) (Hhead c r eq_refl)) as [r' ->].
  discriminate.
Qed.

Lemma non_empty_true (s : jsstring) : non_empty s = true <-> s <> [].
Proof. destruct s; simpl; split; congruence. Qed.

(** What one candidate becomes, when it becomes a title. *)
Lemma title_of_spec (c t : jsstring) :
  Public.title_of c = Some t ->
  t <> [] /\ trimmed t /\ length t <= MAX_TITLE.
Proof.
  unfold Public.title_of. destruct (non_empty (trim c)) eqn:E; [|discriminate].
  intros H. injection H as <-. apply non_empty_true in E.
  pose proof (trim_trimmed c) as Ht. repeat split.
  - now apply clip_non_empty.
  - now apply clip_trimmed.
  - now apply clip_trimmed.
  - apply clip_length.
Qed.

(** Lines 107-109 work candidate by candidate. *)
Lemma cleaned_flat_map (cands : list jsstring) :
  map clip (filter non_empty (map trim cands))
  = flat_map (fun c => option_list (Public.title_of c)) cands.
Proof.
  induction cands as [|c cands IH]; [reflexivity|].
  simpl. unfold Public.title_of at 1.
  destruct (non_empty (trim c)); simpl; now rewrite IH.
Qed.

Lemma flat_map_split (cands : list jsstring) (p1 p2 : list jsstring)
  (a : jsstring) :
  flat_map (fun c => option_list (Public.title_of c)) cands = p1 ++ a :: p2 ->
  exists c1 ca c2,
    cands = c1 ++ ca :: c2 /\ Public.title_of ca = Some a /\
    flat_map (fun c => option_list (Public.title_of c)) c1 = p1 /\
    flat_map (fun c => option_list (Public.title_of c)) c2 = p2.
Proof.
  revert p1. induction cands as [|c cands IH]; intros p1 H.
  - destruct p1; discriminate H.
  - simpl in H. destruct (Public.title_of c) as [t|] eqn:E; simpl in H.
    + destruct p1 as [|x p1]; simpl in H.
      * injection H as -> H. exists [], c, cands. simpl. auto.
      * injection H as -> H. destruct (IH _ H) as (c1 & ca & c2 & -> & Ha & H1 & H2).
        exists (c :: c1), ca, c2. simpl. rewrite E. simpl.
        repeat split; auto. now rewrite H1.
    + destruct (IH _ H) as (c1 & ca & c2 & -> & Ha & H1 & H2).
      exists (c :: c1), ca, c2. simpl. rewrite E. simpl. auto.
Qed.

End TitleFacts.
Import TitleFacts.

(* ================================================================== *)
(** * Properties of the normalizer *)
(* ================================================================== *)


Section NormalizerProperties.

Context {NM : NumberModel}.

Lemma get_first_property (k : jsstring) (v : value)
  (rest : list (jsstring * value)) :
  get (VObject ((k, v) :: rest)) k = Normal v.
Proof. simpl. now rewrite eqb_refl. Qed.

Lemma map_c_strings (l : list jsstring) :
  map_c Public.element_title (map VString l) = Normal (map trim l).
Proof.
  induction l as [|t l IH]; [reflexivity|].
  simpl. rewrite IH. reflexivity.
Qed.

Lemma map_fix {A : Type} (f : A -> A) (l : list A) :
  (forall x, In x l -> f x = x) -> map f l = l.
Proof.
  induction l as [|x l IH]; intros H; [reflexivity|].
  simpl. rewrite (H x) by now left. rewrite IH; [reflexivity|].
  intros y Hy. apply H. now right.
Qed.

Lemma filter_all {A : Type} (f : A -> bool) (l : list A) :
  (forall x, In x l -> f x = true) -> filter f l = l.
Proof.
  induction l as [|x l IH]; intros H; [reflexivity|].
  simpl. rewrite (H x) by now left. rewrite IH; [reflexivity|].
  intros y Hy. apply H. now right.
Qed.

(** The candidates are already trimmed and not empty when they come
    from a branch that filters them. *)
Lemma retrim_filtered (l : list jsstring) :
  filter non_empty (map trim (filter non_empty (map trim l)))
  = filter non_empty (map trim l).
Proof.
  induction l as [|t l IH]; [reflexivity|].
  simpl. destruct (non_empty (trim t)) eqn:E; simpl.
  - rewrite trim_idem, E, IH. reflexivity.
  - exact IH.
Qed.

(** A list of clean titles is a fixed point of the last stage. *)
Lemma finish_titles_fix (L : list jsstring) :
  (forall t, In t L -> t <> [] /\ trimmed t /\ length t <= MAX_TITLE) ->
  NoDup L ->
  Public.finish_titles L = L.
Proof.
  intros H Hnd. unfold Public.finish_titles.
  rewrite (map_fix trim) by (intros t Ht; apply trim_fix, (H t Ht)).
  rewrite filter_all
    by (intros t Ht; apply non_empty_true, (H t Ht)).
  rewrite (map_fix clip) by (intros t Ht; apply clip_fix, (H t Ht)).
  now apply array_from_set_fix.
Qed.

Lemma finish_titles_spec (cands : list jsstring) :
  (forall t, In t (Public.finish_titles cands) ->
     t <> [] /\ trimmed t /\ length t <= MAX_TITLE) /\
  NoDup (Public.finish_titles cands) /\
  (forall t, In t (Public.finish_titles cands) <->
     exists c, In c cands /\ Public.title_of c = Some t) /\
  Public.first_occurrence_order cands (Public.finish_titles cands).
Proof.
  unfold Public.finish_titles. rewrite cleaned_flat_map.
  set (g := fun c => option_list (Public.title_of c)).
  assert (Hmem : forall t, In t (array_from_set (flat_map g cands)) <->
                   exists c, In c cands /\ Public.title_of c = Some t).
  { intros t. rewrite array_from_set_In, in_flat_map. unfold g.
    split; intros [c [Hc Ht]]; exists c; split; auto.
    - destruct (Public.title_of c); simpl in Ht; [|contradiction].
      destruct Ht as [->|[]]. reflexivity.
    - rewrite Ht. now left. }
  repeat split.
  - apply Hmem in H. destruct H as [c [_ Hc]].
    now apply (title_of_spec c t).
  - apply Hmem in H. destruct H as [c [_ Hc]].
    now apply (title_of_spec c t).
  - apply Hmem in H. destruct H as [c [_ Hc]].
    now apply (title_of_spec c t).
  - apply Hmem in H. destruct H as [c [_ Hc]].
    now apply (title_of_spec c t).
  - apply array_from_set_NoDup.
  - apply Hmem.
  - apply Hmem.
  - intros l1 a l2 b l3 H.
    destruct (array_from_set_order _ _ _ _ _ _ H)
      as (p1 & p2 & Hsplit & Ha & Hb & Hp).
    destruct (flat_map_split _ _ _ _ Hsplit)
      as (c1 & ca & c2 & -> & Hca & H1 & H2).
    exists c1, ca, c2. repeat split; auto.
    + intros Hc. apply Ha. rewrite <- H1. apply in_flat_map.
      exists c. split; [assumption|]. unfold g. rewrite Hc. now left.
    + intros Hc. apply Hb. rewrite <- H1. apply in_flat_map.
      exists c. split; [assumption|]. unfold g. rewrite Hc. now left.
    + rewrite <- H2 in Hp. apply in_flat_map in Hp.
      destruct Hp as [cb [Hcb Ht]]. exists cb. split; [assumption|].
      unfold g in Ht. destruct (Public.title_of cb); simpl in Ht;
        [|contradiction].
      destruct Ht as [->|[]]. reflexivity.
Qed.

End NormalizerProperties.

Section NormalizerTheorems.

Context {NM : NumberModel}.

Lemma get_returns (v : value) (k : jsstring) :
  nullish v = false -> exists x, get v k = Normal x.
Proof. destruct v; simpl; try discriminate; intros _; eauto. Qed.

Lemma title_field_returns (v : value) :
  nullish v = false -> exists x, Public.title_field v = Normal x.
Proof.
  intros H. unfold Public.title_field, coalesce_lazy.
  destruct (get_returns v (str "title") H) as [a ->].
  destruct (get_returns v (str "text") H) as [b ->].
  destruct (get_returns v (str "suggestion") H) as [c ->].
  simpl. destruct (nullish a) eqn:Ea; simpl.
  - destruct (nullish b) eqn:Eb; simpl; rewrite ?Eb; eauto.
  - rewrite Ea. eauto.
Qed.

Lemma titles_source_returns (json : value) :
  exists src, Public.titles_source json = Normal src.
Proof.
  unfold Public.titles_source, coalesce_lazy.
  set (obj := if truthy json && typeof_object json then json else VObject []).
  assert (H : nullish obj = false).
  { unfold obj. destruct (truthy json && typeof_object json) eqn:E;
      [|reflexivity].
    apply andb_true_iff in E. destruct E as [E1 E2].
    destruct json; try discriminate; reflexivity. }
  destruct (get_returns obj (str "titles") H) as [a ->].
  destruct (get_returns obj (str "suggestions") H) as [b ->].
  simpl. destruct (nullish a); eauto.
Qed.

(** [String(v)] returns on a printable value. *)
Lemma to_string_printable (v : value) :
  Public.printable v = true -> exists s, to_string v = Normal s.
Proof.
  induction v as [| |b|n|s|items IH|props _|source throws result _]
    using value_induction; intros Hp; simpl; eauto.
  - (* arrays: element by element *)
    simpl in Hp.
    assert (exists parts,
      (fix elements (l : list value) : comp (list jsstring) :=
         match l with
         | [] => Normal []
         | x :: r =>
             s <- (if nullish x then Normal [] else to_string x) ;;
             ss <- elements r ;;
             Normal (s :: ss)
         end) items = Normal parts) as [parts ->].
    { induction items as [|x items IHi]; [eauto|].
      simpl in Hp. apply andb_true_iff in Hp. destruct Hp as [Hx Hr].
      inversion IH as [|? ? Px Pr]; subst.
      destruct (IHi Pr Hr) as [parts ->].
      destruct (nullish x); simpl; [eauto|].
      destruct (Px Hx) as [s ->]. simpl. eauto. }
    simpl. eauto.
  - (* objects: the inherited method answers *)
    simpl in Hp. unfold object_to_string, has_own in *.
    destruct (lookup (str "toString") props); [discriminate | eauto].
Qed.

Lemma element_title_returns (s : value) :
  Public.printable s = true -> exists t, Public.element_title s = Normal t.
Proof.
  intros Hp. unfold Public.element_title.
  destruct (to_string_printable s Hp) as [t Ht].
  destruct s as [| |b|n|s0|items|props|source throws result];
    cbn [truthy typeof_object]; rewrite ?andb_false_r; cbn [andb];
    try (rewrite Ht; simpl; eauto; fail); eauto.
  - (* an array *)
    destruct (title_field_returns (VArray items) eq_refl) as [val ->].
    cbn [bind].
    destruct val; eauto;
      destruct (find is_string _) as [[]|]; rewrite ?Ht; simpl; eauto.
  - (* an object *)
    destruct (title_field_returns (VObject props) eq_refl) as [val ->].
    cbn [bind].
    destruct val; eauto;
      destruct (find is_string _) as [[]|]; rewrite ?Ht; simpl; eauto.
Qed.

Lemma map_element_title_returns (items : list value) :
  forallb Public.printable items = true ->
  exists ts, map_c Public.element_title items = Normal ts.
Proof.
  induction items as [|x items IH]; simpl; [eauto|].
  intros H. apply andb_true_iff in H. destruct H as [Hx Hr].
  destruct (element_title_returns x Hx) as [t ->].
  destruct (IH Hr) as [ts ->]. simpl. eauto.
Qed.

(** The normalizer returns whenever the elements of an array source
    are printable; in particular on every source that is no array. *)
Lemma normalize_returns (json : value) :
  Public.printable_titles json = true ->
  exists L, Public.normalizeTitlesFromJson json = Normal L.
Proof.
  unfold Public.printable_titles, Public.normalizeTitlesFromJson,
    Public.title_candidates.
  destruct (titles_source_returns json) as [src ->]. cbn [bind].
  intros H.
  destruct src as [| |b|n|s0|items|props|source throws result];
    cbn [truthy typeof_object]; rewrite ?andb_false_r; cbn [andb bind];
    eauto.
  - destruct (map_element_title_returns items H) as [ts ->]. simpl. eauto.
  - destruct (title_field_returns (VObject props) eq_refl) as [m ->].
    simpl. destruct m; simpl; eauto.
Qed.

Lemma refilter (l : list jsstring) :
  filter non_empty (map trim (filter non_empty l))
  = filter non_empty (map trim l).
Proof.
  induction l as [|t l IH]; [reflexivity|].
  simpl. destruct t as [|c t]; simpl; [exact IH|].
  destruct (non_empty (trim (c :: t))); now rewrite IH.
Qed.

Lemma split_without_separator (sep : code_unit) (t : jsstring) :
  ~ In sep t -> JsString.split sep t = [t].
Proof.
  induction t as [|c t IH]; [reflexivity|].
  intros H. cbn [JsString.split].
  destruct (N.eqb_spec c sep) as [->|_]; [exfalso; apply H; now left|].
  rewrite IH; [reflexivity|]. intros Hin. apply H. now right.
Qed.

Lemma split_app_separator (sep : code_unit) (t rest : jsstring) :
  ~ In sep t ->
  JsString.split sep (t ++ sep :: rest) = t :: JsString.split sep rest.
Proof.
  induction t as [|c t IH]; intros H.
  - cbn [app JsString.split]. now rewrite N.eqb_refl.
  - cbn [app JsString.split].
    destruct (N.eqb_spec c sep) as [->|_]; [exfalso; apply H; now left|].
    rewrite IH; [reflexivity|]. intros Hin. apply H. now right.
Qed.

(** [split] undoes [join] on segments that do not hold the separator. *)
Lemma split_of_join (sep : code_unit) (L : list jsstring) :
  L <> [] -> (forall t, In t L -> ~ In sep t) ->
  JsString.split sep (join [sep] L) = L.
Proof.
  induction L as [|t L IH]; [contradiction|].
  intros _ H. destruct L as [|t2 L].
  - apply split_without_separator, H. now left.
  - rewrite join_cons by discriminate.
    change (t ++ [sep] ++ join [sep] (t2 :: L))
      with (t ++ sep :: join [sep] (t2 :: L)).
    rewrite split_app_separator by (apply H; now left).
    rewrite IH; [reflexivity|discriminate|].
    intros x Hx. apply H. now right.
Qed.

(** Every string is its segments joined by the separator, and the
    segments hold no separator. *)
Lemma segments_exist (sep : code_unit) (s : jsstring) :
  exists segs,
    segs <> [] /\ (forall g, In g segs -> ~ In sep g) /\
    s = join [sep] segs.
Proof.
  induction s as [|c s (segs & Hne & Hfree & Hs)].
  - exists [[]]. split; [discriminate|]. split; [|reflexivity].
    intros g [<-|[]] [].
  - destruct (N.eqb_spec c sep) as [->|Hc].
    + exists ([] :: segs). split; [discriminate|]. split.
      * intros g [<-|Hg]; [intros [] | now apply Hfree].
      * rewrite join_cons by exact Hne. cbn [app]. now rewrite <- Hs.
    + destruct segs as [|seg rest]; [contradiction|].
      exists ((c :: seg) :: rest). split; [discriminate|]. split.
      * intros g [<-|Hg].
        -- intros [E|Hin]; [now apply Hc|].
           apply (Hfree seg); [now left | exact Hin].
        -- apply Hfree. now right.
      * destruct rest as [|seg2 rest].
        -- cbn [join] in Hs |- *. now rewrite Hs.
        -- rewrite join_cons by discriminate.
           rewrite join_cons in Hs by discriminate.
           cbn [app]. now rewrite Hs.
Qed.

Lemma source_field_read (json : value) :
  Public.titles_source json
  = Normal (match source_field json with Some v => v | None => VUndefined end).
Proof.
  unfold Public.titles_source, source_field, coalesce_lazy.
  destruct json as [| |b|n|s|items|props|source throws result];
    cbn [truthy typeof_object]; rewrite ?andb_false_r; cbn [andb];
    try reflexivity.
  cbn [get bind].
  destruct (lookup (str "titles") props) as [v|]; cbn [nullish].
  - destruct (nullish v); [|reflexivity].
    destruct (lookup (str "suggestions") props); reflexivity.
  - destruct (lookup (str "suggestions") props); reflexivity.
Qed.

Lemma normalize_string_source (json : value) (s : jsstring)
  (L : list jsstring) :
  source_field json = Some (VString s) ->
  Public.normalizeTitlesFromJson json = Normal L ->
  Public.title_candidates json
  = Normal (filter non_empty (map trim (JsString.split COMMA s))) /\
  L = Public.finish_titles (JsString.split COMMA s).
Proof.
  intros Hs. unfold Public.normalizeTitlesFromJson, Public.title_candidates.
  rewrite source_field_read, Hs. cbn [bind]. intros H. injection H as <-.
  split; [reflexivity|].
  unfold Public.finish_titles. now rewrite retrim_filtered.
Qed.

Lemma normalize_array_source (json : value) (items : list value)
  (L : list jsstring) :
  source_field json = Some (VArray items) ->
  Public.normalizeTitlesFromJson json = Normal L ->
  exists ts,
    map_c Public.element_title items = Normal ts /\
    L = Public.finish_titles ts.
Proof.
  intros Hs. unfold Public.normalizeTitlesFromJson, Public.title_candidates.
  rewrite source_field_read, Hs. cbn [bind].
  destruct (map_c Public.element_title items) as [ts|e]; [|discriminate].
  cbn [bind]. intros H. injection H as <-. exists ts.
  split; [reflexivity|].
  unfold Public.finish_titles. now rewrite refilter.
Qed.

Lemma finish_at_most_one (c : jsstring) :
  length (Public.finish_titles [c]) <= 1.
Proof.
  unfold Public.finish_titles. cbn [map filter].
  destruct (non_empty (trim c)); cbn; lia.
Qed.

Lemma normalize_other_source (json : value) (L : list jsstring) :
  (forall s, source_field json <> Some (VString s)) ->
  (forall items, source_field json <> Some (VArray items)) ->
  Public.normalizeTitlesFromJson json = Normal L ->
  length L <= 1.
Proof.
  intros Hs Ha. unfold Public.normalizeTitlesFromJson, Public.title_candidates.
  rewrite source_field_read.
  destruct (source_field json)
    as [[| |b|n|s|items|props|source throws result]|];
    cbn [bind truthy typeof_object]; rewrite ?andb_false_r; cbn [andb];
    try (intros H; injection H as <-; cbn; lia);
    try (now elim (Hs s)); try (now elim (Ha items)).
  destruct (Public.title_field (VObject props)) as [m|e]; [|discriminate].
  cbn [bind].
  destruct m; cbn [bind]; intros H; injection H as <-;
    try (cbn; lia).
  apply finish_at_most_one.
Qed.

Lemma first_occurrences_finish (cands : list jsstring) :
  first_occurrences segment_becomes cands (Public.finish_titles cands).
Proof.
  destruct (finish_titles_spec cands) as (_ & _ & Hmem & Hord).
  split; [exact Hmem|].
  intros l1 a l2 b l3 E.
  destruct (Hord l1 a l2 b l3 E) as (c1 & ca & c2 & -> & Ha & Hc1 & Hb).
  exists c1, ca, c2. repeat split; try assumption; now apply Hc1.
Qed.

Lemma finish_titles_trimmed (ss : list jsstring) :
  Public.finish_titles (map trim ss) = Public.finish_titles ss.
Proof.
  unfold Public.finish_titles. rewrite map_map.
  f_equal. f_equal. f_equal. apply map_ext. intros s. apply trim_idem.
Qed.

Lemma map_c_app_inv {A B : Type} (f : A -> comp B) (items : list A) :
  forall (ts c1 : list B) (ca : B) (c2 : list B),
    map_c f items = Normal ts -> ts = c1 ++ ca :: c2 ->
    exists s1 x s2,
      items = s1 ++ x :: s2 /\ map_c f s1 = Normal c1 /\
      f x = Normal ca /\ map_c f s2 = Normal c2.
Proof.
  induction items as [|y items IH]; intros ts c1 ca c2; cbn [map_c].
  - intros H ->. injection H as H. now destruct c1.
  - destruct (f y) as [c|e] eqn:Ey; cbn [bind]; [|discriminate].
    destruct (map_c f items) as [cs|e] eqn:Er; cbn [bind]; [|discriminate].
    intros H E. injection H as <-.
    destruct c1 as [|c0 c1]; cbn [app] in E; injection E as -> ->.
    + exists [], y, items. cbn. now rewrite Ey.
    + destruct (IH _ c1 ca c2 eq_refl eq_refl) as (s1 & x & s2 & -> & H1 & Hx & H2).
      exists (y :: s1), x, s2. cbn [app map_c]. rewrite Ey, H1. cbn [bind].
      repeat split; assumption.
Qed.

Lemma map_c_In {A B : Type} (f : A -> comp B) (items : list A)
  (ts : list B) :
  map_c f items = Normal ts ->
  (forall y, In y items -> exists c, f y = Normal c /\ In c ts) /\
  (forall c, In c ts -> exists y, In y items /\ f y = Normal c).
Proof.
  revert ts. induction items as [|x items IH]; intros ts; cbn [map_c].
  - intros H. injection H as <-. split; intros ? [].
  - destruct (f x) as [c|e] eqn:Ex; cbn [bind]; [|discriminate].
    destruct (map_c f items) as [cs|e]; cbn [bind]; [|discriminate].
    intros H. injection H as <-. destruct (IH cs eq_refl) as [I1 I2]. split.
    + intros y [<-|Hy].
      * exists c. split; [exact Ex | now left].
      * destruct (I1 y Hy) as (c' & Hc & Hin). exists c'. split; [exact Hc|].
        now right.
    + intros c' [<-|Hc].
      * exists x. split; [now left | exact Ex].
      * destruct (I2 c' Hc) as (y & Hy & Hf). exists y. split; [now right|].
        exact Hf.
Qed.

(** The order among the elements of an array source is the order
    among what they offer. *)
Lemma first_occurrences_elements (items : list value) (ts L : list jsstring) :
  map_c Public.element_title items = Normal ts ->
  first_occurrences segment_becomes ts L ->
  first_occurrences element_becomes items L.
Proof.
  intros Hmap [Hmem Hord]. destruct (map_c_In _ _ _ Hmap) as [I1 I2]. split.
  - intros t. rewrite Hmem. split.
    + intros (c & Hc & Ht). destruct (I2 c Hc) as (y & Hy & Hf).
      exists y. split; [exact Hy|]. now exists c.
    + intros (y & Hy & c & Hf & Ht). destruct (I1 y Hy) as (c' & Hf' & Hc').
      exists c. split; [|exact Ht]. congruence.
  - intros l1 a l2 b l3 E.
    destruct (Hord l1 a l2 b l3 E) as (c1 & ca & c2 & Ets & Ha & Hc1 & cb & Hcb & Hb).
    destruct (map_c_app_inv _ _ _ _ _ _ Hmap Ets)
      as (s1 & x & s2 & -> & H1 & Hx & H2).
    exists s1, x, s2. split; [reflexivity|]. split; [now exists ca|]. split.
    + intros y Hy. destruct (map_c_In _ _ _ H1) as [J1 _].
      destruct (J1 y Hy) as (c & Hf & Hc). destruct (Hc1 c Hc) as [Na Nb].
      split; intros (c' & Hf' & Ht); [apply Na | apply Nb];
        unfold segment_becomes; congruence.
    + destruct (map_c_In _ _ _ H2) as [_ J2].
      destruct (J2 cb Hcb) as (z & Hz & Hf). exists z. split; [exact Hz|].
      now exists cb.
Qed.

(** C3.  For every input value, a fortiori for every JSON value, the
    list the normalizer of the public route returns has only non-empty
    titles without leading or trailing white space, of at most 45 code
    units, no title at two positions, and the titles in the order of
    their first occurrences in the source: among the segments between
    the commas of a string source, among the elements of an array
    source, among its strings when they are all strings; any other
    source gives at most one title.  The source is the [titles] field
    of the payload or, when that is absent or null, its [suggestions]
    field, and every string is its segments joined by commas.  The
    normalizer does return a list whenever the elements of an array
    source are printable. *)
Theorem normalized_titles_invariants (json : value) :
  (Public.printable_titles json = true ->
   exists L, Public.normalizeTitlesFromJson json = Normal L) /\
  (forall s, exists segs,
     segs <> [] /\ (forall g, In g segs -> ~ In COMMA g) /\
     s = join [COMMA] segs) /\
  forall L, Public.normalizeTitlesFromJson json = Normal L ->
    (forall t, In t L ->
       t <> [] /\ trimmed t /\ length t <= 45) /\
    (forall i j a,
       nth_error L i = Some a -> nth_error L j = Some a -> i = j) /\
    (forall segs,
       segs <> [] -> (forall g, In g segs -> ~ In COMMA g) ->
       source_field json = Some (VString (join [COMMA] segs)) ->
       first_occurrences segment_becomes segs L) /\
    (forall items,
       source_field json = Some (VArray items) ->
       first_occurrences element_becomes items L) /\
    (forall ss,
       source_field json = Some (VArray (map VString ss)) ->
       first_occurrences segment_becomes ss L) /\
    ((forall s, source_field json <> Some (VString s)) ->
     (forall items, source_field json <> Some (VArray items)) ->
     length L <= 1).
Proof.
  split; [apply normalize_returns|].
  split; [apply segments_exist|].
  intros L HL.
  assert (Hinv : (forall t, In t L -> t <> [] /\ trimmed t /\ length t <= 45)
                 /\ NoDup L).
  { revert HL. unfold Public.normalizeTitlesFromJson.
    destruct (Public.title_candidates json) as [cands|e]; [|discriminate].
    cbn [bind]. intros H. injection H as <-.
    destruct (finish_titles_spec cands) as (Hall & Hnd & _). now split. }
  destruct Hinv as [Hall Hnd].
  split; [exact Hall|]. split.
  { intros i j a Hi Hj.
    apply (proj1 (NoDup_nth_error _) Hnd).
    - apply nth_error_Some. congruence.
    - congruence. }
  split; [|split; [|split]].
  - intros segs Hne Hcomma Hs.
    destruct (normalize_string_source _ _ _ Hs HL) as [_ ->].
    rewrite split_of_join by assumption.
    apply first_occurrences_finish.
  - intros items Hs.
    destruct (normalize_array_source _ _ _ Hs HL) as (ts & Hmap & ->).
    apply (first_occurrences_elements items ts); [exact Hmap|].
    apply first_occurrences_finish.
  - intros ss Hs.
    destruct (normalize_array_source _ _ _ Hs HL) as (ts & Hmap & ->).
    rewrite map_c_strings in Hmap. injection Hmap as <-.
    rewrite finish_titles_trimmed. apply first_occurrences_finish.
  - intros Hs Ha. exact (normalize_other_source json L Hs Ha HL).
Qed.

Lemma normalize_clean_list (L : list jsstring) :
  (forall t, In t L -> t <> [] /\ trimmed t /\ length t <= MAX_TITLE) ->
  NoDup L ->
  Public.normalizeTitlesFromJson (Public.titles_payload L) = Normal L.
Proof.
  intros H Hnd.
  unfold Public.normalizeTitlesFromJson, Public.title_candidates,
    Public.titles_source, Public.titles_payload, coalesce_lazy.
  cbn [truthy typeof_object andb]. rewrite get_first_property.
  cbn [bind nullish]. rewrite map_c_strings. cbn [bind].
  rewrite (map_fix trim) by (intros t Ht; apply trim_fix, (H t Ht)).
  rewrite filter_all by (intros t Ht; apply non_empty_true, (H t Ht)).
  now rewrite finish_titles_fix.
Qed.

(** C4.  Normalization is idempotent: when the normalizer returns [L]
    on a value, it returns [L] again on the payload [{"titles": L}]. *)
Theorem normalize_idempotent (json : value) (L : list jsstring) :
  Public.normalizeTitlesFromJson json = Normal L ->
  Public.normalizeTitlesFromJson (Public.titles_payload L) = Normal L.
Proof.
  unfold Public.normalizeTitlesFromJson at 1.
  destruct (Public.title_candidates json) as [cands|e]; [|discriminate].
  cbn [bind]. intros H. injection H as <-.
  destruct (finish_titles_spec cands) as (Hall & Hnd & _).
  now apply normalize_clean_list.
Qed.

Lemma trimStart_blank (s : jsstring) :
  all_whitespace s = true -> trimStart s = [].
Proof.
  induction s as [|c s IH]; [reflexivity|].
  cbn [all_whitespace forallb]. intros H.
  apply andb_true_iff in H. destruct H as [Hc Hs].
  cbn [trimStart]. rewrite Hc. now apply IH.
Qed.

Lemma trimStart_after_blank (b s : jsstring) :
  all_whitespace b = true -> trimStart (b ++ s) = trimStart s.
Proof.
  induction b as [|c b IH]; [reflexivity|].
  cbn [all_whitespace forallb]. intros H.
  apply andb_true_iff in H. destruct H as [Hc Hb].
  cbn [app trimStart]. rewrite Hc. now apply IH.
Qed.

Lemma all_whitespace_rev (s : jsstring) :
  all_whitespace (rev s) = all_whitespace s.
Proof.
  unfold all_whitespace. induction s as [|c s IH]; [reflexivity|].
  cbn [rev forallb]. rewrite forallb_app, IH. cbn [forallb].
  rewrite andb_true_r. apply andb_comm.
Qed.

Lemma trim_blank (s : jsstring) : all_whitespace s = true -> trim s = [].
Proof.
  intros H. unfold trim. now rewrite trimStart_blank.
Qed.

(** Trimming removes the white space around a trimmed string. *)
Lemma trim_core (before c after : jsstring) :
  all_whitespace before = true -> all_whitespace after = true ->
  trimmed c ->
  trim (before ++ c ++ after) = c.
Proof.
  intros Hb Ha Hc. unfold trim.
  rewrite trimStart_after_blank by exact Hb.
  destruct c as [|x c].
  - cbn [app]. rewrite trimStart_blank by exact Ha. reflexivity.
  - assert (Hx : is_whitespace x = false) by now apply (proj1 Hc x c).
    cbn [app trimStart]. rewrite Hx.
    change (x :: c ++ after) with ((x :: c) ++ after).
    unfold trimEnd. rewrite rev_app_distr.
    rewrite trimStart_after_blank by now rewrite all_whitespace_rev.
    fold (trimEnd (x :: c)). apply trimEnd_fix. exact (proj2 Hc).
Qed.

Lemma trimStart_parts (s : jsstring) :
  exists b, s = b ++ trimStart s /\ all_whitespace b = true.
Proof.
  induction s as [|c s (b & IH & Hb)]; [now exists []|].
  cbn [trimStart]. destruct (is_whitespace c) eqn:E.
  - exists (c :: b). cbn [app all_whitespace forallb].
    split; [now rewrite <- IH|]. rewrite E. exact Hb.
  - now exists [].
Qed.

Lemma trim_parts (s : jsstring) :
  exists b a,
    s = b ++ trim s ++ a /\
    all_whitespace b = true /\ all_whitespace a = true.
Proof.
  destruct (trimStart_parts s) as (b & Hs & Hb).
  destruct (trimStart_parts (rev (trimStart s))) as (a & Hr & Ha).
  exists b, (rev a). split; [|split; [exact Hb|]].
  - unfold trim, trimEnd. rewrite <- rev_app_distr, <- Hr, rev_involutive.
    exact Hs.
  - now rewrite all_whitespace_rev.
Qed.

(** The kept segments are what the normalizer computes, and every
    list of segments has them. *)
Lemma kept_segments_computed (segs cs : list jsstring) :
  kept_segments segs cs -> filter non_empty (map trim segs) = cs.
Proof.
  induction 1 as [|seg segs cs Hb _ IH|b c a segs cs Hb Ha Hne Hc _ IH].
  - reflexivity.
  - cbn [map filter]. rewrite trim_blank by exact Hb. exact IH.
  - cbn [map filter]. rewrite trim_core by assumption.
    destruct c; [contradiction|]. cbn [non_empty]. now rewrite IH.
Qed.

Lemma kept_segments_exist (segs : list jsstring) :
  exists cs, kept_segments segs cs.
Proof.
  induction segs as [|seg segs [cs IH]]; [exists []; constructor|].
  destruct (trim_parts seg) as (b & a & Hs & Hb & Ha).
  destruct (trim seg) as [|x t] eqn:E.
  - exists cs. apply kept_blank; [|exact IH].
    rewrite Hs. cbn [app]. unfold all_whitespace in *.
    now rewrite forallb_app, Hb, Ha.
  - exists ((x :: t) :: cs). rewrite Hs.
    apply kept_title; try assumption; [discriminate|].
    rewrite <- E. apply trim_trimmed.
Qed.

(** C6.  When the [titles] property of the payload is a string, the
    normalizer takes the segments between its commas, trims each and
    discards the blank ones: its candidates are the kept segments, in
    order, and they are its result when none is longer than 45 code
    units and none occurs twice.  Every string is its segments joined
    by commas, and every list of segments has its kept segments.
    [{"titles": "A, B, B, C"}] gives [["A","B","C"]]. *)
Theorem normalize_comma_separated :
  (forall (props : list (jsstring * value)) (segs cands : list jsstring),
     lookup (str "titles") props = Some (VString (join [COMMA] segs)) ->
     segs <> [] -> (forall g, In g segs -> ~ In COMMA g) ->
     kept_segments segs cands ->
     Public.title_candidates (VObject props) = Normal cands /\
     (forall c, In c cands -> c <> []) /\
     (NoDup cands -> (forall c, In c cands -> length c <= 45) ->
      Public.normalizeTitlesFromJson (VObject props) = Normal cands)) /\
  (forall s, exists segs,
     segs <> [] /\ (forall g, In g segs -> ~ In COMMA g) /\
     s = join [COMMA] segs) /\
  (forall segs, exists cands, kept_segments segs cands) /\
  Public.normalizeTitlesFromJson
    (VObject [(str "titles", VString (str "A, B, B, C"))])
  = Normal [str "A"; str "B"; str "C"].
Proof.
  split; [|split; [apply segments_exist|];
             split; [exact kept_segments_exist | reflexivity]].
  intros props segs cands Hp Hne Hcomma Hk.
  assert (Hs : source_field (VObject props)
               = Some (VString (join [COMMA] segs))).
  { cbn [source_field]. now rewrite Hp. }
  assert (Hc : Public.title_candidates (VObject props) = Normal cands).
  { unfold Public.title_candidates. rewrite source_field_read, Hs.
    cbn [bind]. rewrite split_of_join by assumption.
    now rewrite (kept_segments_computed _ _ Hk). }
  assert (Hclean : forall c, In c cands -> c <> [] /\ trimmed c).
  { clear Hc Hs Hp Hne Hcomma.
    induction Hk as [|seg segs cs Hb _ IH|b c a segs cs Hb Ha Hn Ht _ IH];
      [intros c [] | exact IH |].
    intros c' [<-|Hin]; [now split | now apply IH]. }
  split; [exact Hc|]. split; [intros c Hin; now apply Hclean|].
  intros Hnd Hlen. unfold Public.normalizeTitlesFromJson. rewrite Hc.
  cbn [bind]. f_equal. apply finish_titles_fix; [|exact Hnd].
  intros t Ht. destruct (Hclean t Ht) as [H1 H2].
  split; [exact H1|]. split; [exact H2|]. now apply Hlen.
Qed.

End NormalizerTheorems.

(* ================================================================== *)
(** * The two normalizers compared *)
(* ================================================================== *)

Section RevisionsCompared.

Context {NM : NumberModel}.

(** Both normalizers read the same source. *)
Lemma part001_source (json : value) :
  coalesce_lazy (get_opt json (str "titles"))
                (get_opt json (str "suggestions"))
  = Public.titles_source json.
Proof.
  unfold Public.titles_source.
  destruct json as [| |b|n|s|items|props|source throws result];
    cbn [truthy typeof_object]; rewrite ?andb_false_r; cbn [andb];
    reflexivity.
Qed.

Lemma map_string_trim (l : list jsstring) :
  map_c Part001.string_trim (map VString l) = Normal (map trim l).
Proof.
  induction l as [|t l IH]; [reflexivity|].
  simpl. rewrite IH. reflexivity.
Qed.

(** On an object that offers a title both selections take it. *)
Lemma offered_title (s : value) :
  offers_title s = true ->
  exists c r, Public.title_field s = Normal (VString (c :: r)) /\
              Part001.title_field s = Normal (VString (c :: r)).
Proof.
  unfold offers_title.
  destruct (Public.title_field s) as [[| | | |[|c r]| | |]|] eqn:E;
    try discriminate.
  intros _. exists c, r. split; [reflexivity|].
  revert E. unfold Public.title_field, Part001.title_field,
    coalesce_lazy, or_lazy, get_opt.
  destruct (nullish s) eqn:Hs.
  - destruct s; try discriminate; simpl; discriminate.
  - destruct (get_returns s (str "title") Hs) as [x ->].
    destruct (get_returns s (str "text") Hs) as [y ->].
    destruct (get_returns s (str "suggestion") Hs) as [z ->].
    cbn [bind].
    destruct x as [| |bx|nx|sx|ix|px|fx tx rx]; cbn [nullish truthy bind];
      try discriminate;
      try (intros H; injection H as ->; reflexivity);
      destruct y as [| |by'|ny|sy|iy|py|fy ty ry]; cbn [nullish truthy bind];
      try discriminate;
      try (intros H; injection H as ->; reflexivity);
      intros H; injection H as ->; reflexivity.
Qed.

(** On an agreeing element the two callbacks return the same string. *)
Lemma element_agrees (s : value) :
  agreeing_element s = true ->
  exists u, Public.element_title s = Normal u /\
            Part001.element_title s = Normal (VString u) /\
            trim u = u.
Proof.
  destruct s as [| |b|n|s|items|props|source throws result]; simpl;
    intros H; try discriminate.
  - exists (trim (str "undefined")). repeat split; apply trim_idem.
  - exists (trim (str "null")). repeat split; apply trim_idem.
  - exists (trim (if b then str "true" else str "false")).
    unfold Public.element_title, Part001.element_title, Part001.title_field,
      or_lazy. cbn. rewrite andb_false_r. repeat split; apply trim_idem.
  - exists (trim (number_to_string n)).
    unfold Public.element_title, Part001.element_title, Part001.title_field,
      or_lazy. cbn. rewrite andb_false_r. repeat split; apply trim_idem.
  - exists (trim s). repeat split; apply trim_idem.
  - destruct (offered_title (VObject props) H) as (c & r & Hp & He).
    exists (trim (c :: r)).
    unfold Public.element_title, Part001.element_title, or_lazy.
    cbn [truthy typeof_object andb]. rewrite Hp, He. cbn.
    repeat split; apply trim_idem.
  - exists (trim source). repeat split; apply trim_idem.
Qed.

Lemma elements_agree (items : list value) :
  forallb agreeing_element items = true ->
  exists us, map_c Public.element_title items = Normal us /\
             map_c Part001.element_title items = Normal (map VString us) /\
             map trim us = us.
Proof.
  induction items as [|x items IH]; simpl.
  - intros _. exists []. auto.
  - intros H. apply andb_true_iff in H. destruct H as [Hx Hr].
    destruct (element_agrees x Hx) as (u & -> & -> & Hu).
    destruct (IH Hr) as (us & -> & -> & Hus).
    exists (u :: us). simpl. rewrite Hu, Hus. auto.
Qed.

(** C5, as amended.  The normalizer of [src/unnamed/part_001] and the
    normalizer of the public route return the same list on every value
    whose titles source is a string, an array of agreeing elements
    (anything but arrays, objects only when they offer a title), an
    object that offers a title, or no object at all. *)
Theorem normalizers_agree (json src : value) :
  Public.titles_source json = Normal src ->
  agreeing_source src = true ->
  Part001.normalizeTitlesFromJson json = Public.normalizeTitlesFromJson json.
Proof.
  intros Hsrc Hag.
  unfold Part001.normalizeTitlesFromJson, Public.normalizeTitlesFromJson,
    Part001.title_candidates, Public.title_candidates.
  rewrite part001_source, Hsrc. cbn [bind].
  destruct src as [| |b|n|s|items|props|source throws result];
    cbn [truthy typeof_object]; rewrite ?andb_false_r; cbn [andb];
    try reflexivity.
  - (* a comma-separated string *)
    cbn [bind]. rewrite map_string_trim. reflexivity.
  - (* an array *)
    destruct (elements_agree items Hag) as (us & -> & -> & Hus).
    cbn [bind]. rewrite map_string_trim. cbn [bind].
    unfold Public.finish_titles. rewrite refilter. reflexivity.
  - (* a single object *)
    simpl in Hag.
    destruct (offered_title (VObject props) Hag) as (c & r & -> & ->).
    reflexivity.
Qed.

End RevisionsCompared.

(* ================================================================== *)
(** * The fence stripper and the decoding step *)
(* ================================================================== *)

Section Fences.

Context {NM : NumberModel}.

Lemma strip_prefix_app (p r : jsstring) : strip_prefix p (p ++ r) = Some r.
Proof.
  induction p as [|a p IH]; simpl; [reflexivity|].
  now rewrite N.eqb_refl.
Qed.

Lemma strip_prefix_sound (p s r : jsstring) :
  strip_prefix p s = Some r -> s = p ++ r.
Proof.
  revert s. induction p as [|a p IH]; intros s; simpl.
  - intros H. now injection H as ->.
  - destruct s as [|b s]; [discriminate|].
    destruct (N.eqb_spec a b) as [->|]; [|discriminate].
    intros H. now rewrite (IH _ H).
Qed.

Lemma strip_prefix_ci_app (p t rest : jsstring) :
  strip_prefix_ci p t = Some [] -> strip_prefix_ci p (t ++ rest) = Some rest.
Proof.
  revert t. induction p as [|a p IH]; intros t; simpl.
  - intros H. now injection H as ->.
  - destruct t as [|b t]; [discriminate|]. simpl.
    destruct (a =? to_lower_ascii b)%N; [apply IH | discriminate].
Qed.

Lemma whitespace_no_backtick (r : jsstring) :
  all_whitespace r = true -> ~ In BACKTICK r.
Proof.
  unfold all_whitespace. rewrite forallb_forall. intros H Hin.
  specialize (H _ Hin). discriminate H.
Qed.

(** Whatever is left after at most four code units of a fenced text
    still holds the last backtick of its closing fence. *)
Lemma tail_has_backtick (p r body ws : jsstring) :
  length p <= 4 -> body <> [] ->
  p ++ r = body ++ LF :: FENCE ++ ws ->
  In BACKTICK r.
Proof.
  intros Hp Hb E.
  assert (Hr : r = skipn (length p) (p ++ r)).
  { rewrite skipn_app, skipn_all, Nat.sub_diag. reflexivity. }
  rewrite E in Hr.
  change (body ++ LF :: FENCE ++ ws)
    with (body ++ [LF; BACKTICK; BACKTICK] ++ BACKTICK :: ws) in Hr.
  rewrite app_assoc, skipn_app in Hr.
  assert (Hlen : length p - length (body ++ [LF; BACKTICK; BACKTICK]) = 0).
  { rewrite length_app. simpl. destruct body; [contradiction|]. simpl. lia. }
  rewrite Hlen in Hr. simpl in Hr. rewrite Hr.
  apply in_app_iff. right. now left.
Qed.

Lemma closing_fence_tail (ws : jsstring) :
  all_whitespace ws = true -> closing_fence (LF :: FENCE ++ ws) = true.
Proof.
  intros H. unfold closing_fence.
  change (LF :: FENCE ++ ws) with ((LF :: FENCE) ++ ws).
  now rewrite strip_prefix_app, H.
Qed.

Lemma closing_fence_early (body ws : jsstring) :
  body <> [] -> closing_fence (body ++ LF :: FENCE ++ ws) = false.
Proof.
  intros Hb. unfold closing_fence. apply orb_false_iff. split.
  - destruct (strip_prefix (LF :: FENCE) _) as [r|] eqn:E; [|reflexivity].
    apply strip_prefix_sound in E. symmetry in E.
    apply tail_has_backtick in E; [|simpl; lia|exact Hb].
    destruct (all_whitespace r) eqn:W; [|reflexivity].
    now apply whitespace_no_backtick in W.
  - destruct (strip_prefix FENCE _) as [r|] eqn:E; [|reflexivity].
    apply strip_prefix_sound in E. symmetry in E.
    apply tail_has_backtick in E; [|simpl; lia|exact Hb].
    destruct (all_whitespace r) eqn:W; [|reflexivity].
    now apply whitespace_no_backtick in W.
Qed.

Lemma strip_close_fence_unfold (s : jsstring) :
  strip_close_fence s
  = if closing_fence s then []
    else match s with
         | [] => []
         | c :: r => c :: strip_close_fence r
         end.
Proof. destruct s; reflexivity. Qed.

(** The third replacement removes a closing fence, with the line feed
    before it and the white space after it, and nothing else. *)
Lemma strip_close_fence_tail (body ws : jsstring) :
  all_whitespace ws = true ->
  strip_close_fence (body ++ LF :: FENCE ++ ws) = body.
Proof.
  intros H. induction body as [|c body IH].
  - change ([] ++ LF :: FENCE ++ ws) with (LF :: FENCE ++ ws).
    rewrite strip_close_fence_unfold.
    now rewrite (closing_fence_tail _ H).
  - rewrite strip_close_fence_unfold.
    rewrite closing_fence_early by discriminate.
    change (c :: strip_close_fence (body ++ LF :: FENCE ++ ws) = c :: body).
    now rewrite IH.
Qed.

(** A JSON text does not start with a backtick, so the second
    replacement leaves it alone. *)
Lemma strip_open_fence_json (body rest : jsstring) (v : value) :
  JSON_parse body = Some v ->
  strip_open_fence (body ++ rest) = body ++ rest.
Proof.
  destruct body as [|c r]; [discriminate|].
  intros H. unfold strip_open_fence, FENCE.
  change ((c :: r) ++ rest) with (c :: (r ++ rest)). cbn [strip_prefix].
  destruct (N.eqb_spec BACKTICK c) as [<-|]; [|reflexivity].
  vm_compute in H. discriminate H.
Qed.

Lemma stripCodeFences_string (s : jsstring) :
  stripCodeFences (VString s) = Normal (VString (strip_fences s)).
Proof. reflexivity. Qed.

Lemma tryParseJson_string (s : jsstring) :
  tryParseJson (VString s)
  = match JSON_parse s with Some v => v | None => VNull end.
Proof. reflexivity. Qed.

(** C7.  A JSON text between an opening fence, bare or marked json in
    any case, and a closing fence comes out of the fence stripper as it
    is, and then decodes; the fenced text of the payload whose titles
    are One and Two is stripped, parsed and normalized to these two
    titles. *)
Theorem fenced_json_decodes :
  (forall (tag body ws : jsstring) (v : value),
     tag = [] \/ strip_prefix_ci (str "json") tag = Some [] ->
     all_whitespace ws = true ->
     JSON_parse body = Some v ->
     stripCodeFences
       (VString (FENCE ++ tag ++ [LF] ++ body ++ [LF] ++ FENCE ++ ws))
       = Normal (VString body) /\
     tryParseJson (VString body) = v) /\
  stripCodeFences (VString fenced_one_two_text)
    = Normal (VString one_two_text) /\
  tryParseJson (VString one_two_text)
    = VObject [(str "titles", VString (str "One, Two"))] /\
  Public.normalizeTitlesFromJson (tryParseJson (VString one_two_text))
    = Normal [str "One"; str "Two"].
Proof.
  split; [|repeat split; reflexivity].
  intros tag body ws v Htag Hws Hv.
  split; [|now rewrite tryParseJson_string, Hv].
  rewrite stripCodeFences_string. f_equal. f_equal.
  unfold strip_fences.
  assert (Hopen : strip_open_fence (strip_json_fence
                    (FENCE ++ tag ++ [LF] ++ body ++ [LF] ++ FENCE ++ ws))
                  = body ++ LF :: FENCE ++ ws).
  { destruct Htag as [->|Htag].
    - (* a bare fence *)
      reflexivity.
    - (* a fence marked json *)
      unfold strip_json_fence.
      change (strip_prefix_ci (FENCE ++ str "json")
                (FENCE ++ tag ++ [LF] ++ body ++ [LF] ++ FENCE ++ ws))
        with (strip_prefix_ci (str "json")
                (tag ++ [LF] ++ body ++ [LF] ++ FENCE ++ ws)).
      rewrite strip_prefix_ci_app by exact Htag.
      change (drop_newline ([LF] ++ body ++ [LF] ++ FENCE ++ ws))
        with (body ++ LF :: FENCE ++ ws).
      exact (strip_open_fence_json body _ v Hv). }
  rewrite Hopen. now apply strip_close_fence_tail.
Qed.

End Fences.

(* ================================================================== *)
(** * The handlers *)
(* ================================================================== *)

Section Handlers.

Context {NM : NumberModel}.

Lemma decode_strings (stripped raw : jsstring) :
  decode (VString stripped) (VString raw)
  = coalesce (match JSON_parse stripped with Some v => v | None => VNull end)
             (match JSON_parse raw with Some v => v | None => VNull end).
Proof. reflexivity. Qed.

Lemma truthy_not_nullish (v : value) : truthy v = true -> nullish v = false.
Proof. destruct v; simpl; congruence. Qed.

(** The public handler from line 225 on, once the extractor has
    returned the string [raw]. *)
Lemma public_respond_string (resp : value) (raw : jsstring) :
  Public.extractText resp = Normal (VString raw) ->
  Public.respond resp
  = let parsed := decode (VString (strip_fences raw)) (VString raw) in
    if negb (truthy parsed)
    then Normal (Public.non_json_response (VString raw))
    else Public.respond_titles parsed.
Proof.
  intros H. unfold Public.respond. rewrite H. cbn [bind].
  rewrite stripCodeFences_string. reflexivity.
Qed.

Lemma public_post_reaches (h : host) (body raw : jsstring) :
  Public.reaches_decode h body raw ->
  fst (Public.POST h body)
  = try_catch
      (let parsed := decode (VString (strip_fences raw)) (VString raw) in
       if negb (truthy parsed)
       then Normal (Public.non_json_response (VString raw))
       else Public.respond_titles parsed)
      Public.on_error.
Proof.
  intros [Hkey (prompt & resp & Hprompt & Hgen & Hext)].
  unfold Public.POST. rewrite Hkey, Hprompt. cbn [fst].
  rewrite Hgen. cbn [bind]. now rewrite (public_respond_string _ _ Hext).
Qed.

Lemma public_on_error_status (e : value) (r : response) :
  Public.on_error e = Normal r -> status r = 500.
Proof.
  unfold Public.on_error.
  match goal with |- bind ?c _ = _ -> _ => destruct c as [m|e'] end;
    [|discriminate].
  cbn [bind]. intros H. injection H as <-. reflexivity.
Qed.

Lemma public_respond_titles_cases (v : value) (r : response) :
  try_catch (Public.respond_titles v) Public.on_error = Normal r ->
  (status r = 502 /\
   content r = error_raw_body Public.NO_TITLES v) \/
  status r = 200 \/ status r = 500.
Proof.
  unfold Public.respond_titles.
  destruct (Public.normalizeTitlesFromJson v) as [[|t ts]|e]; cbn.
  - intros H. injection H as <-. left. split; reflexivity.
  - intros H. injection H as <-. right. left. reflexivity.
  - intros H. right. right. exact (public_on_error_status _ _ H).
Qed.

(** C1, as amended.  On the public endpoint, for every request that
    gets as far as the decoding step with the extracted text [raw]:
    when decoding fails, or gives [null], for the fence-stripped text
    and for the unstripped text, the response is 502 with the error
    [Model returned non-JSON output] and the raw text attached; and
    when the payload taken (that of the stripped text, else that of the
    unstripped text) is truthy, it goes through the normalizer, and the
    response is not that one. *)
Theorem non_json_output_rule (h : host) (body raw : jsstring) :
  Public.reaches_decode h body raw ->
  (JSON_parse (strip_fences raw) = None \/
   JSON_parse (strip_fences raw) = Some VNull ->
   JSON_parse raw = None \/ JSON_parse raw = Some VNull ->
   fst (Public.POST h body)
   = Normal {| status := 502; headers := Public.corsHeaders;
               content :=
                 JsonBody
                   (VObject
                      [(str "error",
                        VString (str "Model returned non-JSON output"));
                       (str "raw", VString raw)]) |}) /\
  (forall v : value,
     truthy v = true ->
     JSON_parse (strip_fences raw) = Some v \/
     ((JSON_parse (strip_fences raw) = None \/
       JSON_parse (strip_fences raw) = Some VNull) /\
      JSON_parse raw = Some v) ->
     fst (Public.POST h body)
     = try_catch (Public.respond_titles v) Public.on_error /\
     fst (Public.POST h body)
     <> Normal (Public.non_json_response (VString raw))).
Proof.
  intros Hreach. rewrite (public_post_reaches _ _ _ Hreach).
  cbv zeta. rewrite decode_strings. split.
  - intros [-> | ->] [-> | ->]; reflexivity.
  - intros v Hv Hsel.
    assert (Hpay : coalesce
                     (match JSON_parse (strip_fences raw) with
                      | Some v0 => v0 | None => VNull end)
                     (match JSON_parse raw with
                      | Some v0 => v0 | None => VNull end) = v).
    { destruct Hsel as [-> | [[-> | ->] ->]];
        unfold coalesce; cbn [nullish];
        now rewrite ?(truthy_not_nullish _ Hv). }
    rewrite Hpay, Hv. cbn [negb]. split; [reflexivity|].
    intros Hbad.
    destruct (public_respond_titles_cases _ _ Hbad)
      as [[_ Hc] | [Hs | Hs]]; try discriminate Hs.
    unfold Public.non_json_response, error_raw_body in Hc.
    cbn [content] in Hc. discriminate Hc.
Qed.

(** C2.  The extractor of the internal route, given [undefined],
    returns [undefined], which is no string: none of its strategies
    applies and [JSON.stringify(undefined)] is [undefined].  The
    extractor of the public route returns the string [undefined] there,
    returns [undefined] when the response is a function, and throws on
    an object with an own [toString] property whose first candidate is
    [null]: the [catch] clause cannot convert it to a string. *)
Theorem extractText_not_total :
  Suggest.extractText VUndefined = Normal VUndefined /\
  Public.extractText VUndefined = Normal (VString (str "undefined")) /\
  (forall source throws result,
     Public.extractText (VFunction source throws result)
     = Normal VUndefined) /\
  Public.extractText
    (VObject [(str "toString", VNull); (str "candidates", VArray [VNull])])
  = Throw (error_object (str "Cannot convert object to primitive value")).
Proof. repeat split. Qed.

(** C8.  When the GEMINI_API_KEY credential is absent, both handlers
    answer with status 500 and the error [Missing GEMINI_API_KEY
    environment variable], and send nothing to the generation
    service. *)
Theorem missing_key_fails_fast (h : host) (body : jsstring) :
  GEMINI_API_KEY h = None ->
  Public.POST h body
  = (Normal {| status := 500; headers := Public.corsHeaders;
               content :=
                 JsonBody
                   (VObject
                      [(str "error",
                        VString
                          (str "Missing GEMINI_API_KEY environment variable"))])
            |}, []) /\
  Suggest.POST h body
  = (Normal {| status := 500; headers := [];
               content :=
                 JsonBody
                   (VObject
                      [(str "error",
                        VString
                          (str "Missing GEMINI_API_KEY environment variable"))])
            |}, []).
Proof.
  intros H. unfold Public.POST, Suggest.POST, api_key_missing.
  rewrite H. split; reflexivity.
Qed.

(** C9.  On the internal endpoint, for every request that gets as far
    as the decoding step with the extracted text [text]: when decoding
    fails for the fence-stripped text and for the unstripped text, the
    response is 200 with [text] as a text/plain body. *)
Theorem internal_plain_text_fallback (h : host) (body text : jsstring) :
  Suggest.reaches_decode h body text ->
  JSON_parse (strip_fences text) = None ->
  JSON_parse text = None ->
  fst (Suggest.POST h body)
  = Normal {| status := 200;
              headers := [(str "Content-Type",
                           str "text/plain; charset=utf-8")];
              content := TextBody (VString text) |}.
Proof.
  intros [Hkey (prompt & resp & Hprompt & Hgen & Hext)] H1 H2.
  unfold Suggest.POST. rewrite Hkey, Hprompt. cbn [fst].
  rewrite Hgen. cbn [bind]. unfold Suggest.respond. rewrite Hext.
  cbn [bind]. rewrite stripCodeFences_string. cbn [bind].
  rewrite decode_strings, H1, H2. reflexivity.
Qed.

End Handlers.

(* ================================================================== *)
(** * The request body *)
(* ================================================================== *)

Section RequestBody.

Context {NM : NumberModel}.



Lemma public_respond_status (resp : value) (r : response) :
  Public.respond resp = Normal r -> status r = 200 \/ status r = 502.
Proof.
  unfold Public.respond.
  destruct (Public.extractText resp) as [rawText|]; [|discriminate].
  cbn [bind]. destruct (stripCodeFences rawText) as [stripped|];
    [|discriminate].
  cbn [bind]. destruct (negb (truthy (decode stripped rawText))).
  - intros H. injection H as <-. now right.
  - unfold Public.respond_titles.
    destruct (Public.normalizeTitlesFromJson _) as [[|t ts]|];
      [| |discriminate]; cbn [bind]; intros H; injection H as <-; auto.
Qed.

Lemma public_post_status (h : host) (body : jsstring) (r : response) :
  fst (Public.POST h body) = Normal r ->
  status r = 200 \/ status r = 500 \/ status r = 502.
Proof.
  unfold Public.POST. destruct (api_key_missing h).
  - cbn [fst]. intros H. injection H as <-. auto.
  - destruct (buildUserPrompt _ _ _ _) as [prompt|e]; cbn [fst].
    + destruct (generateContent h prompt) as [resp|e]; cbn [bind try_catch].
      * destruct (Public.respond resp) as [r'|e] eqn:E.
        -- intros H. injection H as <-.
           destruct (public_respond_status _ _ E); auto.
        -- intros H. right. left. exact (public_on_error_status _ _ H).
      * intros H. right. left. exact (public_on_error_status _ _ H).
    + intros H. right. left. exact (public_on_error_status _ _ H).
Qed.






End RequestBody.

(* ================================================================== *)
(** * The theorems at work on concrete inputs *)
(* ================================================================== *)

Section Instances.

#[local] Existing Instance IntegerNumbers.model.

Lemma normalized_titles_invariants_witness :
  Public.normalizeTitlesFromJson abbc_payload
    = Normal [str "A"; str "B"; str "C"] /\
  source_field abbc_payload
    = Some (VString
              (join [COMMA] [str "A"; str " B"; str " B"; str " C"])) /\
  (forall t, In t [str "A"; str "B"; str "C"] ->
     t <> [] /\ trimmed t /\ length t <= 45) /\
  (forall i j a,
     nth_error [str "A"; str "B"; str "C"] i = Some a ->
     nth_error [str "A"; str "B"; str "C"] j = Some a -> i = j) /\
  first_occurrences segment_becomes
    [str "A"; str " B"; str " B"; str " C"] [str "A"; str "B"; str "C"].
Proof.
  split; [reflexivity|]. split; [reflexivity|].
  destruct (proj2 (proj2 (normalized_titles_invariants abbc_payload))
                  [str "A"; str "B"; str "C"] eq_refl)
    as (H1 & H2 & H3 & _).
  split; [exact H1|]. split; [exact H2|].
  apply H3; [discriminate| |reflexivity].
  intros g [<-|[<-|[<-|[<-|[]]]]] H; cbv in H; intuition discriminate.
Defined.

Lemma normalize_idempotent_witness :
  Public.normalizeTitlesFromJson abbc_payload
    = Normal [str "A"; str "B"; str "C"] /\
  Public.normalizeTitlesFromJson
    (Public.titles_payload [str "A"; str "B"; str "C"])
    = Normal [str "A"; str "B"; str "C"].
Proof.
  split; [reflexivity|].
  apply (normalize_idempotent abbc_payload). reflexivity.
Defined.

(** C5 as stated fails: on [{"titles": [{"name": "x"}]}] the public
    route finds the string under [name], the other normalizer prints
    the object. *)
Lemma normalizers_differ :
  Part001.normalizeTitlesFromJson named_payload
  <> Public.normalizeTitlesFromJson named_payload.
Proof. vm_compute. discriminate. Qed.

Lemma normalizers_agree_witness :
  Public.titles_source abbc_payload = Normal (VString (str "A, B, B, C")) /\
  agreeing_source (VString (str "A, B, B, C")) = true /\
  Part001.normalizeTitlesFromJson abbc_payload
  = Public.normalizeTitlesFromJson abbc_payload.
Proof.
  split; [reflexivity|]. split; [reflexivity|].
  apply (normalizers_agree abbc_payload (VString (str "A, B, B, C")));
    reflexivity.
Defined.

Lemma trimmed_unit (c : code_unit) :
  is_whitespace c = false -> trimmed [c].
Proof.
  intros H. split; intros d r E.
  - injection E as <- _. exact H.
  - destruct r as [|a [|b r]]; [|discriminate E|discriminate E].
    injection E as <-. exact H.
Defined.

Lemma normalize_comma_separated_witness :
  lookup (str "titles")
         [(str "summary", VNull); (str "titles", VString (str "x,, y "))]
    = Some (VString (join [COMMA] [str "x"; []; str " y "])) /\
  kept_segments [str "x"; []; str " y "] [str "x"; str "y"] /\
  Public.title_candidates
    (VObject [(str "summary", VNull); (str "titles", VString (str "x,, y "))])
  = Normal [str "x"; str "y"] /\
  Public.normalizeTitlesFromJson
    (VObject [(str "summary", VNull); (str "titles", VString (str "x,, y "))])
  = Normal [str "x"; str "y"].
Proof.
  assert (K : kept_segments [str "x"; []; str " y "] [str "x"; str "y"]).
  { apply (kept_title [] (str "x") []);
      [reflexivity | reflexivity | discriminate
      | now apply trimmed_unit |].
    apply kept_blank; [reflexivity|].
    apply (kept_title (str " ") (str "y") (str " "));
      [reflexivity | reflexivity | discriminate
      | now apply trimmed_unit | apply kept_nil]. }
  split; [reflexivity|]. split; [exact K|].
  destruct (proj1 normalize_comma_separated
              [(str "summary", VNull); (str "titles", VString (str "x,, y "))]
              [str "x"; []; str " y "] [str "x"; str "y"])
    as (Hc & _ & Hn); [reflexivity | discriminate | | exact K |].
  - intros g [<-|[<-|[<-|[]]]] H; cbv in H; intuition discriminate.
  - split; [exact Hc|]. apply Hn.
    + repeat constructor; cbv; intuition discriminate.
    + intros c [<-|[<-|[]]]; cbn; lia.
Defined.

Lemma fenced_json_decodes_witness :
  strip_prefix_ci (str "json") (str "JSON") = Some [] /\
  all_whitespace [LF; 32%N] = true /\
  JSON_parse (str "[1, 2]")
    = Some (VArray [VNumber 1%Z; VNumber 2%Z]) /\
  stripCodeFences
    (VString (FENCE ++ str "JSON" ++ [LF] ++ str "[1, 2]" ++ [LF] ++ FENCE
              ++ [LF; 32%N]))
    = Normal (VString (str "[1, 2]")) /\
  tryParseJson (VString (str "[1, 2]")) = VArray [VNumber 1%Z; VNumber 2%Z].
Proof.
  split; [reflexivity|]. split; [reflexivity|]. split; [reflexivity|].
  apply (proj1 fenced_json_decodes (str "JSON") (str "[1, 2]") [LF; 32%N]).
  - right. reflexivity.
  - reflexivity.
  - reflexivity.
Defined.

Lemma reaches_decode_constant (raw : jsstring) :
  Public.reaches_decode (constant_host (VString raw)) (str "{}") raw.
Proof.
  split; [reflexivity|].
  eexists. eexists. split; [reflexivity|]. split; [reflexivity|].
  destruct raw; reflexivity.
Defined.

(** C1 as stated fails: the service answers with the JSON text [null],
    which decodes, and the response is the non-JSON one all the same. *)
Lemma non_json_on_valid_json :
  ~ (fst (Public.POST (constant_host (VString (str "null"))) (str "{}"))
     = Normal (Public.non_json_response (VString (str "null")))
     <-> JSON_parse (strip_fences (str "null")) = None /\
         JSON_parse (str "null") = None).
Proof.
  intros [H _]. destruct (H eq_refl) as [_ E].
  vm_compute in E. discriminate E.
Qed.

(** A payload that decodes to a falsy value other than [null] is
    treated the same way on the public endpoint, where the internal
    endpoint returns it as JSON. *)
Lemma zero_payload_responses :
  fst (Public.POST (constant_host (VString (str "0"))) (str "{}"))
  = Normal (Public.non_json_response (VString (str "0"))) /\
  fst (Suggest.POST (constant_host (VString (str "0"))) (str "{}"))
  = Normal {| status := 200; headers := [];
              content := JsonBody (VNumber 0%Z) |}.
Proof. split; reflexivity. Qed.

Lemma non_json_output_rule_witness :
  Public.reaches_decode (constant_host (VString (str "hello")))
                        (str "{}") (str "hello") /\
  fst (Public.POST (constant_host (VString (str "hello"))) (str "{}"))
  = Normal {| status := 502; headers := Public.corsHeaders;
              content :=
                JsonBody
                  (VObject
                     [(str "error",
                       VString (str "Model returned non-JSON output"));
                      (str "raw", VString (str "hello"))]) |} /\
  Public.reaches_decode (constant_host (VString fenced_one_two_text))
                        (str "{}") fenced_one_two_text /\
  fst (Public.POST (constant_host (VString fenced_one_two_text)) (str "{}"))
  = try_catch
      (Public.respond_titles
         (VObject [(str "titles", VString (str "One, Two"))]))
      Public.on_error.
Proof.
  split; [apply reaches_decode_constant|].
  split.
  { apply (proj1 (non_json_output_rule _ _ _
                    (reaches_decode_constant (str "hello"))));
      left; reflexivity. }
  split; [apply reaches_decode_constant|].
  apply (proj2 (non_json_output_rule _ _ _
                  (reaches_decode_constant fenced_one_two_text))
               (VObject [(str "titles", VString (str "One, Two"))])).
  - reflexivity.
  - left. reflexivity.
Defined.

Lemma missing_key_fails_fast_witness :
  GEMINI_API_KEY keyless_host = None /\
  Public.POST keyless_host (str "{}")
  = (Normal {| status := 500; headers := Public.corsHeaders;
               content :=
                 JsonBody
                   (VObject
                      [(str "error",
                        VString
                          (str "Missing GEMINI_API_KEY environment variable"))])
            |}, []) /\
  Suggest.POST keyless_host (str "{}")
  = (Normal {| status := 500; headers := [];
               content :=
                 JsonBody
                   (VObject
                      [(str "error",
                        VString
                          (str "Missing GEMINI_API_KEY environment variable"))])
            |}, []).
Proof.
  split; [reflexivity|].
  apply (missing_key_fails_fast keyless_host (str "{}")). reflexivity.
Defined.

Lemma internal_plain_text_fallback_witness :
  Suggest.reaches_decode (constant_host (VString (str "hello")))
                         (str "{}") (str "hello") /\
  JSON_parse (strip_fences (str "hello")) = None /\
  JSON_parse (str "hello") = None /\
  fst (Suggest.POST (constant_host (VString (str "hello"))) (str "{}"))
  = Normal {| status := 200;
              headers := [(str "Content-Type",
                           str "text/plain; charset=utf-8")];
              content := TextBody (VString (str "hello")) |}.
Proof.
  assert (R : Suggest.reaches_decode (constant_host (VString (str "hello")))
                                     (str "{}") (str "hello")).
  { split; [reflexivity|].
    eexists. eexists. split; [reflexivity|]. split; reflexivity. }
  split; [exact R|]. split; [reflexivity|]. split; [reflexivity|].
  apply (internal_plain_text_fallback _ _ _ R); reflexivity.
Defined.


(** The shape scenarios of the route: strings and title-like objects
    in an array, a title of sixty letters, an empty titles string. *)
Example mixed_array_normalized :
  Public.normalizeTitlesFromJson mixed_payload
  = Normal [str "X"; str "Y"; str "Z"].
Proof. reflexivity. Qed.

Example long_title_cut :
  Public.normalizeTitlesFromJson long_payload = Normal [repeat 120%N 45].
Proof. reflexivity. Qed.

Example empty_titles_rejected :
  fst (Public.POST
         (constant_host
            (VString (str "{" ++ quoted "titles" ++ str ":" ++ quoted ""
                      ++ str "}")))
         (str "{}"))
  = Normal {| status := 502; headers := Public.corsHeaders;
              content :=
                error_raw_body Public.NO_TITLES
                  (VObject [(str "titles", VString [])]) |}.
Proof. reflexivity. Qed.

(** An array element that is an object with an own [toString]
    property and no string to offer cannot be printed: the normalizer
    throws, and the handler answers 500. *)
Example unprintable_element_throws :
  Public.normalizeTitlesFromJson
    (VObject [(str "titles", VArray [VObject [(str "toString", VNull)]])])
  = Throw (error_object (str "Cannot convert object to primitive value")) /\
  fst (Public.POST
         (constant_host
            (VString (str "{" ++ quoted "titles" ++ str ":[{"
                      ++ quoted "toString" ++ str ":null}]}")))
         (str "{}"))
  = Normal {| status := 500; headers := Public.corsHeaders;
              content :=
                error_body
                  (VString
                     (str "Cannot convert object to primitive value")) |}.
Proof. split; reflexivity. Qed.

End Instances.

(* ================================================================== *)
(** * More of the normalizers, the fence stripper and the handlers *)
(* ================================================================== *)

Section MoreNormalizer.

Context {NM : NumberModel}.

Lemma titles_source_non_object (json : value) :
  is_plain_object json = false ->
  Public.titles_source json = Normal VUndefined.
Proof.
  unfold Public.titles_source.
  destruct json as [| |b|n|s|items|props|source throws result];
    cbn [truthy typeof_object is_plain_object];
    rewrite ?andb_false_r; cbn [andb]; try discriminate; reflexivity.
Qed.

(** X1.  A payload that is no plain object (a string, a number, a
    boolean, an array or null) has no titles in either copy of the
    normalizer.  When such a payload is what the public endpoint
    decodes, the endpoint answers 502: a truthy one with
    "No titles produced" and the payload as raw; a falsy one (null,
    false, 0, the empty string) with "Model returned non-JSON output"
    and the text of the model as raw, before the normalizer is
    asked. *)
Theorem normalize_non_object (json : value) :
  is_plain_object json = false ->
  Public.normalizeTitlesFromJson json = Normal [] /\
  Part001.normalizeTitlesFromJson json = Normal [] /\
  forall (h : host) (body raw : jsstring),
    Public.reaches_decode h body raw ->
    decode (VString (strip_fences raw)) (VString raw) = json ->
    fst (Public.POST h body)
    = Normal {| status := 502; headers := Public.corsHeaders;
                content :=
                  JsonBody
                    (VObject
                       (if truthy json
                        then [(str "error",
                               VString (str "No titles produced"));
                              (str "raw", json)]
                        else [(str "error",
                               VString
                                 (str "Model returned non-JSON output"));
                              (str "raw", VString raw)])) |}.
Proof.
  intros H.
  assert (Hp : Public.normalizeTitlesFromJson json = Normal []).
  { unfold Public.normalizeTitlesFromJson, Public.title_candidates.
    rewrite (titles_source_non_object _ H). reflexivity. }
  split; [exact Hp|]. split.
  - unfold Part001.normalizeTitlesFromJson, Part001.title_candidates.
    rewrite part001_source, (titles_source_non_object _ H). reflexivity.
  - intros h body raw Hreach Hdec.
    rewrite (public_post_reaches _ _ _ Hreach). cbv zeta. rewrite Hdec.
    destruct (truthy json); cbn [negb]; [|reflexivity].
    unfold Public.respond_titles. rewrite Hp. reflexivity.
Qed.

Lemma titles_source_object (props : list (jsstring * value)) :
  Public.titles_source (VObject props)
  = Normal (match lookup (str "titles") props with
            | Some v => if nullish v
                        then match lookup (str "suggestions") props with
                             | Some w => w
                             | None => VUndefined
                             end
                        else v
            | None => match lookup (str "suggestions") props with
                      | Some w => w
                      | None => VUndefined
                      end
            end).
Proof.
  unfold Public.titles_source, coalesce_lazy. cbn [truthy typeof_object andb get bind].
  destruct (lookup (str "titles") props) as [v|]; cbn [nullish];
    [destruct (nullish v)|]; reflexivity.
Qed.

Lemma normalize_by_source (j1 j2 : value) :
  Public.titles_source j1 = Public.titles_source j2 ->
  Public.normalizeTitlesFromJson j1 = Public.normalizeTitlesFromJson j2 /\
  Part001.normalizeTitlesFromJson j1 = Part001.normalizeTitlesFromJson j2.
Proof.
  intros H. unfold Public.normalizeTitlesFromJson, Public.title_candidates,
    Part001.normalizeTitlesFromJson, Part001.title_candidates.
  rewrite !part001_source, H. split; reflexivity.
Qed.

Lemma titles_source_single (v : value) :
  Public.titles_source (VObject [(str "titles", v)])
  = Normal (if nullish v then VUndefined else v).
Proof.
  unfold Public.titles_source, coalesce_lazy.
  cbn [truthy typeof_object andb]. rewrite get_first_property.
  cbn [bind]. destruct (nullish v); reflexivity.
Qed.

Lemma normalize_nullish_source (json src : value) :
  Public.titles_source json = Normal src -> nullish src = true ->
  Public.normalizeTitlesFromJson json = Normal [] /\
  Part001.normalizeTitlesFromJson json = Normal [].
Proof.
  intros H Hn. unfold Public.normalizeTitlesFromJson, Public.title_candidates,
    Part001.normalizeTitlesFromJson, Part001.title_candidates.
  rewrite part001_source, H.
  destruct src; try discriminate Hn; split; reflexivity.
Qed.

(** X2.  [titles] wins when it is there; [suggestions] stands in when [titles]
    is absent or null. *)
Theorem titles_before_suggestions (props : list (jsstring * value)) (v : value) :
  (lookup (str "titles") props = Some v /\ nullish v = false) \/
  ((lookup (str "titles") props = None \/
    lookup (str "titles") props = Some VNull) /\
   lookup (str "suggestions") props = Some v) ->
  Public.normalizeTitlesFromJson (VObject props)
  = Public.normalizeTitlesFromJson (VObject [(str "titles", v)]) /\
  Part001.normalizeTitlesFromJson (VObject props)
  = Part001.normalizeTitlesFromJson (VObject [(str "titles", v)]).
Proof.
  intros H.
  assert (Hl : Public.titles_source (VObject props) = Normal v).
  { rewrite titles_source_object.
    destruct H as [[-> Hv] | [[-> | ->] ->]]; [now rewrite Hv| |]; reflexivity. }
  destruct (nullish v) eqn:Hv.
  - assert (Hr : exists w, Public.titles_source (VObject [(str "titles", v)])
                           = Normal w /\ nullish w = true).
    { rewrite titles_source_single, Hv. eexists. split; reflexivity. }
    destruct Hr as (w & Hw & Hwn).
    destruct (normalize_nullish_source _ _ Hl Hv) as [-> ->].
    destruct (normalize_nullish_source _ _ Hw Hwn) as [-> ->]. auto.
  - apply normalize_by_source. now rewrite Hl, titles_source_single, Hv.
Qed.

(** X3.  Titles given as one comma-separated string and the same titles
    given as an array of strings normalize to the same list, as long
    as no title holds a comma. *)
Theorem comma_string_as_array (L : list jsstring) :
  (forall t, In t L -> ~ In COMMA t) ->
  Public.normalizeTitlesFromJson
    (VObject [(str "titles", VString (join [COMMA] L))])
  = Public.normalizeTitlesFromJson (Public.titles_payload L).
Proof.
  intros H.
  unfold Public.normalizeTitlesFromJson, Public.title_candidates,
    Public.titles_payload.
  rewrite !titles_source_single. cbn [nullish bind].
  rewrite map_c_strings. cbn [bind].
  destruct L as [|t L]; [reflexivity|].
  now rewrite split_of_join by (discriminate || exact H).
Qed.

Lemma no_whitespace_trimmed (t : jsstring) :
  forallb (fun c => negb (is_whitespace c)) t = true -> trimmed t.
Proof.
  rewrite forallb_forall. intros H. split; intros c r ->.
  - apply negb_true_iff, H. now left.
  - apply negb_true_iff, H. apply in_app_iff. right. now left.
Qed.

Lemma clip_without_whitespace (t : jsstring) :
  forallb (fun c => negb (is_whitespace c)) t = true ->
  clip t = firstn MAX_TITLE t.
Proof.
  intros H. unfold clip.
  destruct (Nat.ltb_spec MAX_TITLE (length t)) as [Hlt|Hle].
  - apply trim_fix, no_whitespace_trimmed. unfold slice0.
    rewrite forallb_forall in *. intros c Hc. apply H.
    rewrite <- (firstn_skipn MAX_TITLE t). apply in_app_iff. now left.
  - now rewrite firstn_all2.
Qed.

(** X4.  A title without white space comes out as its first 45 code
    units: as it is up to length 45, cut to exactly 45 beyond. *)
Theorem title_cut_at_45 (t : jsstring) :
  t <> [] ->
  forallb (fun c => negb (is_whitespace c)) t = true ->
  Public.normalizeTitlesFromJson (Public.titles_payload [t])
  = Normal [firstn 45 t] /\
  length (firstn 45 t) = Nat.min 45 (length t).
Proof.
  intros Hne Hws. split; [|apply length_firstn].
  pose proof (no_whitespace_trimmed _ Hws) as Ht.
  unfold Public.normalizeTitlesFromJson, Public.title_candidates,
    Public.titles_payload.
  rewrite titles_source_single. cbn [nullish bind map map_c Public.element_title].
  rewrite (trim_fix _ Ht).
  apply non_empty_true in Hne. cbn [filter]. rewrite Hne.
  unfold Public.finish_titles. cbn [map filter].
  rewrite (trim_fix _ Ht), Hne. cbn [map].
  now rewrite (clip_without_whitespace _ Hws).
Qed.

Lemma trimStart_suffix (s : jsstring) :
  exists p, s = p ++ trimStart s.
Proof.
  induction s as [|c s [p IH]]; [now exists []|].
  simpl. destruct (is_whitespace c).
  - exists (c :: p). simpl. now rewrite <- IH.
  - now exists [].
Qed.

Lemma trimEnd_prefix (s : jsstring) :
  exists q, s = trimEnd s ++ q.
Proof.
  unfold trimEnd. destruct (trimStart_suffix (rev s)) as [p H].
  exists (rev p). rewrite <- rev_app_distr, <- H. now rewrite rev_involutive.
Qed.

(** What lines 107-109 keep of a candidate is a prefix of its trimmed
    form, the whole of it unless that is longer than 45. *)
Lemma title_of_prefix (c t : jsstring) :
  Public.title_of c = Some t ->
  exists rest, trim c = t ++ rest /\
               (rest <> [] -> MAX_TITLE < length (trim c)).
Proof.
  unfold Public.title_of. destruct (non_empty (trim c)) eqn:E; [|discriminate].
  intros H. injection H as <-. unfold clip.
  destruct (Nat.ltb_spec MAX_TITLE (length (trim c))) as [Hlt|Hle].
  - destruct (trim c) as [|a r] eqn:Et; [discriminate|].
    destruct (trim_trimmed c) as [Hhead _]. rewrite Et in Hhead.
    specialize (Hhead a r eq_refl).
    unfold trim, slice0.
    rewrite trimStart_fix
      by (intros x y Hxy; injection Hxy as <- _; exact Hhead).
    destruct (trimEnd_prefix (firstn MAX_TITLE (a :: r))) as [q Hq].
    exists (q ++ skipn MAX_TITLE (a :: r)). split; [|auto].
    rewrite app_assoc, <- Hq. now rewrite firstn_skipn.
  - exists []. rewrite app_nil_r. split; [reflexivity|]. congruence.
Qed.

(** X5.  The normalizer invents nothing: every title it returns is a
    candidate of the source, trimmed, or the beginning of one whose
    trimmed form is longer than 45. *)
Theorem titles_are_prefixes (json : value) (L : list jsstring) :
  Public.normalizeTitlesFromJson json = Normal L ->
  exists cands,
    Public.title_candidates json = Normal cands /\
    length L <= length cands /\
    forall t, In t L ->
      exists c rest, In c cands /\ trim c = t ++ rest /\
                     (rest <> [] -> 45 < length (trim c)).
Proof.
  unfold Public.normalizeTitlesFromJson.
  destruct (Public.title_candidates json) as [cands|]; [|discriminate].
  cbn [bind]. intros H. injection H as <-. exists cands.
  split; [reflexivity|]. split.
  - unfold Public.finish_titles.
    apply Nat.le_trans with (length (map clip (filter non_empty (map trim cands)))).
    + apply NoDup_incl_length; [apply array_from_set_NoDup|].
      intros x Hx. now apply array_from_set_In.
    + rewrite length_map.
      apply Nat.le_trans with (length (map trim cands));
        [apply filter_length_le | now rewrite length_map].
  - intros t Ht.
    destruct (finish_titles_spec cands) as (_ & _ & Hmem & _).
    apply Hmem in Ht. destruct Ht as (c & Hc & Hof).
    destruct (title_of_prefix _ _ Hof) as (rest & Hr & Hl).
    exists c, rest. auto.
Qed.

End MoreNormalizer.

Section OtherNormalizer.

Context {NM : NumberModel}.

Lemma map_string_trim_trimmed (titles : list value) (ts : list jsstring) :
  map_c Part001.string_trim titles = Normal ts ->
  forall t, In t ts -> trimmed t.
Proof.
  revert ts. induction titles as [|x titles IH]; intros ts; simpl.
  - intros H. injection H as <-. intros t [].
  - unfold Part001.string_trim at 1. destruct (to_string x) as [s|]; [|discriminate].
    cbn [bind]. destruct (map_c Part001.string_trim titles) as [ts'|];
      [|discriminate].
    cbn [bind]. intros H. injection H as <-. intros t [<-|Ht].
    + apply trim_trimmed.
    + now apply (IH ts').
Qed.

(** X6.  The normalizer of [src/unnamed/part_001] keeps the same
    guarantees on what it returns: non-empty trimmed titles of at most
    45 code units, none twice. *)
Theorem part001_titles_invariants (json : value) (L : list jsstring) :
  Part001.normalizeTitlesFromJson json = Normal L ->
  (forall t, In t L -> t <> [] /\ trimmed t /\ length t <= 45) /\
  NoDup L.
Proof.
  unfold Part001.normalizeTitlesFromJson.
  destruct (Part001.title_candidates json) as [titles|]; [|discriminate].
  cbn [bind].
  destruct (map_c Part001.string_trim titles) as [ts|] eqn:E; [|discriminate].
  cbn [bind]. intros H. injection H as <-.
  split; [|apply array_from_set_NoDup].
  intros t Ht. apply array_from_set_In, in_map_iff in Ht.
  destruct Ht as (u & <- & Hu). apply filter_In in Hu. destruct Hu as [Hu Hne].
  pose proof (map_string_trim_trimmed _ _ E u Hu) as Htr.
  apply non_empty_true in Hne. repeat split.
  - now apply clip_non_empty.
  - now apply clip_trimmed.
  - now apply clip_trimmed.
  - apply clip_length.
Qed.

(** X7.  Where the title-like property of an array element is a
    truthy value that is no string (a number, [true], an array, an
    object), the normalizer of [src/unnamed/part_001] throws: it calls
    [trim] on that value.  The normalizer of the public route returns
    a list there. *)
Theorem part001_throws_on_non_string_title
  (props : list (jsstring * value)) (x : value) (rest : list value) :
  lookup (str "title") props = Some x ->
  truthy_without_trim x = true ->
  (exists e,
     Part001.normalizeTitlesFromJson
       (VObject [(str "titles", VArray (VObject props :: rest))]) = Throw e) /\
  (has_own (str "toString") props = false ->
   exists L,
     Public.normalizeTitlesFromJson
       (VObject [(str "titles", VArray [VObject props])]) = Normal L).
Proof.
  intros Hl Hx. split.
  - unfold Part001.normalizeTitlesFromJson, Part001.title_candidates.
    rewrite part001_source, titles_source_single. cbn [nullish bind map_c].
    assert (He : exists e, Part001.element_title (VObject props) = Throw e).
    { unfold Part001.element_title, Part001.title_field, or_lazy, get_opt.
      cbn [nullish get bind]. rewrite Hl. cbn [bind].
      assert (Ht : truthy x = true).
      { destruct x; try discriminate Hx; try exact Hx; reflexivity. }
      rewrite Ht. cbn [bind]. rewrite Ht. cbn [bind]. rewrite Ht.
      destruct x as [| |b|n|s|items|xprops|source throws result];
        try discriminate Hx; cbn [bind Part001.trim_method];
        unfold throw_type_error; eauto.
      cbn [truthy_without_trim] in Hx. unfold has_own in Hx.
      destruct (lookup (str "trim") xprops); [discriminate|]. eauto. }
    destruct He as [e ->]. cbn [bind]. eauto.
  - intros Hp. apply normalize_returns.
    unfold Public.printable_titles. rewrite titles_source_single.
    cbn [nullish forallb Public.printable]. now rewrite Hp.
Qed.

End OtherNormalizer.

Section MoreFences.

Context {NM : NumberModel}.

Lemma strip_prefix_ci_suffix (p s r : jsstring) :
  strip_prefix_ci p s = Some r -> exists pre, s = pre ++ r.
Proof.
  revert s. induction p as [|a p IH]; intros s; simpl.
  - intros H. injection H as ->. now exists [].
  - destruct s as [|b s]; [discriminate|].
    destruct (a =? to_lower_ascii b)%N; [|discriminate].
    intros H. destruct (IH _ H) as [pre ->]. now exists (b :: pre).
Qed.

Lemma drop_newline_suffix (s : jsstring) : exists pre, s = pre ++ drop_newline s.
Proof.
  destruct s as [|c s]; [now exists []|]. simpl.
  destruct (c =? LF)%N; [now exists [c] | now exists []].
Qed.

Lemma strip_json_fence_suffix (s : jsstring) :
  exists pre, s = pre ++ strip_json_fence s.
Proof.
  unfold strip_json_fence.
  destruct (strip_prefix_ci _ s) as [r|] eqn:E; [|now exists []].
  destruct (strip_prefix_ci_suffix _ _ _ E) as [p1 ->].
  destruct (drop_newline_suffix r) as [p2 H].
  exists (p1 ++ p2). rewrite <- app_assoc. now rewrite <- H.
Qed.

Lemma strip_open_fence_suffix (s : jsstring) :
  exists pre, s = pre ++ strip_open_fence s.
Proof.
  unfold strip_open_fence.
  destruct (strip_prefix FENCE s) as [r|] eqn:E; [|now exists []].
  apply strip_prefix_sound in E. subst s.
  destruct (drop_newline_suffix r) as [p2 H].
  exists (FENCE ++ p2). rewrite <- app_assoc. now rewrite <- H.
Qed.

Lemma strip_close_fence_prefix (s : jsstring) :
  exists post, s = strip_close_fence s ++ post /\
               (post = [] \/ closing_fence post = true).
Proof.
  induction s as [|c s (post & IH & Hpost)].
  - exists []. rewrite strip_close_fence_unfold.
    destruct (closing_fence []); auto.
  - rewrite strip_close_fence_unfold.
    destruct (closing_fence (c :: s)) eqn:E.
    + exists (c :: s). auto.
    + exists post. split; [|exact Hpost]. simpl. now rewrite <- IH.
Qed.

(** X8.  The fence stripper only cuts: what it returns is a stretch of
    the text it was given, and what it cut at the end is a closing
    fence. *)
Theorem strip_fences_cuts (s : jsstring) :
  exists pre post,
    s = pre ++ strip_fences s ++ post /\
    (post = [] \/ closing_fence post = true) /\
    length (strip_fences s) <= length s.
Proof.
  unfold strip_fences.
  destruct (strip_json_fence_suffix s) as [p1 H1].
  destruct (strip_open_fence_suffix (strip_json_fence s)) as [p2 H2].
  destruct (strip_close_fence_prefix (strip_open_fence (strip_json_fence s)))
    as (post & H3 & Hpost).
  exists (p1 ++ p2), post.
  assert (E : s = (p1 ++ p2)
                  ++ strip_close_fence (strip_open_fence (strip_json_fence s))
                  ++ post).
  { rewrite <- H3, <- app_assoc, <- H2. exact H1. }
  split; [exact E|]. split; [exact Hpost|].
  apply (f_equal (@length _)) in E. rewrite !length_app in E. lia.
Qed.

Lemma strip_prefix_ci_backtick (p s r : jsstring) :
  strip_prefix_ci (BACKTICK :: p) s = Some r -> In BACKTICK s.
Proof.
  destruct s as [|b s]; [discriminate|]. cbn [strip_prefix_ci].
  destruct (BACKTICK =? to_lower_ascii b)%N eqn:E; [|discriminate].
  apply N.eqb_eq in E.
  intros _. left. unfold to_lower_ascii in E.
  destruct ((65 <=? b) && (b <=? 90))%N eqn:R; [|now symmetry].
  apply andb_true_iff in R. destruct R as [R1 R2].
  apply N.leb_le in R1, R2. unfold BACKTICK in E. lia.
Qed.

Lemma closing_fence_backtick (s : jsstring) :
  closing_fence s = true -> In BACKTICK s.
Proof.
  unfold closing_fence. intros H. apply orb_true_iff in H.
  destruct H as [H|H].
  - destruct (strip_prefix (LF :: FENCE) s) as [r|] eqn:E; [|discriminate].
    apply strip_prefix_sound in E. subst s. right. now left.
  - destruct (strip_prefix FENCE s) as [r|] eqn:E; [|discriminate].
    apply strip_prefix_sound in E. subst s. now left.
Qed.

Lemma strip_close_fence_plain (s : jsstring) :
  ~ In BACKTICK s -> strip_close_fence s = s.
Proof.
  induction s as [|c s IH]; intros H; rewrite strip_close_fence_unfold.
  - destruct (closing_fence []); reflexivity.
  - destruct (closing_fence (c :: s)) eqn:E.
    + apply closing_fence_backtick in E. contradiction.
    + rewrite IH; [reflexivity|]. intros Hin. apply H. now right.
Qed.

(** X9.  A text without a backtick goes through the fence stripper
    unchanged, so that the two decoding attempts are one. *)
Theorem unfenced_text_untouched (s : jsstring) :
  ~ In BACKTICK s ->
  strip_fences s = s /\
  stripCodeFences (VString s) = Normal (VString s) /\
  decode (VString (strip_fences s)) (VString s) = tryParseJson (VString s).
Proof.
  intros H.
  assert (E : strip_fences s = s).
  { unfold strip_fences, strip_json_fence, strip_open_fence.
    destruct (strip_prefix_ci (FENCE ++ str "json") s) as [r|] eqn:E1.
    { apply strip_prefix_ci_backtick in E1. contradiction. }
    destruct (strip_prefix FENCE s) as [r|] eqn:E2.
    { apply strip_prefix_sound in E2. subst s. exfalso. apply H. now left. }
    now apply strip_close_fence_plain. }
  split; [exact E|]. split.
  - now rewrite stripCodeFences_string, E.
  - rewrite E. unfold decode, coalesce.
    destruct (nullish (tryParseJson (VString s))); reflexivity.
Qed.

Lemma tail_keeps_backtick (p r x ws : jsstring) :
  p ++ r = x ++ BACKTICK :: ws -> length p <= length x -> In BACKTICK r.
Proof.
  intros E Hlen.
  assert (Hr : r = skipn (length p) (p ++ r)).
  { rewrite skipn_app, skipn_all, Nat.sub_diag. reflexivity. }
  rewrite E, skipn_app in Hr.
  replace (length p - length x) with 0 in Hr by lia.
  rewrite Hr. apply in_app_iff. right. now left.
Qed.

Lemma fence_last_backtick (b ws : jsstring) :
  b ++ FENCE ++ ws = (b ++ [BACKTICK; BACKTICK]) ++ BACKTICK :: ws.
Proof. rewrite <- app_assoc. reflexivity. Qed.

Lemma closing_fence_inside (b ws : jsstring) :
  b <> [] -> b <> [LF] -> closing_fence (b ++ FENCE ++ ws) = false.
Proof.
  intros Hne Hlf. unfold closing_fence. apply orb_false_iff. split.
  - destruct (strip_prefix (LF :: FENCE) _) as [r|] eqn:E; [|reflexivity].
    apply strip_prefix_sound in E.
    destruct (all_whitespace r) eqn:W; [|reflexivity].
    apply whitespace_no_backtick in W. exfalso. apply W.
    destruct b as [|c [|c2 b]]; [contradiction| |].
    + injection E as -> _. contradiction.
    + rewrite fence_last_backtick in E.
      symmetry in E. apply (tail_keeps_backtick _ _ _ _ E).
      rewrite length_app. simpl. lia.
  - destruct (strip_prefix FENCE _) as [r|] eqn:E; [|reflexivity].
    apply strip_prefix_sound in E.
    destruct (all_whitespace r) eqn:W; [|reflexivity].
    apply whitespace_no_backtick in W. exfalso. apply W.
    destruct b as [|c b]; [contradiction|].
    rewrite fence_last_backtick in E.
    symmetry in E. apply (tail_keeps_backtick _ _ _ _ E).
    rewrite length_app. simpl. lia.
Qed.

Lemma strip_close_fence_compact (body ws : jsstring) :
  all_whitespace ws = true ->
  (forall r, body <> r ++ [LF]) ->
  strip_close_fence (body ++ FENCE ++ ws) = body.
Proof.
  intros Hws. induction body as [|c body IH]; intros Hlast.
  - rewrite strip_close_fence_unfold.
    assert (E : closing_fence ([] ++ FENCE ++ ws) = true).
    { unfold closing_fence. apply orb_true_iff. right.
      change ([] ++ FENCE ++ ws) with (FENCE ++ ws).
      now rewrite strip_prefix_app. }
    now rewrite E.
  - rewrite strip_close_fence_unfold.
    rewrite closing_fence_inside;
      [|discriminate|exact (Hlast [])].
    change (c :: strip_close_fence (body ++ FENCE ++ ws) = c :: body).
    rewrite IH; [reflexivity|].
    intros r E. apply (Hlast (c :: r)). now rewrite E.
Qed.

(** A JSON text does not start with the letter j, in either case. *)
Lemma json_text_not_j (c : code_unit) (r : jsstring) (v : value) :
  JSON_parse (c :: r) = Some v -> (106 =? to_lower_ascii c)%N = false.
Proof.
  intros H. destruct (106 =? to_lower_ascii c)%N eqn:E; [|reflexivity].
  apply N.eqb_eq in E. unfold to_lower_ascii in E.
  destruct ((65 <=? c) && (c <=? 90))%N eqn:R.
  - assert (c = 74%N) by lia. subst c. vm_compute in H. discriminate H.
  - subst c. vm_compute in H. discriminate H.
Qed.

(** X10.  The line feeds of a fence are optional: a JSON text that
    neither starts nor ends with a line feed comes out of the fence
    stripper as it is, whether or not a line feed follows the opening
    marker and whether or not one precedes the closing fence. *)
Theorem compact_fence_decodes (tag nl1 body nl2 ws : jsstring) (v : value) :
  tag = [] \/ strip_prefix_ci (str "json") tag = Some [] ->
  nl1 = [] \/ nl1 = [LF] ->
  nl2 = [] \/ nl2 = [LF] ->
  all_whitespace ws = true ->
  JSON_parse body = Some v ->
  hd 0%N body <> LF ->
  last body 0%N <> LF ->
  stripCodeFences
    (VString (FENCE ++ tag ++ nl1 ++ body ++ nl2 ++ FENCE ++ ws))
  = Normal (VString body) /\
  tryParseJson (VString body) = v.
Proof.
  intros Htag Hnl1 Hnl2 Hws Hv Hhd Hla.
  assert (Hfirst : forall r, body <> LF :: r).
  { intros r E. apply Hhd. now rewrite E. }
  assert (Hlast : forall r, body <> r ++ [LF]).
  { intros r E. apply Hla. rewrite E. apply last_last. }
  split; [|now rewrite tryParseJson_string, Hv].
  rewrite stripCodeFences_string. f_equal. f_equal. unfold strip_fences.
  destruct body as [|c b] eqn:Eb; [discriminate Hv|]. rewrite <- Eb in *.
  assert (Hc : (c =? LF)%N = false).
  { apply N.eqb_neq. intros ->. apply (Hfirst b). exact Eb. }
  assert (Hdrop : forall rest, drop_newline (body ++ rest) = body ++ rest).
  { intros rest. rewrite Eb. cbn [app drop_newline]. now rewrite Hc. }
  assert (Hopen : strip_open_fence (strip_json_fence
                    (FENCE ++ tag ++ nl1 ++ body ++ nl2 ++ FENCE ++ ws))
                  = body ++ nl2 ++ FENCE ++ ws).
  { destruct Htag as [->|Htag].
    - (* a bare fence *)
      destruct Hnl1 as [->| ->]; [|reflexivity].
      assert (Hj : strip_json_fence (FENCE ++ [] ++ [] ++ body ++ nl2 ++ FENCE ++ ws)
                   = FENCE ++ body ++ nl2 ++ FENCE ++ ws).
      { unfold strip_json_fence.
        change (strip_prefix_ci (FENCE ++ str "json")
                  (FENCE ++ [] ++ [] ++ body ++ nl2 ++ FENCE ++ ws))
          with (strip_prefix_ci (str "json") (body ++ nl2 ++ FENCE ++ ws)).
        rewrite Eb. cbn [app]. change (str "json") with (106%N :: str "son").
        cbn [strip_prefix_ci].
        rewrite Eb in Hv. now rewrite (json_text_not_j _ _ _ Hv). }
      rewrite Hj. unfold strip_open_fence. rewrite strip_prefix_app.
      apply Hdrop.
    - (* a fence marked json *)
      unfold strip_json_fence.
      change (strip_prefix_ci (FENCE ++ str "json")
                (FENCE ++ tag ++ nl1 ++ body ++ nl2 ++ FENCE ++ ws))
        with (strip_prefix_ci (str "json")
                (tag ++ nl1 ++ body ++ nl2 ++ FENCE ++ ws)).
      rewrite strip_prefix_ci_app by exact Htag.
      assert (Hd : drop_newline (nl1 ++ body ++ nl2 ++ FENCE ++ ws)
                   = body ++ nl2 ++ FENCE ++ ws).
      { destruct Hnl1 as [->| ->]; [apply Hdrop | reflexivity]. }
      rewrite Hd. exact (strip_open_fence_json body _ v Hv). }
  rewrite Hopen.
  destruct Hnl2 as [->| ->].
  - now apply strip_close_fence_compact.
  - now apply strip_close_fence_tail.
Qed.

End MoreFences.

Section MoreHandlers.

Context {NM : NumberModel}.

Lemma public_on_error_shape (e : value) (r : response) :
  Public.on_error e = Normal r ->
  status r = 500 /\ headers r = Public.corsHeaders /\
  exists m, content r = error_body (VString m).
Proof.
  unfold Public.on_error.
  match goal with |- bind ?c _ = _ -> _ => destruct c as [m|e'] end;
    [|discriminate].
  cbn [bind]. intros H. injection H as <-. cbn. eauto.
Qed.

(** The responses of the public handler from line 225 on. *)
Lemma public_respond_shape (resp : value) (r : response) :
  Public.respond resp = Normal r ->
  headers r = Public.corsHeaders /\
  ((status r = 502 /\
    exists raw, content r = error_raw_body Public.NON_JSON raw) \/
   (status r = 502 /\
    exists parsed,
      Public.normalizeTitlesFromJson parsed = Normal [] /\
      content r = error_raw_body Public.NO_TITLES parsed) \/
   (status r = 200 /\
    exists parsed t ts,
      Public.normalizeTitlesFromJson parsed = Normal (t :: ts) /\
      content r
      = JsonBody
          (VObject
             [(str "titles", VArray (map VString (t :: ts)));
              (str "meta",
               VObject
                 [(str "count", VNumber (number_of_nat (length (t :: ts))));
                  (str "maxLength", VNumber (number_of_nat 45));
                  (str "model", VString (str "gemini-2.5-flash"))])]))).
Proof.
  unfold Public.respond.
  destruct (Public.extractText resp) as [rawText|]; [|discriminate].
  cbn [bind]. destruct (stripCodeFences rawText) as [stripped|];
    [|discriminate].
  cbn [bind]. destruct (negb (truthy (decode stripped rawText))).
  - intros H. injection H as <-. split; [reflexivity|]. left.
    split; [reflexivity|]. eexists. reflexivity.
  - unfold Public.respond_titles.
    destruct (Public.normalizeTitlesFromJson _) as [[|t ts]|] eqn:E;
      [| |discriminate]; cbn [bind]; intros H; injection H as <-;
      (split; [reflexivity|]).
    + right. left. split; [reflexivity|]. eexists. split; [exact E|reflexivity].
    + right. right. split; [reflexivity|].
      exists (decode stripped rawText), t, ts. split; [exact E|reflexivity].
Qed.

(** What the public handler answers, whatever the host and the
    request. *)
Lemma public_post_shape (h : host) (body : jsstring) (r : response) :
  fst (Public.POST h body) = Normal r ->
  headers r = Public.corsHeaders /\
  ((status r = 500 /\ exists m, content r = error_body (VString m)) \/
   (status r = 502 /\
    exists raw, content r = error_raw_body Public.NON_JSON raw) \/
   (status r = 502 /\
    exists parsed,
      Public.normalizeTitlesFromJson parsed = Normal [] /\
      content r = error_raw_body Public.NO_TITLES parsed) \/
   (status r = 200 /\
    exists parsed t ts,
      Public.normalizeTitlesFromJson parsed = Normal (t :: ts) /\
      content r
      = JsonBody
          (VObject
             [(str "titles", VArray (map VString (t :: ts)));
              (str "meta",
               VObject
                 [(str "count", VNumber (number_of_nat (length (t :: ts))));
                  (str "maxLength", VNumber (number_of_nat 45));
                  (str "model", VString (str "gemini-2.5-flash"))])]))).
Proof.
  assert (Herr : forall e, Public.on_error e = Normal r ->
            headers r = Public.corsHeaders /\
            ((status r = 500 /\ exists m, content r = error_body (VString m)) \/
             (status r = 502 /\
              exists raw, content r = error_raw_body Public.NON_JSON raw) \/
             (status r = 502 /\
              exists parsed,
                Public.normalizeTitlesFromJson parsed = Normal [] /\
                content r = error_raw_body Public.NO_TITLES parsed) \/
             (status r = 200 /\
              exists parsed t ts,
                Public.normalizeTitlesFromJson parsed = Normal (t :: ts) /\
                content r
                = JsonBody
                    (VObject
                       [(str "titles", VArray (map VString (t :: ts)));
                        (str "meta",
                         VObject
                           [(str "count",
                             VNumber (number_of_nat (length (t :: ts))));
                            (str "maxLength", VNumber (number_of_nat 45));
                            (str "model",
                             VString (str "gemini-2.5-flash"))])])))).
  { intros e He. destruct (public_on_error_shape _ _ He) as (Hs & Hh & Hm).
    split; [exact Hh|]. left. auto. }
  unfold Public.POST. destruct (api_key_missing h).
  - cbn [fst]. intros H. injection H as <-. split; [reflexivity|].
    left. split; [reflexivity|]. eexists. reflexivity.
  - destruct (buildUserPrompt _ _ _ _) as [prompt|e]; cbn [fst];
      [|apply Herr].
    destruct (generateContent h prompt) as [resp|e]; cbn [bind try_catch];
      [|apply Herr].
    destruct (Public.respond resp) as [r'|e] eqn:E; [|apply Herr].
    intros H. injection H as <-.
    destruct (public_respond_shape _ _ E) as [Hh Hc].
    split; [exact Hh|]. right. exact Hc.
Qed.

(** X11.  Every response of the public handler carries the three
    cross-origin headers, whatever its status. *)
Theorem public_always_cors (h : host) (body : jsstring) (r : response) :
  fst (Public.POST h body) = Normal r ->
  headers r
  = [(str "Access-Control-Allow-Origin", str "*");
     (str "Access-Control-Allow-Methods", str "POST, OPTIONS");
     (str "Access-Control-Allow-Headers", str "Content-Type, Authorization")]
  /\ headers Public.OPTIONS = headers r.
Proof.
  intros H. destruct (public_post_shape _ _ _ H) as [Hh _].
  rewrite Hh. split; reflexivity.
Qed.

(** X12.  A 200 of the public handler always carries titles: a list
    that is not empty, whose [count] is its length, of non-empty
    trimmed titles of at most 45 code units, none twice. *)
Theorem public_success_shape (h : host) (body : jsstring) (r : response) :
  fst (Public.POST h body) = Normal r ->
  status r = 200 ->
  exists titles,
    titles <> [] /\
    content r
    = JsonBody
        (VObject
           [(str "titles", VArray (map VString titles));
            (str "meta",
             VObject
               [(str "count", VNumber (number_of_nat (length titles)));
                (str "maxLength", VNumber (number_of_nat 45));
                (str "model", VString (str "gemini-2.5-flash"))])]) /\
    (forall t, In t titles -> t <> [] /\ trimmed t /\ length t <= 45) /\
    NoDup titles.
Proof.
  intros H Hs. destruct (public_post_shape _ _ _ H) as [_ Hc].
  destruct Hc as [[Hs' _] | [[Hs' _] | [[Hs' _] | [_ Hok]]]];
    try (rewrite Hs in Hs'; discriminate Hs').
  destruct Hok as (parsed & t & ts & Hn & Hcontent).
  exists (t :: ts). split; [discriminate|]. split; [exact Hcontent|].
  revert Hn. unfold Public.normalizeTitlesFromJson.
  destruct (Public.title_candidates parsed) as [cands|]; [|discriminate].
  cbn [bind]. intros Hn. injection Hn as Hn. rewrite <- Hn.
  destruct (finish_titles_spec cands) as (Hall & Hnd & _). auto.
Qed.

(** X13.  The public handler answers 502 in two cases only, each with
    its own message and attachment: the non-JSON message with the
    extracted text, or the no-titles message with a payload on which
    the normalizer returns the empty list; and its 500 carries a
    string as error. *)
Theorem public_error_shapes (h : host) (body : jsstring) (r : response) :
  fst (Public.POST h body) = Normal r ->
  (status r = 502 ->
   (exists raw,
      content r
      = JsonBody
          (VObject
             [(str "error", VString (str "Model returned non-JSON output"));
              (str "raw", raw)])) \/
   (exists parsed,
      Public.normalizeTitlesFromJson parsed = Normal [] /\
      content r
      = JsonBody
          (VObject
             [(str "error", VString (str "No titles produced"));
              (str "raw", parsed)]))) /\
  (status r = 500 ->
   exists m, content r = JsonBody (VObject [(str "error", VString m)])).
Proof.
  intros H. destruct (public_post_shape _ _ _ H) as [_ Hc]. split; intros Hs.
  - destruct Hc as [[Hs' _] | [[_ Hc] | [[_ Hc] | [Hs' _]]]];
      try (rewrite Hs in Hs'; discriminate Hs'); [left|right]; exact Hc.
  - destruct Hc as [[_ Hc] | [[Hs' _] | [[Hs' _] | [Hs' _]]]];
      try (rewrite Hs in Hs'; discriminate Hs'). exact Hc.
Qed.

End MoreHandlers.

Section ServiceCalls.

Context {NM : NumberModel}.

Lemma optional_line (x : value) (label : jsstring) :
  x = VUndefined \/ (exists s, x = VString s) ->
  exists l,
    (if truthy x
     then d <- to_string x ;; Normal [label ++ d]
     else Normal []) = Normal l.
Proof.
  intros [-> | [s ->]]; cbn [truthy]; [eauto|].
  destruct s; cbn; eauto.
Qed.

Lemma string_field_cases (raw : value) (k : string) :
  Public.string_field raw k = VUndefined \/
  exists s, Public.string_field raw k = VString s.
Proof.
  unfold Public.string_field.
  destruct (get raw (str k)) as [[]|]; eauto.
Qed.

Lemma keywords_field_cases (raw : value) :
  Public.keywords_field raw = VUndefined \/
  exists items, Public.keywords_field raw = VArray items /\
                forallb is_string items = true.
Proof.
  unfold Public.keywords_field.
  destruct (get raw (str "keywords")) as [[]|]; eauto.
  right. eexists. split; [reflexivity|].
  apply forallb_forall. intros x Hx. now apply filter_In in Hx.
Qed.

Lemma join_values_strings (sep : jsstring) (items : list value) :
  forallb is_string items = true ->
  exists j, join_values sep items = Normal j.
Proof.
  intros H. unfold join_values.
  assert (exists parts,
            map_c (fun x => if nullish x then Normal [] else to_string x) items
            = Normal parts) as [parts ->].
  { induction items as [|x items IH]; [cbn; eauto|].
    cbn [forallb] in H. apply andb_true_iff in H. destruct H as [Hx Hr].
    destruct (IH Hr) as [parts Hp]. cbn [map_c]. rewrite Hp.
    destruct x; try discriminate Hx. cbn. eauto. }
  cbn. eauto.
Qed.

(** The prompt of the public handler is built without throwing, from
    whatever body. *)
Lemma public_prompt_total (body : value) :
  exists prompt,
    buildUserPrompt (Public.description (Public.request_fields body))
                    (Public.keywords (Public.request_fields body))
                    (Public.niche (Public.request_fields body))
                    (Public.language (Public.request_fields body))
    = Normal prompt.
Proof.
  unfold Public.request_fields.
  set (raw := if truthy body && typeof_object body then body else VObject []).
  cbn [Public.description Public.keywords Public.niche Public.language].
  unfold buildUserPrompt.
  destruct (optional_line _ (str "Description: ")
              (string_field_cases raw "description")) as [l1 ->].
  destruct (optional_line _ (str "Niche: ")
              (string_field_cases raw "niche")) as [l3 H3].
  destruct (optional_line _ (str "Language: ")
              (string_field_cases raw "language")) as [l4 H4].
  cbn [bind].
  destruct (keywords_field_cases raw) as [-> | (items & -> & Hitems)].
  - unfold get_opt. cbn [nullish bind truthy].
    rewrite H3. cbn [bind]. rewrite H4. cbn. eauto.
  - unfold get_opt. cbn [nullish get]. rewrite eqb_refl. cbn [bind].
    destruct (truthy (VNumber (number_of_nat (length items)))).
    + destruct (join_values_strings (str ", ") items Hitems) as [j ->].
      cbn [bind to_string]. rewrite H3. cbn [bind]. rewrite H4. cbn. eauto.
    + cbn [bind]. rewrite H3. cbn [bind]. rewrite H4. cbn. eauto.
Qed.

Lemma public_post_called (h : host) (body : jsstring) :
  api_key_missing h = false ->
  exists prompt,
    snd (Public.POST h body) = [prompt] /\
    fst (Public.POST h body)
    = try_catch (resp <- generateContent h prompt ;; Public.respond resp)
                Public.on_error.
Proof.
  intros Hkey. unfold Public.POST. rewrite Hkey.
  destruct (public_prompt_total (request_json body)) as [prompt ->].
  exists prompt. split; reflexivity.
Qed.

(** X14.  With a key, the public handler sends exactly one prompt to
    the generation service, whatever the request body. *)
Theorem public_calls_service_once (h : host) (body : jsstring) :
  api_key_missing h = false ->
  exists prompt,
    snd (Public.POST h body) = [prompt] /\
    fst (Public.POST h body)
    = try_catch (resp <- generateContent h prompt ;; Public.respond resp)
                Public.on_error.
Proof.
  intros Hkey. unfold Public.POST. rewrite Hkey.
  destruct (public_prompt_total (request_json body)) as [prompt ->].
  exists prompt. split; reflexivity.
Qed.

Lemma suggest_on_error_total (e : value) :
  exists m,
    Suggest.on_error e
    = Normal {| status := 500; headers := []; content := error_body m |} /\
    truthy m = true.
Proof.
  unfold Suggest.on_error, or_lazy, get_opt.
  destruct (nullish e) eqn:N.
  - cbn. eexists. split; reflexivity.
  - destruct (get_returns e (str "message") N) as [x ->]. cbn [bind].
    destruct (truthy x) eqn:T; cbn [bind]; eexists; split;
      try reflexivity; exact T.
Qed.

End ServiceCalls.

Section MoreOutcomes.

Context {NM : NumberModel}.

Lemma suggest_post_called (h : host) (body : jsstring) :
  snd (Suggest.POST h body) <> [] ->
  exists prompt,
    snd (Suggest.POST h body) = [prompt] /\
    fst (Suggest.POST h body)
    = try_catch (resp <- generateContent h prompt ;; Suggest.respond resp)
                Suggest.on_error.
Proof.
  unfold Suggest.POST. destruct (api_key_missing h); [cbn; contradiction|].
  destruct (buildUserPrompt _ _ _ _) as [prompt|e]; cbn [fst snd];
    [|contradiction].
  intros _. exists prompt. split; reflexivity.
Qed.

Lemma get_message_non_object (e : value) :
  is_plain_object e = false ->
  get_opt e (str "message") = Normal VUndefined.
Proof.
  unfold get_opt.
  destruct e as [| |b|n|s|items|props|source throws result];
    try discriminate; reflexivity.
Qed.

(** X15.  An error thrown by the generation service is answered with
    status 500 on both endpoints.  An error object with the message
    [m] gives [m] as error, except that the internal handler replaces
    an empty message by [Unexpected error]; a thrown value that is no
    object gives [Unexpected error] on both. *)
Theorem upstream_error_answers_500 (h : host) (body : jsstring) (e : value) :
  api_key_missing h = false ->
  (forall prompt, generateContent h prompt = Throw e) ->
  snd (Suggest.POST h body) <> [] ->
  (forall m, e = error_object m ->
     fst (Public.POST h body)
     = Normal {| status := 500; headers := Public.corsHeaders;
                 content := JsonBody (VObject [(str "error", VString m)]) |} /\
     fst (Suggest.POST h body)
     = Normal {| status := 500; headers := [];
                 content :=
                   JsonBody
                     (VObject
                        [(str "error",
                          VString (match m with
                                   | [] => str "Unexpected error"
                                   | _ => m
                                   end))]) |}) /\
  (is_plain_object e = false ->
     fst (Public.POST h body)
     = Normal {| status := 500; headers := Public.corsHeaders;
                 content :=
                   JsonBody
                     (VObject
                        [(str "error", VString (str "Unexpected error"))]) |} /\
     fst (Suggest.POST h body)
     = Normal {| status := 500; headers := [];
                 content :=
                   JsonBody
                     (VObject
                        [(str "error", VString (str "Unexpected error"))]) |}).
Proof.
  intros Hkey Hgen Hcalled.
  destruct (public_post_called h body Hkey) as (p1 & _ & ->).
  destruct (suggest_post_called h body Hcalled) as (p2 & _ & ->).
  rewrite !Hgen. cbn [bind try_catch]. split.
  - intros m ->. split.
    + unfold Public.on_error, error_object. cbn [truthy typeof_object andb].
      change (has_own (str "message") [(str "message", VString m)]) with true.
      rewrite get_first_property. reflexivity.
    + unfold Suggest.on_error, or_lazy, get_opt, error_object.
      cbn [nullish]. rewrite get_first_property. cbn [bind truthy].
      destruct m; reflexivity.
  - intros He. split.
    + unfold Public.on_error.
      destruct e as [| |b|n|s|items|props|source throws result];
        try discriminate He; cbn [truthy typeof_object];
        rewrite ?andb_false_r; reflexivity.
    + unfold Suggest.on_error, or_lazy.
      now rewrite (get_message_non_object _ He).
Qed.

(** X16.  On the internal endpoint a decoded payload goes out as it
    is, with status 200, whenever it is not [null]: falsy payloads
    such as zero, [false] and the empty string included, which the
    public endpoint answers with its non-JSON response. *)
Theorem internal_json_passthrough (h : host) (body text : jsstring) (v : value) :
  Suggest.reaches_decode h body text ->
  nullish v = false ->
  JSON_parse (strip_fences text) = Some v \/
  ((JSON_parse (strip_fences text) = None \/
    JSON_parse (strip_fences text) = Some VNull) /\
   JSON_parse text = Some v) ->
  fst (Suggest.POST h body)
  = Normal {| status := 200; headers := []; content := JsonBody v |} /\
  (truthy v = false ->
   forall body',
     Public.reaches_decode h body' text ->
     fst (Public.POST h body')
     = Normal {| status := 502; headers := Public.corsHeaders;
                 content :=
                   JsonBody
                     (VObject
                        [(str "error",
                          VString (str "Model returned non-JSON output"));
                         (str "raw", VString text)]) |}).
Proof.
  intros [Hkey (prompt & resp & Hprompt & Hgen & Hext)] Hv Hsel.
  assert (Hpay : decode (VString (strip_fences text)) (VString text) = v).
  { rewrite decode_strings. unfold coalesce.
    destruct Hsel as [-> | [[-> | ->] ->]]; cbn [nullish]; now rewrite ?Hv. }
  split.
  - unfold Suggest.POST. rewrite Hkey, Hprompt. cbn [fst].
    rewrite Hgen. cbn [bind]. unfold Suggest.respond. rewrite Hext.
    cbn [bind]. rewrite stripCodeFences_string. cbn [bind].
    rewrite Hpay. destruct v; try discriminate Hv; reflexivity.
  - intros Hf body' Hreach.
    rewrite (public_post_reaches _ _ _ Hreach). cbv zeta.
    rewrite Hpay, Hf. reflexivity.
Qed.

Lemma stripCodeFences_throws (x : value) :
  lacks_replace x = true ->
  exists m, stripCodeFences x = Throw (error_object m).
Proof.
  destruct x; try discriminate; intros _; unfold stripCodeFences;
    cbn; eexists; reflexivity.
Qed.

(** X17.  When the extractor returns something that is neither a
    string nor an object, as the internal one does on [undefined], both
    handlers answer 500: the fence stripper throws on it. *)
Theorem non_string_extraction_500
  (h : host) (body : jsstring) (resp x : value) :
  api_key_missing h = false ->
  (forall prompt, generateContent h prompt = Normal resp) ->
  lacks_replace x = true ->
  (Public.extractText resp = Normal x ->
   exists r, fst (Public.POST h body) = Normal r /\ status r = 500) /\
  (Suggest.extractText resp = Normal x ->
   exists r, fst (Suggest.POST h body) = Normal r /\ status r = 500).
Proof.
  intros Hkey Hgen Hx.
  destruct (stripCodeFences_throws x Hx) as [m Hm]. split; intros Hext.
  - destruct (public_post_called h body Hkey) as (p1 & _ & ->).
    rewrite Hgen. cbn [bind]. unfold Public.respond. rewrite Hext.
    cbn [bind]. rewrite Hm. cbn [bind try_catch].
    unfold Public.on_error, error_object. cbn [truthy typeof_object andb].
    change (has_own (str "message") [(str "message", VString m)]) with true.
    rewrite get_first_property. cbn. eauto.
  - unfold Suggest.POST. rewrite Hkey.
    destruct (buildUserPrompt _ _ _ _) as [prompt|e]; cbn [fst].
    + rewrite Hgen. cbn [bind]. unfold Suggest.respond. rewrite Hext.
      cbn [bind]. rewrite Hm. cbn [bind try_catch].
      destruct (suggest_on_error_total (error_object m)) as (m' & -> & _).
      eauto.
    + destruct (suggest_on_error_total e) as (m' & -> & _). eauto.
Qed.

End MoreOutcomes.

Section Prompt.

Context {NM : NumberModel}.

Lemma join_two_last (sep a b : jsstring) (l : list jsstring) :
  exists pre, join sep (l ++ [a; b]) = pre ++ a ++ sep ++ b.
Proof.
  induction l as [|x l [pre IH]].
  - now exists [].
  - change ((x :: l) ++ [a; b]) with (x :: (l ++ [a; b])).
    rewrite join_cons by (destruct l; discriminate).
    rewrite IH. exists (x ++ sep ++ pre). now rewrite <- !app_assoc.
Qed.

(** X18.  Whatever the four fields, a prompt that is built ends with
    the two reminder lines; and a description that is a non-empty
    string opens it, on a line of its own. *)
Theorem prompt_frame (d k n l : value) (p : jsstring) :
  buildUserPrompt d k n l = Normal p ->
  (exists pre,
     p = pre ++ str "Respond in JSON only, no extra text." ++ [LF]
             ++ str "All titles must be <= 45 characters each.") /\
  (forall s, d = VString s -> s <> [] ->
     exists rest, p = str "Description: " ++ s ++ [LF] ++ rest).
Proof.
  unfold buildUserPrompt.
  destruct (if truthy d then _ else _) as [l1|] eqn:E1; [|discriminate].
  cbn [bind]. destruct (get_opt k (str "length")) as [len|]; [|discriminate].
  cbn [bind]. destruct (if truthy len then _ else _) as [l2|]; [|discriminate].
  cbn [bind]. destruct (if truthy n then _ else _) as [l3|]; [|discriminate].
  cbn [bind]. destruct (if truthy l then _ else _) as [l4|]; [|discriminate].
  cbn [bind]. intros H. injection H as <-. split.
  - rewrite !app_assoc. apply join_two_last.
  - intros s -> Hs. destruct s as [|c s]; [contradiction|].
    cbn in E1. injection E1 as <-.
    cbn [app].
    rewrite join_cons by (destruct l2, l3, l4; discriminate).
    eexists. reflexivity.
Qed.

(** X19.  A [keywords] field that is a non-empty string, not an
    array, makes the internal handler fail with status 500 before any
    call to the service: it has a length and no [join].  The public
    handler drops such a field. *)
Theorem internal_rejects_string_keywords
  (h : host) (body : jsstring) (props : list (jsstring * value))
  (c : code_unit) (s : jsstring) :
  (forall n, number_is_falsy (number_of_nat (S n)) = false) ->
  api_key_missing h = false ->
  request_json body = VObject props ->
  lookup (str "keywords") props = Some (VString (c :: s)) ->
  (exists r, Suggest.POST h body = (Normal r, []) /\ status r = 500) /\
  Public.keywords (Public.request_fields (request_json body)) = VUndefined.
Proof.
  intros Hlaw Hkey Hbody Hk. split.
  - unfold Suggest.POST. rewrite Hkey, Hbody.
    assert (Hf : Suggest.field (VObject props) "keywords" = VString (c :: s)).
    { unfold Suggest.field. cbn [truthy get]. now rewrite Hk. }
    rewrite Hf.
    assert (Ht : exists e,
      buildUserPrompt (Suggest.field (VObject props) "description")
        (VString (c :: s)) (Suggest.field (VObject props) "niche")
        (Suggest.field (VObject props) "language") = Throw e).
    { unfold buildUserPrompt.
      destruct (if truthy _ then _ else _) as [l1|e]; [|cbn; eauto].
      cbn [bind]. unfold get_opt. cbn [nullish get]. rewrite eqb_refl.
      cbn [bind truthy length]. rewrite Hlaw. cbn. eauto. }
    destruct Ht as [e ->].
    destruct (suggest_on_error_total e) as (m & -> & _). eauto.
  - rewrite Hbody. unfold Public.request_fields, Public.keywords_field.
    cbn [truthy typeof_object andb Public.keywords get]. now rewrite Hk.
Qed.

End Prompt.

Section DataResponses.

Context {NM : NumberModel}.

Lemma data_lookup (k : jsstring) (props : list (jsstring * value)) (x : value) :
  forallb (fun kv => function_free (snd kv)) props = true ->
  lookup k props = Some x -> function_free x = true.
Proof.
  induction props as [|[k' y] props IH]; [discriminate|].
  cbn [forallb lookup snd]. intros H. apply andb_true_iff in H.
  destruct H as [Hy Hr]. destruct (JsString.eqb k k').
  - intros E. now injection E as <-.
  - now apply IH.
Qed.

Lemma data_nth (items : list value) (i : nat) :
  forallb function_free items = true -> function_free (nth i items VUndefined) = true.
Proof.
  revert i. induction items as [|x items IH]; intros [|i] H;
    try reflexivity; cbn [forallb] in H; apply andb_true_iff in H;
    destruct H as [Hx Hr]; [exact Hx | now apply IH].
Qed.

Lemma data_get (v x : value) (k : jsstring) :
  function_free v = true -> get v k = Normal x -> function_free x = true.
Proof.
  destruct v as [| |b|n|s|items|props|source throws result]; cbn [get function_free];
    try discriminate; intros Hd H; try (injection H as <-; reflexivity).
  - injection H as <-.
    destruct (JsString.eqb k (str "length")); [reflexivity|].
    destruct (array_index k) as [i|]; [|reflexivity].
    destruct (nth_error s (N.to_nat i)); reflexivity.
  - injection H as <-.
    destruct (JsString.eqb k (str "length")); [reflexivity|].
    destruct (array_index k) as [i|]; [|reflexivity].
    now apply data_nth.
  - injection H as <-.
    destruct (lookup k props) as [y|] eqn:E; [|reflexivity].
    exact (data_lookup _ _ _ Hd E).
Qed.

Lemma data_get_opt (v x : value) (k : jsstring) :
  function_free v = true -> get_opt v k = Normal x -> function_free x = true.
Proof.
  unfold get_opt. destruct (nullish v).
  - intros _ H. now injection H as <-.
  - apply data_get.
Qed.

Lemma data_not_function (x : value) : function_free x = true -> is_function x = false.
Proof. destruct x; try reflexivity; discriminate. Qed.

(** [JSON.stringify] returns on data, and gives a string on all of it
    but [undefined]. *)
Lemma serialize_data (v : value) :
  function_free v = true ->
  forall consult,
    exists o, serialize consult v = Normal o /\ (o = None -> v = VUndefined).
Proof.
  induction v as [| |b|n|s|items IH|props IH|source throws result _]
    using value_induction; intros Hd consult; cbn [serialize];
    try (eexists; split; [reflexivity|]; intros E; (discriminate E || reflexivity)).
  - (* arrays *)
    cbn [function_free] in Hd.
    match goal with |- context [bind (?F items) _] => set (elements := F) end.
    assert (He : exists parts, elements items = Normal parts).
    { clear consult. induction items as [|x items IHi]; [cbn; eauto|].
      cbn [forallb] in Hd. apply andb_true_iff in Hd. destruct Hd as [Hx Hr].
      inversion IH as [|? ? Px Pr]; subst.
      destruct (IHi Pr Hr) as [parts Hp].
      destruct (Px Hx true) as (o & Ho & _).
      change (elements (x :: items))
        with (s <- serialize true x ;;
              ss <- elements items ;;
              Normal (match s with
                      | Some t => t
                      | None => str "null"
                      end :: ss)).
      rewrite Ho. cbn [bind]. rewrite Hp. cbn [bind]. eauto. }
    destruct He as [parts He].
    rewrite He. cbn [bind]. eexists. split; [reflexivity|].
    discriminate.
  - (* objects *)
    cbn [function_free] in Hd.
    match goal with
    | |- context [bind (?F props) _] => set (members := F)
    end.
    assert (Hm : exists ms, members props = Normal ms).
    { clear consult. induction props as [|[k x] props IHp]; [cbn; eauto|].
      cbn [forallb snd] in Hd. apply andb_true_iff in Hd.
      destruct Hd as [Hx Hr].
      inversion IH as [|? ? Px Pr]; subst. cbn [snd] in Px.
      destruct (IHp Pr Hr) as [ms Hp].
      destruct (Px Hx true) as (o & Ho & _).
      change (members ((k, x) :: props))
        with (s <- serialize true x ;;
              ms <- members props ;;
              Normal (match s with
                      | Some t => (quote_json_string k ++ str ":" ++ t) :: ms
                      | None => ms
                      end)).
      rewrite Ho. cbn [bind]. rewrite Hp. cbn [bind]. eauto. }
    destruct Hm as [ms Hm].
    assert (Hplain : exists t,
              (ms0 <- members props ;;
               Normal (Some (str "{" ++ join [COMMA] ms0 ++ str "}")))
              = Normal (Some t)).
    { rewrite Hm. cbn [bind]. eauto. }
    assert (Hsome : forall c : comp (option jsstring),
              (exists t, c = Normal (Some t)) ->
              exists o, c = Normal o /\ (o = None -> VObject props = VUndefined)).
    { intros c [t ->]. eexists. split; [reflexivity|]. discriminate. }
    destruct consult; [|apply Hsome, Hplain].
    apply Hsome. clear Hsome.
    revert Hplain. generalize (ms0 <- members props ;;
               Normal (Some (str "{" ++ join [COMMA] ms0 ++ str "}"))).
    intros plain Hplain. clear Hm IH.
    induction props as [|[k x] props IHp]; [exact Hplain|].
    cbn [forallb snd] in Hd. apply andb_true_iff in Hd. destruct Hd as [Hx Hr].
    destruct (JsString.eqb (str "toJSON") k).
    + destruct x; try exact Hplain. discriminate Hx.
    + apply IHp. exact Hr.
  - discriminate Hd.
Qed.

Lemma stringify_data (resp : value) :
  function_free resp = true -> resp <> VUndefined ->
  string_result (JSON_stringify resp).
Proof.
  intros Hd Hn. unfold JSON_stringify.
  destruct (serialize_data resp Hd true) as (o & -> & Ho). cbn [bind].
  destruct o; [exact I|]. now specialize (Ho eq_refl).
Qed.

Lemma public_from_candidates_string (c v : value) :
  Public.from_candidates c = Normal (Some v) -> exists s, v = VString s.
Proof.
  unfold Public.from_candidates.
  destruct c as [| | | | |[|first rest]| |]; try discriminate.
  destruct (get_opt first (str "content")) as [content|]; [|discriminate].
  cbn [bind]. destruct (get_opt content (str "parts")) as [parts|];
    [|discriminate].
  cbn [bind]. destruct (non_empty _).
  - intros H. injection H as <-. eauto.
  - destruct (if truthy content then _ else _) as [ct|]; [|discriminate].
    cbn [bind].
    match goal with
    | |- bind ?c _ = _ -> _ => destruct c as [textField|]; [|discriminate]
    end.
    cbn [bind]. destruct (non_empty (trim textField)); [|discriminate].
    intros H. injection H as <-. eauto.
Qed.

Lemma public_try_string (resp : value) :
  function_free resp = true -> string_result (Public.extractText_try resp).
Proof.
  intros Hd. unfold Public.extractText_try.
  set (is_obj := truthy resp && typeof_object resp).
  bind_step.
  assert (Ha : function_free a = true).
  { destruct is_obj; [exact (data_get _ _ _ Hd E)|].
    injection E as <-. reflexivity. }
  rewrite (data_not_function _ Ha), andb_false_r.
  bind_step.
  assert (Ha0 : function_free a0 = true).
  { destruct is_obj; [exact (data_get _ _ _ Hd E0)|].
    injection E0 as <-. reflexivity. }
  bind_step.
  assert (Ha1 : function_free a1 = true).
  { destruct (truthy a0); [exact (data_get _ _ _ Ha0 E1)|].
    injection E1 as <-. reflexivity. }
  rewrite (data_not_function _ Ha1), andb_false_r.
  bind_step.
  assert (Hn : resp <> VUndefined).
  { intros ->. discriminate E2. }
  destruct (is_string a2) eqn:Es.
  { destruct a2; try discriminate Es. exact I. }
  repeat bind_step.
  match goal with
  | H : Public.from_candidates _ = Normal ?f |- _ =>
      destruct f as [v|];
      [destruct (public_from_candidates_string _ _ H) as [s ->]; exact I|]
  end.
  repeat bind_step.
  destruct (non_empty _); [exact I|].
  destruct (is_string resp) eqn:Er.
  { destruct resp; try discriminate Er. exact I. }
  now apply stringify_data.
Qed.

Lemma suggest_from_candidates_string (c v : value) :
  Suggest.from_candidates c = Normal (Some v) -> exists s, v = VString s.
Proof.
  unfold Suggest.from_candidates.
  destruct c as [| | | | |[|first rest]| |]; try discriminate.
  destruct (get_opt first (str "content")) as [content|]; [|discriminate].
  cbn [bind]. destruct (get_opt content (str "parts")) as [parts|];
    [|discriminate].
  cbn [bind].
  match goal with
  | |- bind ?c _ = _ -> _ => destruct c as [joined|]; [|discriminate]
  end.
  cbn [bind]. destruct (non_empty joined).
  - intros H. injection H as <-. eauto.
  - match goal with
    | |- bind ?c _ = _ -> _ => destruct c as [textField|]; [|discriminate]
    end.
    cbn [bind]. destruct textField; try discriminate.
    destruct (non_empty (trim s)); [|discriminate].
    intros H. injection H as <-. eauto.
Qed.

Lemma suggest_try_string (resp : value) :
  function_free resp = true -> resp <> VUndefined ->
  string_result (Suggest.extractText_try resp).
Proof.
  intros Hd Hn. unfold Suggest.extractText_try.
  bind_step.
  assert (Ha : function_free a = true).
  { destruct (truthy resp); [exact (data_get _ _ _ Hd E)|].
    injection E as <-. reflexivity. }
  rewrite (data_not_function _ Ha), andb_false_r.
  bind_step.
  pose proof (data_get_opt _ _ _ Hd E0) as Ha0.
  bind_step.
  assert (Ha1 : function_free a1 = true).
  { destruct (truthy a0); [exact (data_get _ _ _ Ha0 E1)|].
    injection E1 as <-. reflexivity. }
  rewrite (data_not_function _ Ha1), andb_false_r.
  bind_step.
  destruct (is_string a2) eqn:Es.
  { destruct a2; try discriminate Es. exact I. }
  repeat bind_step.
  match goal with
  | H : Suggest.from_candidates _ = Normal ?f |- _ =>
      destruct f as [v|];
      [destruct (suggest_from_candidates_string _ _ H) as [s ->]; exact I|]
  end.
  repeat bind_step.
  destruct (non_empty _); [exact I|].
  destruct (is_string resp) eqn:Er.
  { destruct resp; try discriminate Er. exact I. }
  now apply stringify_data.
Qed.

Lemma public_extractText_data (resp : value) :
  function_free resp = true ->
  Public.printable resp = true ->
  exists s, Public.extractText resp = Normal (VString s).
Proof.
  intros Hd Hp. destruct (to_string_printable resp Hp) as [t Ht].
  pose proof (public_try_string resp Hd) as H.
  unfold Public.extractText.
  destruct (Public.extractText_try resp) as [v|e]; cbn [try_catch].
  - destruct v; try contradiction. eauto.
  - rewrite Ht. cbn. eauto.
Qed.

(** X20.  On a response that is data all the way down (no function
    anywhere) and that [String] can convert, the extractor of the
    public route returns a string; so does the extractor of the
    internal route unless the response is [undefined]. *)
Theorem extractText_string_on_data (resp : value) :
  function_free resp = true ->
  Public.printable resp = true ->
  (exists s, Public.extractText resp = Normal (VString s)) /\
  (resp <> VUndefined ->
   exists s, Suggest.extractText resp = Normal (VString s)).
Proof.
  intros Hd Hp. split; [now apply public_extractText_data|].
  destruct (to_string_printable resp Hp) as [t Ht].
  - intros Hn. pose proof (suggest_try_string resp Hd Hn) as H.
    unfold Suggest.extractText.
    destruct (Suggest.extractText_try resp) as [v|e]; cbn [try_catch].
    + destruct v; try contradiction. eauto.
    + rewrite Ht. cbn. eauto.
Qed.

End DataResponses.

Section DataPipeline.

Context {NM : NumberModel}.

Lemma replace_property_data k v props :
  function_free v = true -> props_data props = true ->
  props_data (replace_property k v props) = true.
Proof.
  intros Hv. unfold props_data.
  induction props as [|[k' x] props IH]; [reflexivity|].
  cbn [replace_property forallb snd]. intros H. apply andb_true_iff in H.
  destruct H as [Hx Hr]. destruct (JsString.eqb k k'); cbn [forallb snd].
  - now rewrite Hv, Hr.
  - now rewrite Hx, IH.
Qed.

Lemma insert_index_data i k v props :
  function_free v = true -> props_data props = true ->
  props_data (insert_index i k v props) = true.
Proof.
  intros Hv. unfold props_data.
  induction props as [|[k' x] props IH]; cbn [insert_index forallb snd].
  - intros _. now rewrite Hv.
  - intros H. pose proof H as H'. apply andb_true_iff in H.
    destruct H as [Hx Hr].
    destruct (array_index k') as [j|];
      [destruct (j <? i)%N|]; cbn [forallb snd];
      rewrite ?Hv, ?Hx, ?Hr, ?IH; auto.
Qed.

Lemma define_property_data k v props :
  function_free v = true -> props_data props = true ->
  props_data (define_property k v props) = true.
Proof.
  intros Hv Hp. unfold define_property. destruct (has_own k props).
  - now apply replace_property_data.
  - destruct (array_index k).
    + now apply insert_index_data.
    + unfold props_data in *. rewrite forallb_app, Hp. cbn. now rewrite Hv.
Qed.

Lemma complete_data v stack st' :
  function_free v = true -> forallb frame_data stack = true ->
  complete v stack = Some st' -> state_data st' = true.
Proof.
  intros Hv Hs. unfold complete, state_data.
  destruct stack as [|[items|props|props key] stack]; try discriminate;
    intros H; injection H as <-; cbn [fst snd forallb frame_data] in *.
  - now rewrite Hv.
  - apply andb_true_iff in Hs. destruct Hs as [Hi Hr].
    rewrite forallb_app, Hi, Hr. cbn. now rewrite Hv.
  - apply andb_true_iff in Hs. destruct Hs as [Hp Hr].
    rewrite (define_property_data _ _ _ Hv Hp), Hr. reflexivity.
Qed.

Lemma start_value_data t stack st' :
  forallb frame_data stack = true ->
  start_value t stack = Some st' -> state_data st' = true.
Proof.
  intros Hs. destruct t; cbn [start_value]; try discriminate;
    try (apply complete_data; [reflexivity | exact Hs]);
    intros H; injection H as <-; unfold state_data; cbn; now rewrite Hs.
Qed.

Lemma parse_step_data t st st' :
  state_data st = true -> parse_step t st = Some st' -> state_data st' = true.
Proof.
  destruct st as [stack e]. unfold state_data at 1. cbn [fst snd].
  intros H. apply andb_true_iff in H. destruct H as [Hs He].
  unfold parse_step.
  assert (Hpop : forall f rest, stack = f :: rest ->
            frame_data f = true /\ forallb frame_data rest = true).
  { intros f rest ->. cbn [forallb] in Hs. now apply andb_true_iff in Hs. }
  destruct e; try discriminate.
  - now apply start_value_data.
  - destruct t; try (now apply start_value_data).
    destruct stack as [|[items|props|props key] rest];
      try (now apply start_value_data).
    destruct (Hpop _ _ eq_refl) as [Hf Hr].
    apply complete_data; assumption.
  - destruct t; try discriminate;
      destruct stack as [|[items|props|props key] rest]; try discriminate;
      destruct (Hpop _ _ eq_refl) as [Hf Hr].
    + apply complete_data; assumption.
    + intros H. injection H as <-. unfold state_data. cbn.
      cbn in Hf. now rewrite Hf, Hr.
  - destruct t; try discriminate;
      destruct stack as [|[items|props|props key] rest]; try discriminate;
      destruct (Hpop _ _ eq_refl) as [Hf Hr].
    intros H. injection H as <-. unfold state_data. cbn.
    cbn in Hf. now rewrite Hf, Hr.
  - destruct t; try discriminate.
    intros H. injection H as <-. unfold state_data. cbn [fst snd].
    now rewrite Hs.
  - destruct t; try discriminate;
      destruct stack as [|[items|props|props key] rest]; try discriminate;
      destruct (Hpop _ _ eq_refl) as [Hf Hr];
      try (apply complete_data; assumption);
      intros H; injection H as <-; unfold state_data; cbn [fst snd];
      now rewrite Hs.
Qed.

Lemma parse_tokens_data ts st v :
  state_data st = true -> parse_tokens ts st = Some v -> function_free v = true.
Proof.
  revert st. induction ts as [|t ts IH]; intros st Hst; cbn [parse_tokens].
  - destruct st as [stack [| | | | | |w]]; try discriminate.
    intros H. injection H as <-. unfold state_data in Hst.
    now apply andb_true_iff in Hst.
  - destruct (parse_step t st) as [st'|] eqn:E; [|discriminate].
    apply IH. exact (parse_step_data _ _ _ Hst E).
Qed.

(** What [JSON.parse] returns holds no function. *)
Lemma JSON_parse_data (text : jsstring) (v : value) :
  JSON_parse text = Some v -> function_free v = true.
Proof.
  unfold JSON_parse. destruct (lex 0 text) as [ts|]; [|discriminate].
  now apply parse_tokens_data.
Qed.

End DataPipeline.

Section DataAnswers.

Context {NM : NumberModel}.

Lemma benign_bind {A B : Type} (c : comp A) (k : A -> comp B) :
  benign c -> (forall a, c = Normal a -> benign (k a)) -> benign (bind c k).
Proof. destruct c; cbn; auto. Qed.

Lemma own_method_data (m : value) :
  function_free m = true -> own_method_to_primitive m = Normal None.
Proof. destruct m; try reflexivity; discriminate. Qed.

Lemma object_to_string_benign (props : list (jsstring * value)) :
  props_data props = true -> benign (object_to_string props).
Proof.
  intros Hd. unfold object_to_string.
  destruct (lookup (str "toString") props) as [m|] eqn:E; [|exact I].
  rewrite (own_method_data _ (data_lookup _ _ _ Hd E)). cbn [bind].
  destruct (lookup (str "valueOf") props) as [m'|] eqn:E'.
  - rewrite (own_method_data _ (data_lookup _ _ _ Hd E')). cbn. eauto.
  - cbn. eauto.
Qed.

Lemma to_string_benign (v : value) : function_free v = true -> benign (to_string v).
Proof.
  induction v as [| |b|n|s|items IH|props _|source throws result _]
    using value_induction; intros Hd; cbn [to_string]; try exact I.
  - cbn [function_free] in Hd. apply benign_bind; [|intros; exact I].
    induction items as [|x items IHi]; [exact I|].
    cbn [forallb] in Hd. apply andb_true_iff in Hd. destruct Hd as [Hx Hr].
    inversion IH as [|? ? Px Pr]; subst.
    apply benign_bind.
    + destruct (nullish x); [exact I | now apply Px].
    + intros s _. apply benign_bind; [now apply IHi | intros; exact I].
  - now apply object_to_string_benign.
Qed.

Lemma title_field_benign (v : value) :
  nullish v = false -> benign (Public.title_field v).
Proof.
  intros H. destruct (title_field_returns v H) as [x ->]. exact I.
Qed.

Lemma element_title_benign (s : value) :
  function_free s = true -> benign (Public.element_title s).
Proof.
  intros Hd. unfold Public.element_title.
  assert (Hs : benign (t <- to_string s ;; Normal (trim t))).
  { apply benign_bind; [now apply to_string_benign | intros; exact I]. }
  destruct s as [| |b|n|s0|items|props|source throws result];
    try exact I; try exact Hs;
    cbn [truthy typeof_object]; rewrite ?andb_false_r; cbn [andb];
    try exact Hs.
  - destruct (title_field_returns (VArray items) eq_refl) as [val ->].
    cbn [bind]. destruct val; try exact I;
      destruct (find is_string _) as [[]|]; try exact I; exact Hs.
  - destruct (title_field_returns (VObject props) eq_refl) as [val ->].
    cbn [bind]. destruct val; try exact I;
      destruct (find is_string _) as [[]|]; try exact I; exact Hs.
Qed.

Lemma map_element_title_benign (items : list value) :
  forallb function_free items = true -> benign (map_c Public.element_title items).
Proof.
  induction items as [|x items IH]; [intros; exact I|].
  cbn [forallb map_c]. intros H. apply andb_true_iff in H.
  destruct H as [Hx Hr]. apply benign_bind.
  - now apply element_title_benign.
  - intros t _. apply benign_bind; [now apply IH | intros; exact I].
Qed.

(** On data the normalizer throws nothing but error objects. *)
Lemma normalize_benign (json : value) :
  function_free json = true -> benign (Public.normalizeTitlesFromJson json).
Proof.
  intros Hd. unfold Public.normalizeTitlesFromJson.
  apply benign_bind; [|intros; exact I].
  unfold Public.title_candidates.
  destruct (titles_source_returns json) as [src Hsrc]. rewrite Hsrc.
  cbn [bind].
  assert (Hs : function_free src = true).
  { revert Hsrc. unfold Public.titles_source, coalesce_lazy.
    set (obj := if truthy json && typeof_object json then json else VObject []).
    assert (Ho : function_free obj = true).
    { unfold obj. destruct (truthy json && typeof_object json); auto. }
    destruct (get obj (str "titles")) as [a|] eqn:Ea; [|discriminate].
    cbn [bind]. destruct (nullish a).
    - intros H. exact (data_get _ _ _ Ho H).
    - intros H. injection H as <-. exact (data_get _ _ _ Ho Ea). }
  destruct src as [| |b|n|s|items|props|source throws result];
    try exact I; cbn [truthy typeof_object]; rewrite ?andb_false_r;
    cbn [andb]; try exact I.
  - apply benign_bind; [|intros; exact I].
    now apply map_element_title_benign.
  - destruct (title_field_returns (VObject props) eq_refl) as [m ->].
    cbn [bind]. destruct m; exact I.
Qed.

Lemma public_on_error_object (m : jsstring) :
  Public.on_error (error_object m)
  = Normal {| status := 500; headers := Public.corsHeaders;
              content := error_body (VString m) |}.
Proof.
  unfold Public.on_error, error_object. cbn [truthy typeof_object andb].
  change (has_own (str "message") [(str "message", VString m)]) with true.
  now rewrite get_first_property.
Qed.

End DataAnswers.

Section AnswersSent.

Context {NM : NumberModel}.

Lemma get_opt_returns (v : value) (k : jsstring) :
  exists x, get_opt v k = Normal x.
Proof.
  unfold get_opt. destruct (nullish v) eqn:N; [eauto|].
  now apply get_returns.
Qed.

Lemma complete_defined (v : value) (stack : list frame)
  (st' : list frame * expect) (w : value) :
  v <> VUndefined ->
  complete v stack = Some st' -> snd st' = EEnd w -> w <> VUndefined.
Proof.
  intros Hv. unfold complete.
  destruct stack as [|[items|props|props key] stack]; try discriminate;
    intros H; injection H as <-; cbn [snd]; intros E;
    try discriminate E.
  injection E as <-. exact Hv.
Qed.

Lemma start_value_defined (t : token) (stack : list frame)
  (st' : list frame * expect) (w : value) :
  start_value t stack = Some st' -> snd st' = EEnd w -> w <> VUndefined.
Proof.
  destruct t; cbn [start_value]; try discriminate;
    try (apply complete_defined; discriminate);
    intros H; injection H as <-; cbn [snd]; discriminate.
Qed.

Lemma parse_step_defined (t : token) (st st' : list frame * expect)
  (w : value) :
  parse_step t st = Some st' -> snd st' = EEnd w -> w <> VUndefined.
Proof.
  destruct st as [stack e]. unfold parse_step.
  destruct e; try discriminate.
  - apply start_value_defined.
  - destruct t; try apply start_value_defined.
    destruct stack as [|[items|props|props key] rest];
      try apply start_value_defined.
    apply complete_defined. discriminate.
  - destruct t; try discriminate;
      destruct stack as [|[items|props|props key] rest]; try discriminate.
    + apply complete_defined. discriminate.
    + intros H; injection H as <-; cbn [snd]; discriminate.
  - destruct t; try discriminate;
      destruct stack as [|[items|props|props key] rest]; try discriminate.
    intros H; injection H as <-; cbn [snd]; discriminate.
  - destruct t; try discriminate.
    intros H; injection H as <-; cbn [snd]; discriminate.
  - destruct t; try discriminate;
      destruct stack as [|[items|props|props key] rest]; try discriminate;
      try (apply complete_defined; discriminate);
      intros H; injection H as <-; cbn [snd]; discriminate.
Qed.

Lemma parse_tokens_defined (ts : list token) :
  forall (st : list frame * expect) (v : value),
    (forall w, snd st = EEnd w -> w <> VUndefined) ->
    parse_tokens ts st = Some v -> v <> VUndefined.
Proof.
  induction ts as [|t ts IH]; intros st v Hst; cbn [parse_tokens].
  - destruct st as [stack [| | | | | |w]]; try discriminate.
    intros H. injection H as <-. now apply Hst.
  - destruct (parse_step t st) as [st'|] eqn:E; [|discriminate].
    apply IH. intros w. exact (parse_step_defined _ _ _ _ E).
Qed.

(** [JSON.parse] never returns [undefined]. *)
Lemma JSON_parse_defined (text : jsstring) (v : value) :
  JSON_parse text = Some v -> v <> VUndefined.
Proof.
  unfold JSON_parse. destruct (lex 0 text) as [ts|]; [|discriminate].
  apply parse_tokens_defined. cbn [snd]. discriminate.
Qed.

Lemma decode_data (stripped raw : jsstring) :
  function_free (decode (VString stripped) (VString raw)) = true /\
  decode (VString stripped) (VString raw) <> VUndefined.
Proof.
  rewrite decode_strings. unfold coalesce.
  destruct (JSON_parse stripped) as [v1|] eqn:E1;
    destruct (JSON_parse raw) as [v2|] eqn:E2;
    repeat match goal with
           | H : JSON_parse _ = Some _ |- _ =>
               pose proof (JSON_parse_defined _ _ H);
               apply JSON_parse_data in H
           end;
    match goal with
    | |- context [nullish ?x] => destruct (nullish x)
    end; split; auto; discriminate.
Qed.

(** A body without functions that is not [undefined] can be sent as
    JSON, and a string as text. *)
Lemma deliver_json (r : response) (d : value) :
  content r = JsonBody d ->
  function_free d = true -> d <> VUndefined ->
  exists res, deliver r = Normal res.
Proof.
  intros Hc Hd Hn. unfold deliver. rewrite Hc. unfold JSON_stringify.
  destruct (serialize_data d Hd true) as (o & -> & Ho). cbn [bind].
  destruct o as [t|]; [eauto|]. now elim Hn; apply Ho.
Qed.

Lemma deliver_error (r : response) (m : value) :
  content r = error_body m ->
  function_free m = true ->
  exists res, deliver r = Normal res.
Proof.
  intros Hc Hm. apply (deliver_json r _ Hc); [|discriminate].
  cbn. now rewrite Hm.
Qed.

Lemma deliver_text (r : response) (s : jsstring) :
  content r = TextBody (VString s) ->
  exists res, deliver r = Normal res.
Proof. intros Hc. unfold deliver. rewrite Hc. cbn. eauto. Qed.

Lemma strings_data (l : list jsstring) :
  forallb function_free (map VString l) = true.
Proof. induction l; [reflexivity | exact IHl]. Qed.

Lemma suggest_on_error_data (e : value) :
  function_free e = true ->
  exists m,
    Suggest.on_error e
    = Normal {| status := 500; headers := []; content := error_body m |} /\
    function_free m = true.
Proof.
  intros He. unfold Suggest.on_error, or_lazy.
  destruct (get_opt_returns e (str "message")) as [x Hx]. rewrite Hx.
  cbn [bind]. apply data_get_opt in Hx; [|exact He].
  destruct (truthy x); cbn [bind]; eexists; split; try reflexivity.
  exact Hx.
Qed.

Lemma error_object_data (m : jsstring) : function_free (error_object m) = true.
Proof. reflexivity. Qed.

Lemma map_to_string_benign (items : list value) :
  forallb function_free items = true ->
  benign (map_c (fun x => if nullish x then Normal [] else to_string x)
                items).
Proof.
  induction items as [|x items IH]; intros Hd; [exact I|].
  cbn [forallb] in Hd. apply andb_true_iff in Hd. destruct Hd as [Hx Hr].
  cbn [map_c]. apply benign_bind.
  - destruct (nullish x); [exact I | now apply to_string_benign].
  - intros s _. apply benign_bind; [now apply IH | intros; exact I].
Qed.

Lemma optional_line_benign (x : value) (label : jsstring) :
  function_free x = true ->
  benign (if truthy x
          then d <- to_string x ;; Normal [label ++ d]
          else Normal []).
Proof.
  intros Hx. destruct (truthy x); [|exact I].
  apply benign_bind; [now apply to_string_benign | intros; exact I].
Qed.

Lemma benign_type_error {A : Type} (message : string) :
  benign (@throw_type_error NM A message).
Proof. eexists. reflexivity. Qed.

(** Building the prompt from fields without functions throws nothing
    but error objects. *)
Lemma buildUserPrompt_benign (d k n l : value) :
  function_free d = true -> function_free k = true ->
  function_free n = true -> function_free l = true ->
  benign (buildUserPrompt d k n l).
Proof.
  intros Hd Hk Hn Hl. unfold buildUserPrompt.
  apply benign_bind; [now apply optional_line_benign|]. intros l1 _.
  destruct (get_opt_returns k (str "length")) as [len ->]. cbn [bind].
  apply benign_bind.
  - destruct (truthy len); [|exact I].
    apply benign_bind.
    + destruct k as [| |b|x|s|items|props|source throws result];
        try apply benign_type_error.
      * apply benign_bind; [|intros; exact I].
        unfold join_values. apply benign_bind; [|intros; exact I].
        now apply map_to_string_benign.
      * destruct (lookup (str "join") props) as [m|] eqn:L;
          [|apply benign_type_error].
        cbn [function_free] in Hk. apply (data_lookup _ _ _ Hk) in L.
        destruct m; try apply benign_type_error. discriminate L.
    + intros joined Hj. apply benign_bind; [|intros; exact I].
      apply to_string_benign.
      destruct k as [| |b|x|s|items|props|source throws result];
        try discriminate Hj.
      * destruct (join_values (str ", ") items); [|discriminate Hj].
        cbn [bind] in Hj. injection Hj as <-. reflexivity.
      * destruct (lookup (str "join") props) as [m|] eqn:L;
          [|discriminate Hj].
        cbn [function_free] in Hk. apply (data_lookup _ _ _ Hk) in L.
        destruct m; try discriminate Hj. discriminate L.
  - intros l2 _.
    apply benign_bind; [now apply optional_line_benign|]. intros l3 _.
    apply benign_bind; [now apply optional_line_benign|]. intros l4 _.
    exact I.
Qed.

Lemma request_json_data (body : jsstring) :
  function_free (request_json body) = true.
Proof.
  unfold request_json. destruct (JSON_parse body) as [v|] eqn:E;
    [now apply JSON_parse_data in E | reflexivity].
Qed.

Lemma suggest_field_data (body : jsstring) (k : string) :
  function_free (Suggest.field (request_json body) k) = true.
Proof.
  unfold Suggest.field.
  set (src := if truthy (request_json body) then request_json body
              else VObject []).
  assert (Hs : function_free src = true).
  { unfold src. destruct (truthy _); [apply request_json_data | reflexivity]. }
  destruct (get src (str k)) as [v|e] eqn:E; [|reflexivity].
  exact (data_get _ _ _ Hs E).
Qed.

(** What the extractor of the internal route does on a response
    without functions. *)
Lemma suggest_extract_data (resp : value) :
  function_free resp = true ->
  (exists s, Suggest.extractText resp = Normal (VString s)) \/
  Suggest.extractText resp = Normal VUndefined \/
  (exists m, Suggest.extractText resp = Throw (error_object m)).
Proof.
  intros Hd.
  destruct resp as [| |b|n|s|items|props|source throws result] eqn:Er;
    try (right; left; reflexivity);
    rewrite <- Er in *;
    (assert (Hn : resp <> VUndefined) by (rewrite Er; discriminate));
    pose proof (suggest_try_string resp Hd Hn) as H;
    pose proof (to_string_benign resp Hd) as B;
    unfold Suggest.extractText;
    (destruct (Suggest.extractText_try resp) as [v|e]; cbn [try_catch];
     [destruct v; try contradiction; left; eauto|]);
    (destruct (to_string resp) as [t|e']; cbn [bind];
     [left; eauto | right; right; destruct B as [m ->]; eauto]).
Qed.

(** The internal route's response step on a response without
    functions: a response that can be sent, or an error object. *)
Lemma suggest_respond_data (resp : value) :
  function_free resp = true ->
  (exists r res,
     Suggest.respond resp = Normal r /\ status r = 200 /\
     deliver r = Normal res) \/
  (exists m, Suggest.respond resp = Throw (error_object m)).
Proof.
  intros Hd. unfold Suggest.respond.
  destruct (suggest_extract_data resp Hd) as [[s ->] | [-> | [m ->]]];
    cbn [bind].
  - rewrite stripCodeFences_string. cbn [bind].
    destruct (decode_data (strip_fences s) s) as [Hp Hu].
    left. destruct (decode (VString (strip_fences s)) (VString s)) eqn:E;
      try (eexists; destruct (deliver_json
                                {| status := 200; headers := [];
                                   content := JsonBody _ |} _ eq_refl Hp Hu)
             as [res Hres]; exists res; split; [reflexivity|];
           split; [reflexivity | exact Hres]).
    eexists.
    destruct (deliver_text
                {| status := 200;
                   headers := [(str "Content-Type",
                                str "text/plain; charset=utf-8")];
                   content := TextBody (VString s) |} s eq_refl)
      as [res Hres].
    exists res. split; [reflexivity|]. split; [reflexivity | exact Hres].
  - right. eexists. reflexivity.
  - right. eauto.
Qed.

(** X21.  When the generation service returns and throws only values
    without functions, the internal handler always answers: it returns
    a response with status 200 or 500 whose body can be sent, and
    nothing escapes its catch clause.  The catch clause of the public
    handler can throw itself: when the error thrown by the service has
    a [message] that [String] cannot convert, the conversion's error
    escapes the handler. *)
Theorem internal_always_answers (h : host) (body : jsstring) :
  (forall prompt resp,
     generateContent h prompt = Normal resp -> function_free resp = true) ->
  (forall prompt e,
     generateContent h prompt = Throw e -> function_free e = true) ->
  (exists r res,
     fst (Suggest.POST h body) = Normal r /\
     (status r = 200 \/ status r = 500) /\
     deliver r = Normal res) /\
  (forall m e',
     api_key_missing h = false ->
     (forall prompt,
        generateContent h prompt = Throw (VObject [(str "message", m)])) ->
     to_string m = Throw e' ->
     fst (Public.POST h body) = Throw e').
Proof.
  intros Hret Hthrow.
  assert (Herr : forall e,
            function_free e = true ->
            exists r res,
              Suggest.on_error e = Normal r /\
              (status r = 200 \/ status r = 500) /\
              deliver r = Normal res).
  { intros e He. destruct (suggest_on_error_data e He) as (m & -> & Hm).
    destruct (deliver_error
                {| status := 500; headers := []; content := error_body m |}
                m eq_refl Hm) as [res Hres].
    eexists. exists res. split; [reflexivity|]. split; [now right|].
    exact Hres. }
  split.
  - unfold Suggest.POST. destruct (api_key_missing h).
    + destruct (deliver_error
                  {| status := 500; headers := [];
                     content := error_body (VString MISSING_KEY) |}
                  (VString MISSING_KEY) eq_refl eq_refl) as [res Hres].
      eexists. exists res. cbn [fst]. split; [reflexivity|].
      split; [now right | exact Hres].
    + pose proof (buildUserPrompt_benign
                    _ _ _ _
                    (suggest_field_data body "description")
                    (suggest_field_data body "keywords")
                    (suggest_field_data body "niche")
                    (suggest_field_data body "language")) as B.
      destruct (buildUserPrompt _ _ _ _) as [prompt|e]; cbn [fst].
      * destruct (generateContent h prompt) as [resp|e] eqn:G;
          cbn [bind try_catch].
        -- destruct (suggest_respond_data resp (Hret _ _ G))
             as [(r & res & -> & Hs & Hres) | [m ->]]; cbn [try_catch].
           ++ exists r, res. split; [reflexivity|]. split; [now left|].
              exact Hres.
           ++ apply Herr, error_object_data.
        -- apply Herr. exact (Hthrow _ _ G).
      * destruct B as [m ->]. apply Herr, error_object_data.
  - intros m e' Hkey Hgen Hm.
    destruct (public_post_called h body Hkey) as (prompt & _ & ->).
    rewrite Hgen. cbn [bind try_catch].
    unfold Public.on_error. cbn [truthy typeof_object andb].
    change (has_own (str "message") [(str "message", m)]) with true.
    rewrite get_first_property. cbn [bind].
    now rewrite Hm.
Qed.

Lemma answered (c : comp response) (r : response) :
  c = Normal r ->
  (exists res, deliver r = Normal res) ->
  exists r res, c = Normal r /\ deliver r = Normal res.
Proof. intros -> [res H]. eauto. Qed.

(** X22.  When the generation service returns a value without
    functions that [String] can convert, the public handler always
    answers: it returns a response, with status 200, 500 or 502, whose
    body can be sent, and nothing escapes it. *)
Theorem public_answers_on_data (h : host) (body : jsstring) (resp : value) :
  api_key_missing h = false ->
  (forall prompt, generateContent h prompt = Normal resp) ->
  function_free resp = true ->
  Public.printable resp = true ->
  exists r res,
    fst (Public.POST h body) = Normal r /\
    (status r = 200 \/ status r = 500 \/ status r = 502) /\
    deliver r = Normal res.
Proof.
  intros Hkey Hgen Hd Hp.
  assert (exists r res, fst (Public.POST h body) = Normal r
                        /\ deliver r = Normal res) as (r & res & Hr & Hres).
  { destruct (public_post_called h body Hkey) as (prompt & _ & ->).
    rewrite Hgen. cbn [bind].
    destruct (public_extractText_data resp Hd Hp) as [s Hs].
    rewrite (public_respond_string _ _ Hs). cbv zeta.
    destruct (decode_data (strip_fences s) s) as [Hpd Hpu].
    destruct (negb (truthy _)).
    { cbn [try_catch]. apply (answered _ _ eq_refl).
      eapply deliver_json; [reflexivity | reflexivity | discriminate]. }
    set (parsed := decode (VString (strip_fences s)) (VString s)) in *.
    unfold Public.respond_titles.
    pose proof (normalize_benign parsed Hpd) as Hb.
    destruct (Public.normalizeTitlesFromJson parsed) as [[|t ts]|e];
      cbn [bind try_catch].
    - apply (answered _ _ eq_refl).
      eapply deliver_json; [reflexivity | | discriminate].
      cbn. now rewrite Hpd.
    - apply (answered _ _ eq_refl).
      eapply deliver_json; [reflexivity | | discriminate].
      cbn [function_free forallb snd]. rewrite strings_data. reflexivity.
    - destruct Hb as [m ->]. rewrite public_on_error_object.
      apply (answered _ _ eq_refl).
      eapply deliver_error; reflexivity. }
  exists r, res. split; [exact Hr|].
  split; [exact (public_post_status _ _ _ Hr) | exact Hres].
Qed.

End AnswersSent.



Section MoreInstances.

#[local] Existing Instance IntegerNumbers.model.

Lemma normalize_non_object_witness :
  is_plain_object (VArray [VBool true]) = false /\
  Public.normalizeTitlesFromJson (VArray [VBool true]) = Normal [] /\
  Part001.normalizeTitlesFromJson (VArray [VBool true]) = Normal [] /\
  fst (Public.POST (constant_host (VString (str "[true]"))) (str "{}"))
  = Normal {| status := 502; headers := Public.corsHeaders;
              content :=
                JsonBody
                  (VObject [(str "error", VString (str "No titles produced"));
                            (str "raw", VArray [VBool true])]) |}.
Proof.
  split; [reflexivity|].
  destruct (normalize_non_object (VArray [VBool true]) eq_refl)
    as (H1 & H2 & H3).
  split; [exact H1|]. split; [exact H2|].
  apply (H3 (constant_host (VString (str "[true]"))) (str "{}") (str "[true]")).
  - apply reaches_decode_constant.
  - reflexivity.
Defined.

Lemma titles_before_suggestions_witness :
  Public.normalizeTitlesFromJson
    (VObject [(str "titles", VNull); (str "suggestions", VString (str "A, B"))])
  = Public.normalizeTitlesFromJson
      (VObject [(str "titles", VString (str "A, B"))]) /\
  Part001.normalizeTitlesFromJson
    (VObject [(str "titles", VNull); (str "suggestions", VString (str "A, B"))])
  = Part001.normalizeTitlesFromJson
      (VObject [(str "titles", VString (str "A, B"))]).
Proof.
  apply (titles_before_suggestions
           [(str "titles", VNull); (str "suggestions", VString (str "A, B"))]
           (VString (str "A, B"))).
  right. split; [right; reflexivity | reflexivity].
Defined.

Lemma comma_string_as_array_witness :
  Public.normalizeTitlesFromJson
    (VObject [(str "titles", VString (join [COMMA] [str "a"; str " b"]))])
  = Public.normalizeTitlesFromJson
      (Public.titles_payload [str "a"; str " b"]).
Proof.
  apply (comma_string_as_array [str "a"; str " b"]).
  intros t Ht H. simpl in Ht.
  destruct Ht as [<- | [<- | []]]; simpl in H; unfold COMMA in H; lia.
Defined.

Lemma title_cut_at_45_witness :
  Public.normalizeTitlesFromJson (Public.titles_payload [repeat 120%N 60])
  = Normal [firstn 45 (repeat 120%N 60)] /\
  length (firstn 45 (repeat 120%N 60)) = Nat.min 45 (length (repeat 120%N 60)).
Proof.
  apply (title_cut_at_45 (repeat 120%N 60)).
  - simpl. discriminate.
  - reflexivity.
Defined.

Lemma titles_are_prefixes_witness :
  exists cands,
    Public.title_candidates long_payload = Normal cands /\
    length [repeat 120%N 45] <= length cands /\
    forall t, In t [repeat 120%N 45] ->
      exists c rest, In c cands /\ trim c = t ++ rest /\
                     (rest <> [] -> 45 < length (trim c)).
Proof.
  apply (titles_are_prefixes long_payload [repeat 120%N 45]). reflexivity.
Defined.

Lemma part001_titles_invariants_witness :
  (forall t, In t [str "A"; str "B"; str "C"] ->
     t <> [] /\ trimmed t /\ length t <= 45) /\
  NoDup [str "A"; str "B"; str "C"].
Proof.
  apply (part001_titles_invariants abbc_payload [str "A"; str "B"; str "C"]).
  reflexivity.
Defined.

Lemma part001_throws_on_non_string_title_witness :
  (exists e,
     Part001.normalizeTitlesFromJson
       (VObject [(str "titles",
                  VArray [VObject [(str "title", VBool true)]])]) = Throw e) /\
  (has_own (str "toString") [(str "title", VBool true)] = false ->
   exists L,
     Public.normalizeTitlesFromJson
       (VObject [(str "titles",
                  VArray [VObject [(str "title", VBool true)]])]) = Normal L).
Proof.
  apply (part001_throws_on_non_string_title
           [(str "title", VBool true)] (VBool true) []); reflexivity.
Defined.

Lemma unfenced_text_untouched_witness :
  strip_fences (str "[1]") = str "[1]" /\
  stripCodeFences (VString (str "[1]")) = Normal (VString (str "[1]")) /\
  decode (VString (strip_fences (str "[1]"))) (VString (str "[1]"))
  = tryParseJson (VString (str "[1]")).
Proof.
  apply (unfenced_text_untouched (str "[1]")).
  intros H. simpl in H. unfold BACKTICK in H. lia.
Defined.

Lemma compact_fence_decodes_witness :
  stripCodeFences
    (VString (FENCE ++ str "json" ++ [] ++ str "[1]" ++ [] ++ FENCE ++ [LF]))
  = Normal (VString (str "[1]")) /\
  tryParseJson (VString (str "[1]")) = VArray [VNumber 1%Z].
Proof.
  apply (compact_fence_decodes (str "json") [] (str "[1]") [] [LF]).
  - right. reflexivity.
  - left. reflexivity.
  - left. reflexivity.
  - reflexivity.
  - reflexivity.
  - simpl. unfold LF. lia.
  - simpl. unfold LF. lia.
Defined.

Lemma public_always_cors_witness :
  exists r,
    fst (Public.POST (constant_host (VString (str "hello"))) (str "{}"))
    = Normal r /\
    headers r
    = [(str "Access-Control-Allow-Origin", str "*");
       (str "Access-Control-Allow-Methods", str "POST, OPTIONS");
       (str "Access-Control-Allow-Headers", str "Content-Type, Authorization")]
    /\ headers Public.OPTIONS = headers r.
Proof.
  eexists. split; [reflexivity|].
  apply (public_always_cors (constant_host (VString (str "hello"))) (str "{}")).
  reflexivity.
Defined.

Lemma public_success_shape_witness :
  exists r,
    fst (Public.POST (constant_host (VString one_two_text)) (str "{}"))
    = Normal r /\
    status r = 200 /\
    exists titles,
      titles <> [] /\
      content r
      = JsonBody
          (VObject
             [(str "titles", VArray (map VString titles));
              (str "meta",
               VObject
                 [(str "count", VNumber (number_of_nat (length titles)));
                  (str "maxLength", VNumber (number_of_nat 45));
                  (str "model", VString (str "gemini-2.5-flash"))])]) /\
      (forall t, In t titles -> t <> [] /\ trimmed t /\ length t <= 45) /\
      NoDup titles.
Proof.
  eexists. split; [reflexivity|]. split; [reflexivity|].
  apply (public_success_shape (constant_host (VString one_two_text))
                              (str "{}")); reflexivity.
Defined.

Lemma public_error_shapes_witness :
  exists r,
    fst (Public.POST (constant_host (VString (str "hello"))) (str "{}"))
    = Normal r /\
    status r = 502 /\
    ((exists raw,
        content r
        = JsonBody
            (VObject
               [(str "error", VString (str "Model returned non-JSON output"));
                (str "raw", raw)])) \/
     (exists parsed,
        Public.normalizeTitlesFromJson parsed = Normal [] /\
        content r
        = JsonBody
            (VObject
               [(str "error", VString (str "No titles produced"));
                (str "raw", parsed)]))).
Proof.
  eexists. split; [reflexivity|]. split; [reflexivity|].
  apply (proj1 (public_error_shapes
                  (constant_host (VString (str "hello"))) (str "{}") _
                  eq_refl)).
  reflexivity.
Defined.

Lemma public_calls_service_once_witness :
  exists prompt,
    snd (Public.POST (constant_host VNull) (str "{}")) = [prompt] /\
    fst (Public.POST (constant_host VNull) (str "{}"))
    = try_catch (resp <- generateContent (constant_host VNull) prompt ;;
                 Public.respond resp)
                Public.on_error.
Proof.
  apply (public_calls_service_once (constant_host VNull) (str "{}")).
  reflexivity.
Defined.

Lemma internal_always_answers_witness :
  (exists r res,
     fst (Suggest.POST
            (failing_host
               (VObject [(str "message", VObject [(str "toString", VNull)])]))
            (str "{}")) = Normal r /\
     (status r = 200 \/ status r = 500) /\
     deliver r = Normal res) /\
  fst (Public.POST
         (failing_host
            (VObject [(str "message", VObject [(str "toString", VNull)])]))
         (str "{}"))
  = Throw (error_object (str "Cannot convert object to primitive value")).
Proof.
  destruct (internal_always_answers
              (failing_host
                 (VObject [(str "message",
                            VObject [(str "toString", VNull)])]))
              (str "{}")) as [A B].
  - intros prompt resp H. discriminate H.
  - intros prompt e H. injection H as <-. reflexivity.
  - split; [exact A|].
    apply (B (VObject [(str "toString", VNull)])); reflexivity.
Defined.

Lemma upstream_error_answers_500_witness :
  fst (Public.POST (failing_host (error_object (str "quota"))) (str "{}"))
  = Normal {| status := 500; headers := Public.corsHeaders;
              content :=
                JsonBody (VObject [(str "error", VString (str "quota"))]) |} /\
  fst (Suggest.POST (failing_host (error_object (str "quota"))) (str "{}"))
  = Normal {| status := 500; headers := [];
              content :=
                JsonBody (VObject [(str "error", VString (str "quota"))]) |}.
Proof.
  apply (proj1 (upstream_error_answers_500
                  (failing_host (error_object (str "quota"))) (str "{}")
                  (error_object (str "quota"))
                  eq_refl (fun _ => eq_refl)
                  ltac:(vm_compute; discriminate))
               (str "quota")).
  reflexivity.
Defined.

Lemma internal_json_passthrough_witness :
  fst (Suggest.POST (constant_host (VString (str "0"))) (str "{}"))
  = Normal {| status := 200; headers := [];
              content := JsonBody (VNumber 0%Z) |} /\
  fst (Public.POST (constant_host (VString (str "0"))) (str "{}"))
  = Normal {| status := 502; headers := Public.corsHeaders;
              content :=
                JsonBody
                  (VObject
                     [(str "error",
                       VString (str "Model returned non-JSON output"));
                      (str "raw", VString (str "0"))]) |}.
Proof.
  assert (R : Suggest.reaches_decode (constant_host (VString (str "0")))
                                     (str "{}") (str "0")).
  { split; [reflexivity|].
    eexists. eexists. split; [reflexivity|]. split; reflexivity. }
  destruct (internal_json_passthrough
              (constant_host (VString (str "0"))) (str "{}") (str "0")
              (@VNumber IntegerNumbers.model 0%Z) R eq_refl
              (or_introl eq_refl)) as [A B].
  split; [exact A|].
  apply B; [reflexivity|]. apply reaches_decode_constant.
Defined.

Lemma non_string_extraction_500_witness :
  exists r,
    fst (Suggest.POST (constant_host VUndefined) (str "{}")) = Normal r /\
    status r = 500.
Proof.
  apply (proj2 (non_string_extraction_500
                  (constant_host VUndefined) (str "{}") VUndefined VUndefined
                  eq_refl (fun _ => eq_refl) eq_refl)).
  reflexivity.
Defined.

Lemma prompt_frame_witness :
  exists p,
    buildUserPrompt (VString (str "cats")) VUndefined VUndefined VUndefined
    = Normal p /\
    (exists pre,
       p = pre ++ str "Respond in JSON only, no extra text." ++ [LF]
               ++ str "All titles must be <= 45 characters each.") /\
    (forall s, VString (str "cats") = VString s -> s <> [] ->
       exists rest, p = str "Description: " ++ s ++ [LF] ++ rest).
Proof.
  eexists. split; [reflexivity|].
  apply (prompt_frame (VString (str "cats")) VUndefined VUndefined VUndefined).
  reflexivity.
Defined.

Lemma internal_rejects_string_keywords_witness :
  (exists r,
     Suggest.POST (constant_host VNull)
                  (str "{" ++ quoted "keywords" ++ str ":" ++ quoted "a, b"
                   ++ str "}")
     = (Normal r, []) /\ status r = 500) /\
  Public.keywords
    (Public.request_fields
       (request_json (str "{" ++ quoted "keywords" ++ str ":" ++ quoted "a, b"
                      ++ str "}")))
  = VUndefined.
Proof.
  apply (internal_rejects_string_keywords
           (constant_host VNull)
           (str "{" ++ quoted "keywords" ++ str ":" ++ quoted "a, b"
            ++ str "}")
           [(str "keywords", VString (str "a, b"))] 97%N (str ", b")).
  - intros n. change ((Z.of_nat (S n) =? 0)%Z = false).
    apply Z.eqb_neq. lia.
  - reflexivity.
  - reflexivity.
  - reflexivity.
Defined.

Lemma extractText_string_on_data_witness :
  (exists s,
     Public.extractText (VObject [(str "text", VBool true)])
     = Normal (VString s)) /\
  (VObject [(str "text", VBool true)] <> VUndefined ->
   exists s,
     Suggest.extractText (VObject [(str "text", VBool true)])
     = Normal (VString s)).
Proof.
  apply (extractText_string_on_data (VObject [(str "text", VBool true)]));
    reflexivity.
Defined.

Lemma public_answers_on_data_witness :
  exists r res,
    fst (Public.POST (constant_host (VObject [(str "text", VBool true)]))
                     (str "{}")) = Normal r /\
    (status r = 200 \/ status r = 500 \/ status r = 502) /\
    deliver r = Normal res.
Proof.
  apply (public_answers_on_data
           (constant_host (VObject [(str "text", VBool true)])) (str "{}")
           (VObject [(str "text", VBool true)])); reflexivity.
Defined.

End MoreInstances.

(* ================================================================== *)
(** * Reading back what [JSON.stringify] writes *)
(* ================================================================== *)

Section Quoting.

Context {NM : NumberModel}.

Lemma hex_value_digit (n : N) :
  (n < 16)%N -> hex_value (hex_digit n) = Some n.
Proof.
  intros H. unfold hex_digit, hex_value, is_digit.
  destruct (n <? 10)%N eqn:E.
  - apply N.ltb_lt in E.
    replace ((48 <=? 48 + n) && (48 + n <=? 57))%N with true.
    + f_equal. lia.
    + symmetry. apply andb_true_iff. split; apply N.leb_le; lia.
  - apply N.ltb_ge in E.
    replace ((48 <=? 87 + n) && (87 + n <=? 57))%N with false.
    + replace ((97 <=? 87 + n) && (87 + n <=? 102))%N with true.
      * f_equal. lia.
      * symmetry. apply andb_true_iff. split; apply N.leb_le; lia.
    + symmetry. apply andb_false_iff. right. apply N.leb_gt. lia.
Qed.

Lemma hex4_escape (c : code_unit) :
  (c < 65536)%N ->
  hex4 (hex_digit (c / 4096 mod 16)) (hex_digit (c / 256 mod 16))
       (hex_digit (c / 16 mod 16)) (hex_digit (c mod 16)) = Some c.
Proof.
  intros H. unfold hex4.
  rewrite !hex_value_digit by (apply N.mod_lt; discriminate).
  f_equal.
  assert (H4 : (c / 4096 < 16)%N) by (apply N.Div0.div_lt_upper_bound; lia).
  rewrite (N.mod_small (c / 4096) 16) by exact H4.
  pose proof (N.div_mod c 16 ltac:(discriminate)) as H1.
  pose proof (N.div_mod (c / 16) 16 ltac:(discriminate)) as H2.
  pose proof (N.div_mod (c / 256) 16 ltac:(discriminate)) as H3.
  rewrite N.Div0.div_div in H2, H3.
  change (16 * 16)%N with 256%N in H2. change (256 * 16)%N with 4096%N in H3.
  lia.
Qed.

Lemma scan_plain (c : code_unit) (rest t : jsstring) (n : nat) :
  scan_string rest = Some (t, n) ->
  c <> 34%N -> c <> 92%N -> (32 <= c)%N ->
  scan_string (c :: rest) = Some (c :: t, S n).
Proof.
  intros H H1 H2 H3. cbn [scan_string].
  apply N.eqb_neq in H1, H2. apply N.ltb_ge in H3.
  rewrite H1, H2, H3, H. reflexivity.
Qed.

Lemma scan_escape (c : code_unit) (rest t : jsstring) (n : nat) :
  scan_string rest = Some (t, n) ->
  (c < 65536)%N ->
  scan_string (unicode_escape c ++ rest) = Some (c :: t, 6 + n).
Proof.
  intros H Hc.
  change (scan_string (unicode_escape c ++ rest))
    with (match hex4 (hex_digit (c / 4096 mod 16)) (hex_digit (c / 256 mod 16))
                     (hex_digit (c / 16 mod 16)) (hex_digit (c mod 16)),
                scan_string rest with
          | Some u, Some (t, n) => Some (u :: t, 6 + n)
          | _, _ => None
          end).
  rewrite hex4_escape by exact Hc. rewrite H. reflexivity.
Qed.

Lemma scan_quote_char (c : code_unit) (rest t : jsstring) (n : nat) :
  scan_string rest = Some (t, n) ->
  scan_string (quote_char c ++ rest)
  = Some (c :: t, length (quote_char c) + n).
Proof.
  intros H. unfold quote_char.
  destruct (c =? 8)%N eqn:E8.
  { apply N.eqb_eq in E8. subst c.
    change (scan_string (str "\b" ++ rest))
      with (match scan_string rest with
            | Some (t, n) => Some (8%N :: t, 2 + n)
            | None => None
            end).
    rewrite H. reflexivity. }
  destruct (c =? 9)%N eqn:E9.
  { apply N.eqb_eq in E9. subst c.
    change (scan_string (str "\t" ++ rest))
      with (match scan_string rest with
            | Some (t, n) => Some (9%N :: t, 2 + n)
            | None => None
            end).
    rewrite H. reflexivity. }
  destruct (c =? 10)%N eqn:E10.
  { apply N.eqb_eq in E10. subst c.
    change (scan_string (str "\n" ++ rest))
      with (match scan_string rest with
            | Some (t, n) => Some (10%N :: t, 2 + n)
            | None => None
            end).
    rewrite H. reflexivity. }
  destruct (c =? 12)%N eqn:E12.
  { apply N.eqb_eq in E12. subst c.
    change (scan_string (str "\f" ++ rest))
      with (match scan_string rest with
            | Some (t, n) => Some (12%N :: t, 2 + n)
            | None => None
            end).
    rewrite H. reflexivity. }
  destruct (c =? 13)%N eqn:E13.
  { apply N.eqb_eq in E13. subst c.
    change (scan_string (str "\r" ++ rest))
      with (match scan_string rest with
            | Some (t, n) => Some (13%N :: t, 2 + n)
            | None => None
            end).
    rewrite H. reflexivity. }
  destruct (c =? 34)%N eqn:E34.
  { apply N.eqb_eq in E34. subst c.
    change (scan_string ([92; 34]%N ++ rest))
      with (match scan_string rest with
            | Some (t, n) => Some (34%N :: t, 2 + n)
            | None => None
            end).
    rewrite H. reflexivity. }
  destruct (c =? 92)%N eqn:E92.
  { apply N.eqb_eq in E92. subst c.
    change (scan_string ([92; 92]%N ++ rest))
      with (match scan_string rest with
            | Some (t, n) => Some (92%N :: t, 2 + n)
            | None => None
            end).
    rewrite H. reflexivity. }
  destruct (c <? 32)%N eqn:E32.
  { apply N.ltb_lt in E32. apply scan_escape; [exact H | lia]. }
  apply N.ltb_ge in E32. apply N.eqb_neq in E34, E92.
  now apply scan_plain.
Qed.

Lemma surrogate_plain (c : code_unit) :
  is_lead_surrogate c = true \/ is_trail_surrogate c = true ->
  c <> 34%N /\ c <> 92%N /\ (32 <= c)%N /\ (c < 65536)%N.
Proof.
  unfold is_lead_surrogate, is_trail_surrogate.
  intros [H | H]; apply andb_true_iff in H; destruct H as [H1 H2];
    apply N.leb_le in H1, H2; lia.
Qed.

(** The lexer reads a quoted string back: after the opening quotation
    mark, [scan_string] returns the string and the length of what
    [quote_body] wrote for it, closing mark included. *)
Lemma scan_string_quote (s rest : jsstring) :
  scan_string (quote_body s ++ QUOTE :: rest)
  = Some (s, S (length (quote_body s))).
Proof.
  remember (length s) as n eqn:Hn.
  revert s Hn. induction n as [n IH] using lt_wf_ind. intros s Hn.
  destruct s as [|c r]; [reflexivity|].
  cbn [quote_body].
  destruct (is_lead_surrogate c) eqn:El.
  - destruct (surrogate_plain c (or_introl El)) as (P1 & P2 & P3 & P4).
    destruct r as [|d r'].
    + rewrite (scan_escape c (QUOTE :: rest) [] 1); [reflexivity| |exact P4].
      reflexivity.
    + destruct (is_trail_surrogate d) eqn:Et.
      * destruct (surrogate_plain d (or_intror Et)) as (Q1 & Q2 & Q3 & Q4).
        cbn [app length].
        apply scan_plain; try assumption.
        apply scan_plain; try assumption.
        apply (IH (length r')); [cbn in Hn; lia | reflexivity].
      * rewrite <- app_assoc.
        rewrite (scan_escape c _ (d :: r') (S (length (quote_body (d :: r')))));
          [|apply (IH (length (d :: r'))); [cbn in Hn |- *; lia | reflexivity]
           |exact P4].
        rewrite length_app. reflexivity.
  - destruct (is_trail_surrogate c) eqn:Et.
    + destruct (surrogate_plain c (or_intror Et)) as (P1 & P2 & P3 & P4).
      rewrite <- app_assoc.
      rewrite (scan_escape c _ r (S (length (quote_body r))));
        [|apply (IH (length r)); [cbn in Hn; lia | reflexivity] | exact P4].
      rewrite length_app. reflexivity.
    + rewrite <- app_assoc.
      rewrite (scan_quote_char c _ r (S (length (quote_body r))));
        [|apply (IH (length r)); [cbn in Hn; lia | reflexivity]].
      rewrite length_app. f_equal. f_equal. lia.
Qed.

Lemma lex_skip (p rest : jsstring) :
  lex (length p) (p ++ rest) = lex 0 rest.
Proof.
  induction p as [|c p IH]; [reflexivity|].
  cbn [length app]. destruct rest; cbn [lex]; exact IH.
Qed.

(** A quoted string is one string token. *)
Lemma lex_quoted (s rest : jsstring) :
  lex 0 (quote_json_string s ++ rest)
  = cons_token (TString s) (lex 0 rest).
Proof.
  unfold quote_json_string. cbn [app].
  rewrite <- app_assoc. cbn [app].
  change (lex 0 (QUOTE :: quote_body s ++ QUOTE :: rest))
    with (match scan_string (quote_body s ++ QUOTE :: rest) with
          | Some (t, n) =>
              cons_token (TString t) (lex n (quote_body s ++ QUOTE :: rest))
          | None => None
          end).
  rewrite scan_string_quote. f_equal.
  change (quote_body s ++ QUOTE :: rest)
    with (quote_body s ++ [QUOTE] ++ rest).
  rewrite app_assoc.
  replace (S (length (quote_body s))) with (length (quote_body s ++ [QUOTE])).
  - apply lex_skip.
  - rewrite length_app. cbn. lia.
Qed.

End Quoting.

Section WellFormed.

Context {NM : NumberModel}.

Lemma wf_plain_app (p x : jsstring) :
  no_surrogate p = true ->
  to_well_formed (p ++ x) = p ++ to_well_formed x.
Proof.
  induction p as [|c p IH]; [reflexivity|].
  cbn [no_surrogate forallb]. intros H.
  apply andb_true_iff in H. destruct H as [Hc Hp].
  apply negb_true_iff, orb_false_iff in Hc. destruct Hc as [Hl Ht].
  cbn [app to_well_formed]. rewrite Hl, Ht. f_equal. now apply IH.
Qed.

Lemma lead_not_replacement (c : code_unit) :
  is_lead_surrogate c = true -> c <> 65533%N.
Proof.
  unfold is_lead_surrogate. intros H.
  apply andb_true_iff in H. destruct H as [H1 H2].
  apply N.leb_le in H1, H2. lia.
Qed.

Lemma trail_not_replacement (c : code_unit) :
  is_trail_surrogate c = true -> c <> 65533%N.
Proof.
  unfold is_trail_surrogate. intros H.
  apply andb_true_iff in H. destruct H as [H1 H2].
  apply N.leb_le in H1, H2. lia.
Qed.

(** A well-formed string stays as it is in front of any other. *)
Lemma wf_app (a b : jsstring) :
  to_well_formed a = a ->
  to_well_formed (a ++ b) = a ++ to_well_formed b.
Proof.
  remember (length a) as n eqn:Hn.
  revert a Hn. induction n as [n IH] using lt_wf_ind. intros a Hn Ha.
  destruct a as [|c r]; [reflexivity|].
  cbn [to_well_formed app] in Ha |- *.
  destruct (is_lead_surrogate c) eqn:El.
  - destruct r as [|d r'].
    + injection Ha as Ha. symmetry in Ha.
      now apply lead_not_replacement in Ha.
    + cbn [app]. destruct (is_trail_surrogate d) eqn:Et.
      * injection Ha as Ha. f_equal. f_equal.
        apply (IH (length r')); [cbn in Hn; lia | reflexivity | exact Ha].
      * injection Ha as Ha _. symmetry in Ha.
        now apply lead_not_replacement in Ha.
  - destruct (is_trail_surrogate c) eqn:Et.
    + injection Ha as Ha _. symmetry in Ha.
      now apply trail_not_replacement in Ha.
    + injection Ha as Ha. f_equal.
      apply (IH (length r)); [cbn in Hn; lia | reflexivity | exact Ha].
Qed.

Lemma wf_app2 (a b : jsstring) :
  to_well_formed a = a -> to_well_formed b = b ->
  to_well_formed (a ++ b) = a ++ b.
Proof. intros Ha Hb. rewrite wf_app by exact Ha. now rewrite Hb. Qed.

Lemma wf_plain (p : jsstring) :
  no_surrogate p = true -> to_well_formed p = p.
Proof.
  intros H. rewrite <- (app_nil_r p) at 1.
  rewrite wf_plain_app by exact H. cbn. apply app_nil_r.
Qed.

Lemma hex_digit_bound (n : N) : (n < 16)%N -> (hex_digit n < 128)%N.
Proof.
  intros H. unfold hex_digit. destruct (n <? 10)%N; lia.
Qed.

Lemma below_surrogates (c : code_unit) :
  (c < 128)%N ->
  negb (is_lead_surrogate c || is_trail_surrogate c) = true.
Proof.
  intros H. apply negb_true_iff, orb_false_iff.
  unfold is_lead_surrogate, is_trail_surrogate.
  split; apply andb_false_iff; left; apply N.leb_gt; lia.
Qed.

Lemma unicode_escape_plain (c : code_unit) :
  no_surrogate (unicode_escape c) = true.
Proof.
  unfold unicode_escape, no_surrogate. cbn [forallb].
  rewrite !below_surrogates;
    try (apply hex_digit_bound; apply N.mod_lt; discriminate);
    try reflexivity; lia.
Qed.

Lemma quote_char_plain (c : code_unit) :
  is_lead_surrogate c = false -> is_trail_surrogate c = false ->
  no_surrogate (quote_char c) = true.
Proof.
  intros Hl Ht. unfold quote_char.
  repeat match goal with
         | |- context [if ?b then _ else _] => destruct b; [reflexivity|]
         end.
  destruct (c <? 32)%N; [apply unicode_escape_plain|].
  cbn. now rewrite Hl, Ht.
Qed.

(** What [quote_body] writes holds no unpaired surrogate. *)
Lemma wf_quote_body (s : jsstring) :
  to_well_formed (quote_body s) = quote_body s.
Proof.
  remember (length s) as n eqn:Hn.
  revert s Hn. induction n as [n IH] using lt_wf_ind. intros s Hn.
  destruct s as [|c r]; [reflexivity|].
  cbn [quote_body].
  destruct (is_lead_surrogate c) eqn:El.
  - destruct r as [|d r'].
    + apply wf_plain, unicode_escape_plain.
    + destruct (is_trail_surrogate d) eqn:Et.
      * cbn [to_well_formed]. rewrite El, Et. f_equal. f_equal.
        apply (IH (length r')); [cbn in Hn; lia | reflexivity].
      * rewrite wf_plain_app by apply unicode_escape_plain. f_equal.
        apply (IH (length (d :: r'))); [cbn in Hn |- *; lia | reflexivity].
  - destruct (is_trail_surrogate c) eqn:Et.
    + rewrite wf_plain_app by apply unicode_escape_plain. f_equal.
      apply (IH (length r)); [cbn in Hn; lia | reflexivity].
    + rewrite wf_plain_app by now apply quote_char_plain. f_equal.
      apply (IH (length r)); [cbn in Hn; lia | reflexivity].
Qed.

Lemma wf_quoted (s : jsstring) :
  to_well_formed (quote_json_string s) = quote_json_string s.
Proof.
  unfold quote_json_string.
  change (QUOTE :: quote_body s ++ [QUOTE])
    with ([QUOTE] ++ quote_body s ++ [QUOTE]).
  apply wf_app2; [reflexivity|].
  apply wf_app2; [apply wf_quote_body | reflexivity].
Qed.

Lemma wf_join (sep : jsstring) (parts : list jsstring) :
  to_well_formed sep = sep ->
  (forall p, In p parts -> to_well_formed p = p) ->
  to_well_formed (join sep parts) = join sep parts.
Proof.
  intros Hs. induction parts as [|p rest IH]; intros H; [reflexivity|].
  destruct rest as [|q rest].
  - apply H. now left.
  - rewrite join_cons by discriminate.
    apply wf_app2; [apply H; now left|].
    apply wf_app2; [exact Hs|].
    apply IH. intros x Hx. apply H. now right.
Qed.

Lemma wf_join_forall {A : Type} (text : A -> jsstring) (items : list A) :
  Forall (fun a => to_well_formed (text a) = text a) items ->
  to_well_formed (join [COMMA] (map text items))
  = join [COMMA] (map text items).
Proof.
  intros H. apply wf_join; [reflexivity|].
  intros p Hp. apply in_map_iff in Hp. destruct Hp as (a & <- & Ha).
  rewrite Forall_forall in H. now apply H.
Qed.

(** The JSON text of a plain value is well formed as it is. *)
Lemma wf_text (p : plain) : to_well_formed (text_of p) = text_of p.
Proof.
  induction p as [|b|s|items IH|members IH] using plain_induction.
  - reflexivity.
  - destruct b; reflexivity.
  - apply wf_quoted.
  - cbn [text_of].
    apply wf_app2; [reflexivity|].
    apply wf_app2; [|reflexivity].
    apply wf_join_forall. exact IH.
  - cbn [text_of].
    apply wf_app2; [reflexivity|].
    apply wf_app2; [|reflexivity].
    apply wf_join_forall.
    apply Forall_impl with (2 := IH). intros [k p] Hp. cbn [fst snd] in *.
    apply wf_app2; [apply wf_quoted|].
    apply wf_app2; [reflexivity | exact Hp].
Qed.

End WellFormed.

Section PlainRoundTrip.

Context {NM : NumberModel}.

Lemma value_of_not_function (p : plain) : is_function (value_of p) = false.
Proof. destruct p; reflexivity. Qed.

(** [JSON.stringify] writes [text_of]. *)
Lemma serialize_plain (p : plain) :
  forall consult, serialize consult (value_of p) = Normal (Some (text_of p)).
Proof.
  induction p as [|b|s|items IH|members IH] using plain_induction;
    intros consult.
  - reflexivity.
  - destruct b; reflexivity.
  - reflexivity.
  - cbn [value_of serialize text_of].
    match goal with |- bind (?F _) _ = _ => set (elements := F) end.
    assert (He : elements (map value_of items) = Normal (map text_of items)).
    { induction items as [|x items IHi]; [reflexivity|].
      inversion IH as [|? ? Px Pr]; subst.
      cbn [map].
      change (elements (value_of x :: map value_of items))
        with (t <- serialize true (value_of x) ;;
              ts <- elements (map value_of items) ;;
              Normal (match t with
                      | Some t => t
                      | None => str "null"
                      end :: ts)).
      rewrite Px. cbn [bind]. rewrite (IHi Pr). reflexivity. }
    rewrite He. reflexivity.
  - cbn [value_of serialize text_of].
    match goal with
    | |- context [bind (?F _) _] => set (members_text := F)
    end.
    assert (Hm : members_text
                   (map (fun kp => (fst kp, value_of (snd kp))) members)
                 = Normal (map (fun kp => quote_json_string (fst kp)
                                          ++ str ":" ++ text_of (snd kp))
                               members)).
    { clear consult. induction members as [|[k x] members IHm]; [reflexivity|].
      inversion IH as [|? ? Px Pr]; subst. cbn [snd] in Px.
      cbn [map fst snd].
      change (members_text
                ((k, value_of x)
                 :: map (fun kp => (fst kp, value_of (snd kp))) members))
        with (s <- serialize true (value_of x) ;;
              rest <- members_text
                        (map (fun kp => (fst kp, value_of (snd kp))) members) ;;
              Normal (match s with
                      | Some t => (quote_json_string k ++ str ":" ++ t) :: rest
                      | None => rest
                      end)).
      rewrite Px. cbn [bind]. rewrite (IHm Pr). reflexivity. }
    rewrite Hm. cbn [bind].
    destruct consult; [|reflexivity].
    match goal with
    | |- context [join [COMMA] (map ?f members)] =>
        set (body := join [COMMA] (map f members))
    end.
    clearbody body. clear Hm IH. induction members as [|[k x] members IHm]; [reflexivity|].
    cbn [map fst snd].
    destruct (JsString.eqb (str "toJSON") k).
    + destruct x; reflexivity.
    + exact IHm.
Qed.

Lemma lex_join {A : Type} (text : A -> jsstring) (toks : A -> list token)
  (items : list A) (rest : jsstring) (ts : list token) :
  Forall (fun a => forall rest ts,
            lex 0 rest = Some ts ->
            lex 0 (text a ++ rest) = Some (toks a ++ ts)) items ->
  lex 0 rest = Some ts ->
  lex 0 (join [COMMA] (map text items) ++ rest)
  = Some (separated (map toks items) ++ ts).
Proof.
  intros Hall Hrest.
  destruct items as [|a r]; [exact Hrest|].
  revert a Hall. induction r as [|b r IH]; intros a Hall.
  - cbn [map join separated flat_map]. rewrite app_nil_r.
    inversion Hall; subst. auto.
  - inversion Hall as [|? ? Ha Hr]; subst.
    cbn [map]. rewrite join_cons by discriminate.
    rewrite <- !app_assoc.
    unfold separated. cbn [flat_map]. rewrite <- !app_assoc.
    apply Ha.
    change (lex 0 ([COMMA] ++ join [COMMA] (text b :: map text r) ++ rest))
      with (cons_token TComma
              (lex 0 (join [COMMA] (map text (b :: r)) ++ rest))).
    rewrite (IH b Hr). cbn [cons_token separated map app].
    rewrite <- ?app_assoc. reflexivity.
Qed.

(** The lexer reads the text of a plain value as its tokens. *)
Lemma lex_plain (p : plain) :
  forall rest ts,
    lex 0 rest = Some ts ->
    lex 0 (text_of p ++ rest) = Some (tokens_of p ++ ts).
Proof.
  induction p as [|b|s|items IH|members IH] using plain_induction;
    intros rest ts H.
  - change (lex 0 (text_of PNull ++ rest))
      with (cons_token TNull (lex 0 rest)).
    rewrite H. reflexivity.
  - destruct b.
    + change (lex 0 (text_of (PBool true) ++ rest))
        with (cons_token TTrue (lex 0 rest)).
      rewrite H. reflexivity.
    + change (lex 0 (text_of (PBool false) ++ rest))
        with (cons_token TFalse (lex 0 rest)).
      rewrite H. reflexivity.
  - cbn [text_of tokens_of]. rewrite lex_quoted, H. reflexivity.
  - cbn [text_of tokens_of]. rewrite <- !app_assoc.
    change (lex 0 (str "[" ++ join [COMMA] (map text_of items)
                   ++ str "]" ++ rest))
      with (cons_token TLBracket
              (lex 0 (join [COMMA] (map text_of items) ++ str "]" ++ rest))).
    rewrite (lex_join text_of tokens_of items (str "]" ++ rest)
                      (TRBracket :: ts) IH).
    + cbn [cons_token app]. f_equal. f_equal.
      rewrite <- app_assoc. reflexivity.
    + change (lex 0 (str "]" ++ rest)) with (cons_token TRBracket (lex 0 rest)).
      rewrite H. reflexivity.
  - cbn [text_of tokens_of]. rewrite <- !app_assoc.
    match goal with
    | |- lex 0 (str "{" ++ ?body ++ str "}" ++ rest) = _ =>
        change (lex 0 (str "{" ++ body ++ str "}" ++ rest))
          with (cons_token TLBrace (lex 0 (body ++ str "}" ++ rest)))
    end.
    match goal with
    | |- cons_token TLBrace ?l = _ =>
        assert (E : l = Some (separated
                                (map (fun kp => TString (fst kp) :: TColon
                                                :: tokens_of (snd kp)) members)
                              ++ TRBrace :: ts))
    end.
    { apply (lex_join
               (fun kp => quote_json_string (fst kp) ++ str ":"
                          ++ text_of (snd kp))
               (fun kp => TString (fst kp) :: TColon :: tokens_of (snd kp))).
      - apply Forall_impl with (2 := IH). intros [k x] Hx r t Hr.
        cbn [fst snd] in *. rewrite <- !app_assoc. rewrite lex_quoted.
        change (lex 0 (str ":" ++ text_of x ++ r))
          with (cons_token TColon (lex 0 (text_of x ++ r))).
        rewrite (Hx _ _ Hr). reflexivity.
      - change (lex 0 (str "}" ++ rest))
          with (cons_token TRBrace (lex 0 rest)).
        rewrite H. reflexivity. }
    rewrite E. cbn [cons_token app]. f_equal. f_equal.
    rewrite <- app_assoc. reflexivity.
Qed.

Lemma has_own_app (k k' : jsstring) (v : value)
  (acc : list (jsstring * value)) :
  has_own k (acc ++ [(k', v)]) = has_own k acc || JsString.eqb k k'.
Proof.
  unfold has_own. induction acc as [|[k0 v0] acc IH].
  - cbn [app lookup]. destruct (JsString.eqb k k'); reflexivity.
  - cbn [app lookup]. destruct (JsString.eqb k k0); [reflexivity | exact IH].
Qed.

Lemma define_new (k : jsstring) (v : value) (acc : list (jsstring * value)) :
  has_own k acc = false -> array_index k = None ->
  define_property k v acc = acc ++ [(k, v)].
Proof. intros H1 H2. unfold define_property. now rewrite H1, H2. Qed.

Lemma simple_keys_cons (k : jsstring) (ks : list jsstring) :
  simple_keys (k :: ks) = true ->
  ~ In k ks /\ array_index k = None /\ simple_keys ks = true.
Proof.
  cbn [simple_keys]. intros H.
  apply andb_true_iff in H. destruct H as [H H3].
  apply andb_true_iff in H. destruct H as [H1 H2].
  split; [|split; [|exact H3]].
  - intros Hin. apply negb_true_iff in H1.
    apply existsb_eqb_In in Hin. congruence.
  - destruct (array_index k); [discriminate H2 | reflexivity].
Qed.

(** After a left bracket the tokens of a value are read as anywhere
    else: none of them starts with a right bracket. *)
Lemma first_element (p : plain) (items : list value) (stk : list frame)
  (rest : list token) :
  parse_tokens (tokens_of p ++ rest) (FArray items :: stk, EFirstElement)
  = parse_tokens (tokens_of p ++ rest) (FArray items :: stk, EValue).
Proof. destruct p as [|[|]| | |]; reflexivity. Qed.

Lemma parse_elements_rest (r : list plain) :
  Forall parses r ->
  forall (acc : list value) (stk : list frame) (rest : list token),
    parse_tokens (flat_map (fun g => TComma :: g) (map tokens_of r)
                  ++ TRBracket :: rest)
                 (FArray acc :: stk, ENext)
    = match complete (VArray (acc ++ map value_of r)) stk with
      | Some st' => parse_tokens rest st'
      | None => None
      end.
Proof.
  induction r as [|x r IH]; intros Hall acc stk rest.
  - cbn [flat_map app map]. rewrite app_nil_r. reflexivity.
  - inversion Hall as [|? ? Hx Hr]; subst.
    cbn [flat_map app map]. rewrite <- app_assoc.
    change (parse_tokens
              (TComma :: tokens_of x
               ++ flat_map (fun g => TComma :: g) (map tokens_of r)
                  ++ TRBracket :: rest)
              (FArray acc :: stk, ENext))
      with (parse_tokens
              (tokens_of x
               ++ flat_map (fun g => TComma :: g) (map tokens_of r)
                  ++ TRBracket :: rest)
              (FArray acc :: stk, EValue)).
    rewrite Hx. cbn [complete].
    rewrite (IH Hr). rewrite <- app_assoc. reflexivity.
Qed.

Lemma parse_members_rest (ms : list (jsstring * plain)) :
  Forall (fun kp => parses (snd kp)) ms ->
  forall (acc : list (jsstring * value)) (st : list frame)
         (rest : list token),
    simple_keys (map fst ms) = true ->
    (forall m, In m ms -> has_own (fst m) acc = false) ->
    parse_tokens
      (flat_map (fun g => TComma :: g)
         (map (fun kp => TString (fst kp) :: TColon :: tokens_of (snd kp)) ms)
       ++ TRBrace :: rest)
      (FObject acc :: st, ENext)
    = match complete
              (VObject (acc ++ map (fun kp => (fst kp, value_of (snd kp))) ms))
              st with
      | Some st' => parse_tokens rest st'
      | None => None
      end.
Proof.
  induction ms as [|[k x] ms IH]; intros Hall acc st rest Hk Hacc.
  - cbn [flat_map app map]. rewrite app_nil_r. reflexivity.
  - inversion Hall as [|? ? Hx Hr]; subst. cbn [snd] in Hx.
    cbn [map fst] in Hk. apply simple_keys_cons in Hk.
    destruct Hk as (Hnew & Hidx & Hk).
    cbn [flat_map map fst snd]. rewrite <- !app_assoc. cbn [app].
    match goal with
    | |- parse_tokens (TComma :: TString k :: TColon :: ?more) _ = _ =>
        change (parse_tokens (TComma :: TString k :: TColon :: more)
                             (FObject acc :: st, ENext))
          with (parse_tokens more (FMember acc k :: st, EValue))
    end.
    rewrite Hx. cbn [complete].
    rewrite define_new;
      [|apply (Hacc (k, x)); now left | exact Hidx].
    rewrite (IH Hr); [|exact Hk|].
    + rewrite <- app_assoc. reflexivity.
    + intros m Hm. rewrite has_own_app.
      rewrite (Hacc m) by now right. cbn [orb].
      apply eqb_neq. intros E. apply Hnew. rewrite <- E.
      now apply in_map.
Qed.

(** The parser reads the tokens of a plain value with simple keys as
    that value. *)
Lemma parse_plain (p : plain) : simple p = true -> parses p.
Proof.
  induction p as [|b|s|items IH|members IH] using plain_induction;
    intros Hs stack rest.
  - reflexivity.
  - destruct b; reflexivity.
  - reflexivity.
  - cbn [simple] in Hs.
    assert (Hall : Forall parses items).
    { rewrite Forall_forall in IH |- *. intros x Hx. apply IH; [exact Hx|].
      rewrite forallb_forall in Hs. now apply Hs. }
    cbn [tokens_of value_of]. cbn [app]. rewrite <- app_assoc.
    destruct items as [|x r].
    + reflexivity.
    + inversion Hall as [|? ? Hx Hr]; subst.
      cbn [map separated]. rewrite <- app_assoc.
      match goal with
      | |- parse_tokens (TLBracket :: ?more) _ = _ =>
          change (parse_tokens (TLBracket :: more) (stack, EValue))
            with (parse_tokens more (FArray [] :: stack, EFirstElement))
      end.
      rewrite first_element, Hx. cbn [complete app].
      cbn [app]. rewrite (parse_elements_rest r Hr). reflexivity.
  - cbn [simple] in Hs. apply andb_true_iff in Hs. destruct Hs as [Hk Hs].
    assert (Hall : Forall (fun kp => parses (snd kp)) members).
    { rewrite Forall_forall in IH |- *. intros x Hx. apply IH; [exact Hx|].
      rewrite forallb_forall in Hs. now apply Hs. }
    cbn [tokens_of value_of]. cbn [app]. rewrite <- app_assoc.
    destruct members as [|[k x] r].
    + reflexivity.
    + inversion Hall as [|? ? Hx Hr]; subst. cbn [snd] in Hx.
      cbn [map fst] in Hk. apply simple_keys_cons in Hk.
      destruct Hk as (Hnew & Hidx & Hk).
      cbn [map separated fst snd]. rewrite <- !app_assoc. cbn [app].
      match goal with
      | |- parse_tokens (TLBrace :: TString k :: TColon :: ?more) _ = _ =>
          change (parse_tokens (TLBrace :: TString k :: TColon :: more)
                               (stack, EValue))
            with (parse_tokens more (FMember [] k :: stack, EValue))
      end.
      rewrite Hx. cbn [complete].
      rewrite define_new; [|reflexivity | exact Hidx].
      rewrite (parse_members_rest r Hr); [reflexivity | exact Hk |].
      intros m Hm. unfold has_own. cbn [app lookup].
      replace (JsString.eqb (fst m) k) with false; [reflexivity|].
      symmetry. apply eqb_neq. intros E. apply Hnew. rewrite <- E.
      now apply in_map.
Qed.

(** A plain value with simple keys survives the way from
    [JSON.stringify] through a request or response body to
    [JSON.parse]. *)
Lemma plain_round_trip (p : plain) :
  simple p = true ->
  JSON_stringify (value_of p) = Normal (VString (text_of p)) /\
  to_well_formed (text_of p) = text_of p /\
  JSON_parse (text_of p) = Some (value_of p).
Proof.
  intros Hs. split; [|split].
  - unfold JSON_stringify. rewrite serialize_plain. reflexivity.
  - apply wf_text.
  - unfold JSON_parse.
    rewrite <- (app_nil_r (text_of p)).
    rewrite (lex_plain p [] [] eq_refl).
    rewrite (parse_plain p Hs). reflexivity.
Qed.

End PlainRoundTrip.

(* ================================================================== *)
(** * The page and the internal endpoint *)
(* ================================================================== *)

Section PageRequest.

Context {NM : NumberModel}.

Lemma value_of_strings (ks : list jsstring) :
  map value_of (map PString ks) = map VString ks.
Proof. rewrite map_map. reflexivity. Qed.

(** The object the handler reads for what the form holds. *)
Lemma request_value (d k n l : jsstring) :
  value_of (request_plain d k n l)
  = VObject
      ([(str "description", VString d);
        (str "keywords", VArray (map VString (Page.keyword_list k)))]
       ++ (if non_empty n then [(str "niche", VString n)] else [])
       ++ (if non_empty l then [(str "language", VString l)] else [])).
Proof.
  unfold request_plain. cbn [value_of map app fst snd].
  rewrite value_of_strings. rewrite !map_app.
  destruct n, l; reflexivity.
Qed.

Lemma request_simple (d k n l : jsstring) :
  simple (request_plain d k n l) = true.
Proof.
  assert (H : simple (PArray (map PString (Page.keyword_list k))) = true).
  { cbn [simple]. apply forallb_forall. intros x Hx.
    apply in_map_iff in Hx. destruct Hx as (s & <- & _). reflexivity. }
  unfold request_plain. cbn [simple].
  destruct n, l; cbn [non_empty app map fst snd forallb];
    cbn [simple] in H |- *; rewrite H; reflexivity.
Qed.

Lemma request_stringify (d k n l : jsstring) :
  JSON_stringify (Page.request_object d k n l)
  = Normal (VString (request_text d k n l)).
Proof.
  transitivity (JSON_stringify (value_of (request_plain d k n l))).
  - rewrite request_value. unfold JSON_stringify. f_equal.
    destruct n, l; reflexivity.
  - apply plain_round_trip, request_simple.
Qed.

Lemma request_parse (d k n l : jsstring) :
  request_json (request_text d k n l) = value_of (request_plain d k n l).
Proof.
  unfold request_json, request_text.
  destruct (plain_round_trip _ (request_simple d k n l)) as (_ & _ & ->).
  reflexivity.
Qed.

Lemma request_fields_read (d k n l : jsstring) :
  Suggest.field (value_of (request_plain d k n l)) "description" = VString d /\
  Suggest.field (value_of (request_plain d k n l)) "keywords"
  = VArray (map VString (Page.keyword_list k)) /\
  Suggest.field (value_of (request_plain d k n l)) "niche"
  = (if non_empty n then VString n else VUndefined) /\
  Suggest.field (value_of (request_plain d k n l)) "language"
  = (if non_empty l then VString l else VUndefined).
Proof.
  rewrite request_value. destruct n, l; repeat split; reflexivity.
Qed.

(** X23.  The request the page sends is read back by the internal handler
    field by field: the description as typed, the keywords split at
    commas, trimmed and without the empty ones, and the niche and the
    language unless they are empty.  The text passes the conversion
    of the request body unchanged. *)
Theorem page_request_read_back (d k n l : jsstring) :
  exists text,
    JSON_stringify (Page.request_object d k n l) = Normal (VString text) /\
    to_well_formed text = text /\
    Suggest.field (request_json text) "description" = VString d /\
    Suggest.field (request_json text) "keywords"
    = VArray (map VString
                (filter non_empty (map trim (JsString.split COMMA k)))) /\
    Suggest.field (request_json text) "niche"
    = (if non_empty n then VString n else VUndefined) /\
    Suggest.field (request_json text) "language"
    = (if non_empty l then VString l else VUndefined).
Proof.
  exists (request_text d k n l).
  split; [apply request_stringify|].
  split; [apply wf_text|].
  rewrite request_parse. apply request_fields_read.
Qed.

Lemma join_values_map (sep : jsstring) (ks : list jsstring) :
  join_values sep (map VString ks) = Normal (join sep ks).
Proof.
  unfold join_values.
  replace (map_c (fun x => if nullish x then Normal [] else to_string x)
                 (map VString ks))
    with (@Normal value _ ks); [reflexivity|].
  induction ks as [|k ks IH]; [reflexivity|].
  cbn [map map_c nullish to_string bind]. rewrite <- IH. reflexivity.
Qed.

Lemma optional_string_line (label x : jsstring) :
  (if truthy (if non_empty x then VString x else VUndefined)
   then t <- to_string (if non_empty x then VString x else VUndefined) ;;
        Normal [label ++ t]
   else Normal [])
  = Normal (if non_empty x then [label ++ x] else []).
Proof. destruct x; reflexivity. Qed.

Lemma prompt_of_strings (d : jsstring) (ks : list jsstring) (n l : jsstring) :
  (forall m, number_is_falsy (number_of_nat m) = (m =? 0)) ->
  buildUserPrompt (VString d) (VArray (map VString ks))
                  (if non_empty n then VString n else VUndefined)
                  (if non_empty l then VString l else VUndefined)
  = Normal (form_prompt d ks n l).
Proof.
  intros Hlaw. unfold buildUserPrompt, form_prompt.
  rewrite !optional_string_line.
  replace (if truthy (VString d)
           then t <- to_string (VString d) ;; Normal [str "Description: " ++ t]
           else Normal [])
    with (@Normal value _ (if non_empty d then [str "Description: " ++ d]
                           else []))
    by (destruct d; reflexivity).
  cbn [bind].
  change (get_opt (VArray (map VString ks)) (str "length"))
    with (@Normal value _ (VNumber (number_of_nat (length (map VString ks))))).
  cbn [bind truthy]. rewrite Hlaw, join_values_map. cbn [bind to_string].
  destruct ks as [|k ks]; reflexivity.
Qed.

(** The prompt is built whatever the numbers are. *)
Lemma prompt_of_strings_returns (d : jsstring) (ks : list jsstring)
  (n l : jsstring) :
  exists prompt,
    buildUserPrompt (VString d) (VArray (map VString ks))
                    (if non_empty n then VString n else VUndefined)
                    (if non_empty l then VString l else VUndefined)
    = Normal prompt.
Proof.
  unfold buildUserPrompt.
  rewrite !optional_string_line.
  replace (if truthy (VString d)
           then t <- to_string (VString d) ;; Normal [str "Description: " ++ t]
           else Normal [])
    with (@Normal value _ (if non_empty d then [str "Description: " ++ d]
                           else []))
    by (destruct d; reflexivity).
  cbn [bind].
  change (get_opt (VArray (map VString ks)) (str "length"))
    with (@Normal value _ (VNumber (number_of_nat (length (map VString ks))))).
  cbn [bind]. rewrite join_values_map. cbn [bind to_string].
  destruct (truthy _); cbn [bind]; eauto.
Qed.

(** X24.  With a key on the host, the prompt the generation service
    receives for what the form holds is the one built from the
    description, the cleaned keywords, the niche and the language, a
    line for each that is not empty. *)
Theorem page_prompt (h : host) (d k n l : jsstring) :
  (forall m, number_is_falsy (number_of_nat m) = (m =? 0)) ->
  api_key_missing h = false ->
  exists text,
    JSON_stringify (Page.request_object d k n l) = Normal (VString text) /\
    to_well_formed text = text /\
    snd (Suggest.POST h text)
    = [form_prompt d (filter non_empty (map trim (JsString.split COMMA k)))
                   n l].
Proof.
  intros Hlaw Hkey. exists (request_text d k n l).
  split; [apply request_stringify|].
  split; [apply wf_text|].
  unfold Suggest.POST. rewrite Hkey, request_parse.
  destruct (request_fields_read d k n l) as (-> & -> & -> & ->).
  rewrite prompt_of_strings by exact Hlaw. reflexivity.
Qed.

End PageRequest.

Section PageResponse.

Context {NM : NumberModel}.

Variable syntax_message : jsstring -> jsstring.

(** The [catch] clause of [onSubmit] always sets a truthy error. *)
Lemma catch_returns (err : value) (s : Page.state) :
  exists x,
    (m <- or_lazy (get_opt err (str "message"))
                  (Normal (VString (str "Unexpected error"))) ;;
     Normal (Page.setError m s))
    = Normal (Page.setError x s) /\ truthy x = true.
Proof.
  unfold or_lazy. destruct (get_opt_returns err (str "message")) as [x ->].
  cbn [bind]. destruct (truthy x) eqn:T; cbn [bind]; eauto.
Qed.

Lemma catch_error_object (m : jsstring) (s : Page.state) :
  (x <- or_lazy (get_opt (error_object m) (str "message"))
                (Normal (VString (str "Unexpected error"))) ;;
   Normal (Page.setError x s))
  = Normal (Page.setError
              (VString (if non_empty m then m else str "Unexpected error")) s).
Proof. destruct m; reflexivity. Qed.

Lemma show_json_keeps (data : value) (s s' : Page.state) :
  Page.show_json data s = Normal s' ->
  Page.error s' = Page.error s /\ Page.loading s' = Page.loading s.
Proof.
  unfold Page.show_json.
  destruct (if truthy data then _ else _) as [field|e]; cbn [bind];
    [|discriminate].
  destruct field; try (intros H; injection H as <-; split; reflexivity).
  destruct (map_c Page.element_title items) as [arr|e]; cbn [bind];
    [|discriminate].
  intros H; injection H as <-; split; reflexivity.
Qed.

Lemma read_response_keeps (res : Page.fetched) (s s' : Page.state) :
  Page.read_response syntax_message res s = Normal s' ->
  Page.error s' = Page.error s /\ Page.loading s' = Page.loading s.
Proof.
  unfold Page.read_response.
  destruct (Page.includes _ _).
  - destruct (JSON_parse (Page.payload res)) as [data|]; [|discriminate].
    destruct (negb (Page.ok res)).
    + unfold Page.throw_new_Error.
      destruct (or_lazy _ _) as [x|e]; cbn [bind]; [|discriminate].
      destruct (to_string x); discriminate.
    + apply show_json_keeps.
  - destruct (negb (Page.ok res)).
    + unfold Page.throw_new_Error.
      destruct (to_string _); discriminate.
    + intros H; injection H as <-; split; reflexivity.
Qed.

(** X25.  Whatever the server does, [onSubmit] ends with [loading] off, and
    with an error on the page only when neither titles nor a raw
    response are: the three panels never show an error together with a
    result. *)
Theorem page_settles (fetch : value -> comp Page.fetched)
  (d k n l : jsstring) (s0 : Page.state) :
  exists s,
    Page.onSubmit syntax_message fetch d k n l s0 = Normal s /\
    Page.loading s = false /\
    ((Page.error s = VNull /\ Page.shows_error s = false) \/
     (Page.shows_error s = true /\ Page.shows_titles s = false /\
      Page.shows_raw s = false)).
Proof.
  unfold Page.onSubmit.
  set (s1 := Page.setTitles [] _).
  destruct (bind (JSON_stringify _) _) as [s2|err] eqn:E; cbn [try_catch].
  - exists (Page.setLoading false s2). split; [reflexivity|].
    split; [reflexivity|]. left.
    assert (He : Page.error s2 = VNull).
    { rewrite request_stringify in E. cbn [bind] in E.
      destruct (fetch _) as [res|e]; cbn [bind] in E; [|discriminate].
      now apply read_response_keeps in E. }
    unfold Page.shows_error. cbn [Page.setLoading Page.error].
    rewrite He. split; reflexivity.
  - destruct (catch_returns err s1) as (x & -> & Hx). cbn [bind].
    eexists. split; [reflexivity|]. split; [reflexivity|]. right.
    split; [exact Hx|]. split; reflexivity.
Qed.

Lemma throw_new_Error_data (x : value) :
  function_free x = true ->
  exists m, @Page.throw_new_Error NM Page.state x = Throw (error_object m).
Proof.
  intros Hx. unfold Page.throw_new_Error.
  pose proof (to_string_benign x Hx) as B.
  destruct (to_string x) as [m|e]; cbn [bind]; [eauto|].
  destruct B as [m ->]. eauto.
Qed.

(** A response that is not ok makes the [try] block throw an error
    object, whatever its body. *)
Lemma read_response_failure (res : Page.fetched) (s : Page.state) :
  Page.ok res = false ->
  exists m, Page.read_response syntax_message res s = Throw (error_object m).
Proof.
  intros Hok. unfold Page.read_response. rewrite Hok. cbn [negb].
  destruct (Page.includes _ _).
  - destruct (JSON_parse (Page.payload res)) as [data|] eqn:P; [|eauto].
    apply JSON_parse_data in P.
    unfold or_lazy.
    destruct (get_opt_returns data (str "error")) as [x Hx]. rewrite Hx.
    cbn [bind]. apply data_get_opt in Hx; [|exact P].
    destruct (truthy x); cbn [bind]; now apply throw_new_Error_data.
  - apply throw_new_Error_data. unfold or_else.
    destruct (truthy _); reflexivity.
Qed.

(** X26.  When the response is not ok the page shows an error message, a
    string that is not empty, and neither titles nor a raw response,
    whatever the content type and the body of the response. *)
Theorem failed_response_shows_error (fetch : value -> comp Page.fetched)
  (d k n l : jsstring) (s0 : Page.state) (res : Page.fetched) :
  (forall body,
     JSON_stringify (Page.request_object d k n l) = Normal body ->
     fetch body = Normal res) ->
  Page.ok res = false ->
  exists m,
    m <> [] /\
    Page.onSubmit syntax_message fetch d k n l s0
    = Normal (settled (VString m) VNull []).
Proof.
  intros Hfetch Hok. unfold Page.onSubmit.
  rewrite request_stringify. cbn [bind].
  rewrite (Hfetch _ (request_stringify d k n l)). cbn [bind].
  match goal with
  | |- context [Page.read_response _ _ ?s] =>
      destruct (read_response_failure res s Hok) as [m ->]
  end.
  cbn [try_catch]. rewrite catch_error_object. cbn [bind].
  exists (if non_empty m then m else str "Unexpected error").
  split; [destruct m; discriminate | reflexivity].
Qed.

Lemma or_lazy_data (a b : comp value) (x : value) :
  (forall v, a = Normal v -> function_free v = true) ->
  (forall v, b = Normal v -> function_free v = true) ->
  or_lazy a b = Normal x -> function_free x = true.
Proof.
  intros Ha Hb. unfold or_lazy. destruct a as [v|e]; cbn [bind];
    [|discriminate].
  destruct (truthy v).
  - intros H. injection H as <-. now apply Ha.
  - intros H. now apply Hb.
Qed.

Lemma coalesce_lazy_data (a b : comp value) (x : value) :
  (forall v, a = Normal v -> function_free v = true) ->
  (forall v, b = Normal v -> function_free v = true) ->
  coalesce_lazy a b = Normal x -> function_free x = true.
Proof.
  intros Ha Hb. unfold coalesce_lazy. destruct a as [v|e]; cbn [bind];
    [|discriminate].
  destruct (nullish v).
  - intros H. now apply Hb.
  - intros H. injection H as <-. now apply Ha.
Qed.

Lemma part001_field_data (s x : value) :
  function_free s = true ->
  Part001.title_field s = Normal x -> function_free x = true.
Proof.
  intros Hs. unfold Part001.title_field.
  apply or_lazy_data; [intros y; apply or_lazy_data|];
    intros v Hv; now apply (data_get_opt s v _ Hs Hv).
Qed.

Lemma trim_method_data (x v : value) :
  function_free x = true ->
  Part001.trim_method x = Normal v ->
  exists t, v = VString (trim t).
Proof.
  intros Hx. destruct x as [| |b|n|t|items|props|source throws result];
    cbn [Part001.trim_method]; try discriminate.
  - intros H. injection H as <-. eauto.
  - destruct (lookup (str "trim") props) as [m|] eqn:L; [|discriminate].
    cbn [function_free] in Hx. apply (data_lookup _ _ _ Hx) in L.
    destruct m; try discriminate.
Qed.

Lemma element_title_data (s v : value) :
  function_free s = true ->
  Page.element_title s = Normal v ->
  exists t, v = VString (trim t).
Proof.
  intros Hs.
  assert (G : forall c : comp value,
            (forall x, c = Normal x -> function_free x = true) ->
            (x <- c ;; Part001.trim_method x) = Normal v ->
            exists t, v = VString (trim t)).
  { intros c Hc. destruct c as [x|e]; cbn [bind]; [|discriminate].
    apply trim_method_data. now apply Hc. }
  assert (D : forall x,
            or_lazy (Part001.title_field s)
                    (t <- to_string s ;; Normal (VString t)) = Normal x ->
            function_free x = true).
  { intros x. apply or_lazy_data.
    - intros y. now apply part001_field_data.
    - intros y. destruct (to_string s); cbn [bind]; [|discriminate].
      intros H. injection H as <-. reflexivity. }
  destruct s; cbn [Page.element_title]; try (apply G; exact D).
  intros H. injection H as <-. eauto.
Qed.

Lemma element_titles_data (items arr : list value) :
  forallb function_free items = true ->
  map_c Page.element_title items = Normal arr ->
  exists ts, arr = map VString ts /\ forall t, In t ts -> trimmed t.
Proof.
  revert arr. induction items as [|x items IH]; intros arr Hd; cbn [map_c].
  - intros H. injection H as <-. exists []. split; [reflexivity|].
    intros t [].
  - cbn [forallb] in Hd. apply andb_true_iff in Hd. destruct Hd as [Hx Hr].
    destruct (Page.element_title x) as [v|e] eqn:E; cbn [bind];
      [|discriminate].
    destruct (map_c Page.element_title items) as [vs|e]; cbn [bind];
      [|discriminate].
    intros H. injection H as <-.
    destruct (element_title_data x v Hx E) as [t ->].
    destruct (IH vs Hr eq_refl) as (ts & -> & Hts).
    exists (trim t :: ts). split; [reflexivity|].
    intros u [<-|Hu]; [apply trim_trimmed | now apply Hts].
Qed.

Lemma filter_truthy_strings (ts : list jsstring) :
  filter truthy (map VString ts) = map VString (filter non_empty ts).
Proof.
  induction ts as [|t ts IH]; [reflexivity|].
  cbn [map filter]. destruct t; cbn [truthy non_empty]; now rewrite IH.
Qed.

Lemma string_trim_strings (ts : list jsstring) :
  (forall t, In t ts -> trimmed t) ->
  map_c Part001.string_trim (map VString ts) = Normal ts.
Proof.
  induction ts as [|t ts IH]; intros H; [reflexivity|].
  cbn [map map_c]. unfold Part001.string_trim at 1. cbn [to_string bind].
  rewrite IH by (intros u Hu; apply H; now right). cbn [bind].
  rewrite trim_fix by (apply H; now left). reflexivity.
Qed.

Lemma non_empty_trimmed_list (l : list jsstring) :
  forall t, In t (filter non_empty (map trim l)) -> t <> [] /\ trimmed t.
Proof.
  intros t Ht. apply filter_In in Ht. destruct Ht as [Ht Hn].
  apply in_map_iff in Ht. destruct Ht as (u & <- & _).
  split; [now apply non_empty_true | apply trim_trimmed].
Qed.

(** What the second copy of the normalizer makes of titles that are
    trimmed strings. *)
Lemma part001_finish (json : value) (ts : list jsstring) :
  Part001.title_candidates json = Normal (map VString ts) ->
  (forall t, In t ts -> trimmed t) ->
  Part001.normalizeTitlesFromJson json
  = Normal (array_from_set (map clip (filter non_empty ts))).
Proof.
  intros Hc Ht. unfold Part001.normalizeTitlesFromJson.
  rewrite Hc. cbn [bind]. rewrite string_trim_strings by exact Ht.
  reflexivity.
Qed.

(** X27.  The titles the page lists are the ones the normalizer of the
    second copy of the public route starts from: that normalizer
    returns them cut to 45 code units and without duplicates.  They are
    strings, trimmed and not empty. *)
Theorem page_titles_follow_normalizer
  (res : Page.fetched) (s s' : Page.state) :
  Page.titles s = [] ->
  Page.read_response syntax_message res s = Normal s' ->
  Page.titles s' <> [] ->
  exists data L,
    JSON_parse (Page.payload res) = Some data /\
    Page.titles s' = map VString L /\
    (forall t, In t L -> t <> [] /\ trimmed t) /\
    Part001.normalizeTitlesFromJson data
    = Normal (array_from_set (map clip L)).
Proof.
  intros Hs. unfold Page.read_response.
  destruct (Page.includes _ _).
  2:{ destruct (negb (Page.ok res)).
      - unfold Page.throw_new_Error. destruct (to_string _); discriminate.
      - intros H. injection H as <-. cbn. intros C. now elim C. }
  destruct (JSON_parse (Page.payload res)) as [data|] eqn:P; [|discriminate].
  destruct (negb (Page.ok res)).
  { unfold Page.throw_new_Error.
    destruct (or_lazy _ _) as [x|e]; cbn [bind]; [|discriminate].
    destruct (to_string x); discriminate. }
  pose proof (JSON_parse_data _ _ P) as Hd.
  intros Hshow Hne. exists data.
  unfold Page.show_json in Hshow.
  destruct (truthy data) eqn:T.
  - assert (Hn : nullish data = false) by (destruct data; easy).
    assert (Hsrc : coalesce_lazy (get data (str "titles"))
                                 (get data (str "suggestions"))
                   = coalesce_lazy (get_opt data (str "titles"))
                                   (get_opt data (str "suggestions"))).
    { unfold get_opt. now rewrite Hn. }
    rewrite Hsrc in Hshow.
    destruct (coalesce_lazy (get_opt data (str "titles"))
                            (get_opt data (str "suggestions")))
      as [src|e] eqn:Esrc; cbn [bind] in Hshow; [|discriminate].
    assert (Hsd : function_free src = true).
    { revert Esrc. apply coalesce_lazy_data;
        intros v Hv; now apply (data_get_opt data v _ Hd Hv). }
    destruct src as [| |b|n|t|items|props|source throws result];
      try (injection Hshow as <-; cbn in Hne; now elim Hne).
    + injection Hshow as <-.
      exists (filter non_empty (map trim (JsString.split COMMA t))).
      split; [reflexivity|]. split; [reflexivity|].
      split; [apply non_empty_trimmed_list|].
      rewrite (part001_finish data
                 (filter non_empty (map trim (JsString.split COMMA t)))).
      * f_equal. f_equal. f_equal. apply filter_all.
        intros u Hu. now apply filter_In in Hu.
      * unfold Part001.title_candidates. rewrite Esrc. reflexivity.
      * intros u Hu. now apply non_empty_trimmed_list in Hu.
    + destruct (map_c Page.element_title items) as [arr|e] eqn:Earr;
        cbn [bind] in Hshow; [|discriminate].
      injection Hshow as <-.
      destruct (element_titles_data items arr Hsd Earr) as (ts & -> & Hts).
      exists (filter non_empty ts).
      split; [reflexivity|].
      split; [cbn; apply filter_truthy_strings|].
      split.
      { intros u Hu. apply filter_In in Hu. destruct Hu as [Hu Hn'].
        split; [now apply non_empty_true | now apply Hts]. }
      apply part001_finish; [|exact Hts].
      unfold Part001.title_candidates. rewrite Esrc. cbn [bind].
      exact Earr.
  - cbn [bind] in Hshow.
    destruct data as [| |b|n|t|items|props|source throws result];
      try discriminate T;
      try (injection Hshow as <-; cbn in Hne; now elim Hne).
    destruct t; [|discriminate T].
    injection Hshow as <-. cbn in Hne. now elim Hne.
Qed.

Lemma serve_request (h : host) (d k n l : jsstring) :
  serve h (VString (request_text d k n l))
  = (r <- fst (Suggest.POST h (request_text d k n l)) ;; deliver r).
Proof.
  unfold serve. cbn [nullish to_string bind].
  unfold request_text. rewrite wf_text. reflexivity.
Qed.

(** The response of the internal handler to a request that gets as
    far as the decoding step. *)
Lemma suggest_post_decoded (h : host) (body text : jsstring) (v : value) :
  Suggest.reaches_decode h body text ->
  decode (VString (strip_fences text)) (VString text) = v ->
  fst (Suggest.POST h body)
  = Normal (if match v with VNull => true | _ => false end
            then {| status := 200;
                    headers := [(str "Content-Type",
                                 str "text/plain; charset=utf-8")];
                    content := TextBody (VString text) |}
            else {| status := 200; headers := []; content := JsonBody v |}).
Proof.
  intros [Hkey (prompt & resp & Hprompt & Hgen & Hext)] Hv.
  unfold Suggest.POST. rewrite Hkey, Hprompt. cbn [fst].
  rewrite Hgen. cbn [bind]. unfold Suggest.respond. rewrite Hext.
  cbn [bind]. rewrite stripCodeFences_string. cbn [bind].
  rewrite Hv. destruct v; reflexivity.
Qed.

(** X28.  When the output of the model does not decode, the page shows it
    as the raw response: the text the handler extracted as the page
    reads it from the body, with U+FFFD for every unpaired surrogate
    and without a leading byte order mark, and neither an error nor
    titles. *)
Theorem page_shows_plain_text (h : host) (d k n l : jsstring)
  (s0 : Page.state) (text : jsstring) :
  Suggest.reaches_decode h (request_text d k n l) text ->
  JSON_parse (strip_fences text) = None ->
  JSON_parse text = None ->
  Page.onSubmit syntax_message (serve h) d k n l s0
  = Normal (settled VNull
              (VString (without_bom (to_well_formed text))) []).
Proof.
  intros Hreach H1 H2. unfold Page.onSubmit.
  rewrite request_stringify. cbn [bind].
  rewrite serve_request.
  rewrite (suggest_post_decoded _ _ _ VNull Hreach)
    by (rewrite decode_strings, H1, H2; reflexivity).
  reflexivity.
Qed.

Lemma error_body_plain (m : jsstring) :
  error_body (VString m)
  = JsonBody (value_of (PObject [(str "error", PString m)])).
Proof. reflexivity. Qed.

(** What the page makes of the answer [{"error": m}] with status
    500. *)
Lemma page_reads_error (m : jsstring) (s : Page.state) :
  (res <- deliver {| status := 500; headers := [];
                     content := error_body (VString m) |} ;;
   Page.read_response syntax_message res s)
  = Throw (error_object (if non_empty m then m else str "Request failed")).
Proof.
  rewrite error_body_plain. unfold deliver. cbn [content].
  destruct (plain_round_trip (PObject [(str "error", PString m)]) eq_refl)
    as (-> & _ & Hparse).
  cbn [bind]. unfold Page.read_response. cbn [Page.content_type Page.payload
    Page.ok headers header_get filter status].
  change (Page.includes (str "application/json") (str "application/json"))
    with true.
  cbv iota. rewrite Hparse.
  change (negb (status_ok 500)) with true. cbv iota.
  destruct m; reflexivity.
Qed.

(** X29.  The page shows the error message of the internal endpoint: the
    missing-key message when the host has no key, and the message of
    the error the generation service throws, or Unexpected error when
    that message is empty. *)
Theorem page_shows_server_error (h : host) (d k n l : jsstring)
  (s0 : Page.state) :
  (api_key_missing h = true ->
   Page.onSubmit syntax_message (serve h) d k n l s0
   = Normal (settled
               (VString (str "Missing GEMINI_API_KEY environment variable"))
               VNull [])) /\
  (forall m,
     api_key_missing h = false ->
     (forall prompt, generateContent h prompt = Throw (error_object m)) ->
     Page.onSubmit syntax_message (serve h) d k n l s0
     = Normal (settled
                 (VString (if non_empty m then m else str "Unexpected error"))
                 VNull [])).
Proof.
  split.
  - intros Hkey. unfold Page.onSubmit.
    rewrite request_stringify. cbn [bind]. rewrite serve_request.
    unfold Suggest.POST. rewrite Hkey. cbn [fst bind].
    rewrite page_reads_error. reflexivity.
  - intros m Hkey Hgen. unfold Page.onSubmit.
    rewrite request_stringify. cbn [bind]. rewrite serve_request.
    unfold Suggest.POST. rewrite Hkey, request_parse.
    destruct (request_fields_read d k n l) as (-> & -> & -> & ->).
    destruct (prompt_of_strings_returns d (Page.keyword_list k) n l)
      as [prompt ->].
    cbn [fst]. rewrite Hgen. cbn [bind try_catch].
    replace (Suggest.on_error (error_object m))
      with (@Normal value _
              {| status := 500; headers := [];
                 content :=
                   error_body
                     (VString (if non_empty m then m
                               else str "Unexpected error")) |})
      by (destruct m; reflexivity).
    cbn [bind]. rewrite page_reads_error.
    destruct m; reflexivity.
Qed.

(** X30.  The way through for the answer the system instruction asks for:
    when the output of the model decodes, after fence stripping, to a
    JSON value without numbers whose [titles] is a string, the page
    lists the pieces of that string between commas, trimmed and
    without the empty ones, and shows neither an error nor a raw
    response. *)
Theorem page_lists_model_titles (h : host) (d k n l : jsstring)
  (s0 : Page.state) (text : jsstring) (p : plain) (t : jsstring) :
  Suggest.reaches_decode h (request_text d k n l) text ->
  JSON_parse (strip_fences text) = Some (value_of p) ->
  simple p = true ->
  get (value_of p) (str "titles") = Normal (VString t) ->
  Page.onSubmit syntax_message (serve h) d k n l s0
  = Normal (settled VNull VNull
              (map VString
                 (filter non_empty (map trim (JsString.split COMMA t))))).
Proof.
  intros Hreach Hparse Hsimple Htitles. unfold Page.onSubmit.
  rewrite request_stringify. cbn [bind].
  assert (Ht : truthy (value_of p) = true).
  { destruct p as [|b|s|items|members];
      try (cbn in Htitles; discriminate Htitles).
    reflexivity. }
  assert (Hn : nullish (value_of p) = false) by now apply truthy_not_nullish.
  rewrite serve_request.
  rewrite (suggest_post_decoded _ _ _ (value_of p) Hreach)
    by (rewrite decode_strings, Hparse; unfold coalesce; now rewrite Hn).
  replace (match value_of p with VNull => true | _ => false end) with false
    by (destruct p; reflexivity || discriminate Hn).
  cbn [bind]. unfold deliver. cbn [content].
  destruct (plain_round_trip p Hsimple) as (-> & _ & Hback).
  cbn [bind]. unfold Page.read_response. cbn [Page.content_type Page.payload
    Page.ok headers header_get filter status].
  change (Page.includes (str "application/json") (str "application/json"))
    with true.
  cbv iota. rewrite Hback.
  change (negb (status_ok 200)) with false. cbv iota.
  unfold Page.show_json. rewrite Ht. unfold coalesce_lazy.
  rewrite Htitles. cbn [bind nullish]. reflexivity.
Qed.

End PageResponse.

Section PageInstances.

#[local] Existing Instance IntegerNumbers.model.

Lemma page_prompt_witness :
  exists text,
    JSON_stringify
      (Page.request_object (str "cats") (str "a,, b ") [] (str "English"))
    = Normal (VString text) /\
    to_well_formed text = text /\
    snd (Suggest.POST (constant_host VNull) text)
    = [form_prompt (str "cats")
         (filter non_empty (map trim (JsString.split COMMA (str "a,, b "))))
         [] (str "English")].
Proof.
  apply (page_prompt (constant_host VNull) (str "cats") (str "a,, b ") []
                     (str "English")).
  - intros m. destruct m; reflexivity.
  - reflexivity.
Defined.

Lemma failed_response_shows_error_witness :
  exists m,
    m <> [] /\
    Page.onSubmit (fun _ => str "Unexpected token")
      (fun _ => Normal {| Page.ok := false; Page.content_type := None;
                          Page.payload := str "oops" |})
      (str "cats") [] [] [] (settled VNull VNull [])
    = Normal (settled (VString m) VNull []).
Proof.
  apply (failed_response_shows_error
           (fun _ => str "Unexpected token")
           (fun _ => Normal {| Page.ok := false; Page.content_type := None;
                               Page.payload := str "oops" |})
           (str "cats") [] [] [] (settled VNull VNull [])
           {| Page.ok := false; Page.content_type := None;
              Page.payload := str "oops" |}).
  - intros body _. reflexivity.
  - reflexivity.
Defined.

Lemma page_titles_follow_normalizer_witness :
  exists data L,
    JSON_parse one_two_text = Some data /\
    [VString (str "One"); VString (str "Two")] = map VString L /\
    (forall t, In t L -> t <> [] /\ trimmed t) /\
    Part001.normalizeTitlesFromJson data
    = Normal (array_from_set (map clip L)).
Proof.
  apply (page_titles_follow_normalizer
           (fun _ => str "Unexpected token")
           {| Page.ok := true;
              Page.content_type := Some (str "application/json");
              Page.payload := one_two_text |}
           (settled VNull VNull [])
           (settled VNull VNull [VString (str "One"); VString (str "Two")])).
  - reflexivity.
  - reflexivity.
  - discriminate.
Defined.

Lemma request_reaches_decode (raw : jsstring) :
  Suggest.reaches_decode (constant_host (VString raw))
                         (request_text (str "cats") [] [] []) raw.
Proof.
  split; [reflexivity|].
  eexists. eexists. split; [reflexivity|]. split; [reflexivity|].
  destruct raw; reflexivity.
Defined.

Lemma page_shows_plain_text_witness :
  Page.onSubmit (fun _ => str "Unexpected token")
    (serve (constant_host (VString (65279%N :: 55357%N :: str "hi"))))
    (str "cats") [] [] [] (settled VNull VNull [])
  = Normal (settled VNull (VString (65533%N :: str "hi")) []).
Proof.
  apply (page_shows_plain_text (fun _ => str "Unexpected token")
           (constant_host (VString (65279%N :: 55357%N :: str "hi")))
           (str "cats") [] [] [] (settled VNull VNull [])
           (65279%N :: 55357%N :: str "hi")).
  - apply request_reaches_decode.
  - reflexivity.
  - reflexivity.
Defined.

Lemma page_shows_server_error_witness :
  Page.onSubmit (fun _ => str "Unexpected token") (serve keyless_host)
    (str "cats") [] [] [] (settled VNull VNull [])
  = Normal (settled
              (VString (str "Missing GEMINI_API_KEY environment variable"))
              VNull []) /\
  Page.onSubmit (fun _ => str "Unexpected token")
    (serve (failing_host (error_object (str "quota"))))
    (str "cats") [] [] [] (settled VNull VNull [])
  = Normal (settled (VString (str "quota")) VNull []).
Proof.
  split.
  - apply (proj1 (page_shows_server_error
                    (fun _ => str "Unexpected token") keyless_host
                    (str "cats") [] [] [] (settled VNull VNull []))).
    reflexivity.
  - apply (proj2 (page_shows_server_error
                    (fun _ => str "Unexpected token")
                    (failing_host (error_object (str "quota")))
                    (str "cats") [] [] [] (settled VNull VNull []))
                 (str "quota")).
    + reflexivity.
    + intros prompt. reflexivity.
Defined.

Lemma page_lists_model_titles_witness :
  Page.onSubmit (fun _ => str "Unexpected token")
    (serve (constant_host (VString one_two_text)))
    (str "cats") [] [] [] (settled VNull VNull [])
  = Normal (settled VNull VNull
              (map VString
                 (filter non_empty
                    (map trim (JsString.split COMMA (str "One, Two")))))).
Proof.
  apply (page_lists_model_titles (fun _ => str "Unexpected token")
           (constant_host (VString one_two_text))
           (str "cats") [] [] [] (settled VNull VNull []) one_two_text
           (PObject [(str "titles", PString (str "One, Two"))])
           (str "One, Two")).
  - apply request_reaches_decode.
  - reflexivity.
  - reflexivity.
  - reflexivity.
Defined.

End PageInstances.
